(** * Sales dashboard analytics: a shallow embedding of the TypeScript core

    The analytics functions of the dashboard (aggregation, company
    enrichment, product velocity, period comparison and forecasting) are
    transcribed here as Rocq functions, and the properties stated for them
    are proved or refuted on these definitions.

    Modelling conventions, used throughout:

    - A JavaScript [number] that holds a quantity, an amount or a statistic
      is a rational ([Q]).  The functions of the source are transcribed in
      exact arithmetic: they say which numbers are added, multiplied and
      divided, and in which order.  The host rounds the result of every
      operation to binary64, so two values computed from the same numbers
      along different paths can differ in the last bit.  The functions for
      which a property compares such values are transcribed once more in
      module [F64], with the rounding of every operation written out, and
      those properties are stated on the [F64] functions.  The class
      thresholds [Math.ceil(total * 0.33)] and [Math.ceil(total * 0.67)],
      where rounding decides an integer, are computed with the rounding
      written out as well.  The places where the source can produce [NaN]
      or an infinity (a division by zero) are written out with [option],
      [None] standing for a non-finite number; a quotient written with [/]
      has a divisor that is not zero on its path (the length of a non-empty
      window, series or list of forecasts, a positive mean, a positive
      revenue).
    - A [number] that is an array length, an index, a window size or a
      number of days is a [nat].
    - The [date] of a batch is an ISO string [YYYY-MM-DD] in the source.
      It is represented by its day number (days since 1970-01-01, a [Z]);
      [Iso.toISO] gives the string back.  On these strings the default
      [sort()] and the comparisons [<=], [>=] are the order of the day
      numbers ([toISO_compare]).
    - A [Date] object is its time value in milliseconds; local time is UTC
      plus the offset of the host's zone, a parameter of the functions that
      call [setDate] and [getDate].  A zone is its standard offset and the
      shifts of its clock; [JsDate.fixedOffset tz] is a zone without
      daylight-saving time.
    - A JavaScript [Map] keeps its keys in insertion order; it is an
      association list in which [set] on a present key replaces the value in
      place and on an absent key appends.  A [Set] turned into an array is
      the list of first occurrences.
    - [Array.prototype.sort] is stable (ECMAScript 2019): a stable insertion
      sort driven by the comparator of the source.
    - A thrown exception is a value of type [result]. *)

From Stdlib Require Import String Ascii List Bool Arith ZArith QArith Qpower Qround Qminmax Qabs
  Lia Lqa.
From Stdlib Require Import Permutation Sorted OrderedTypeEx.
Import ListNotations.

Local Open Scope Q_scope.

(** ** JavaScript runtime pieces *)

Module Js.

Inductive exn := TypeError | RangeError.

Inductive result (A : Type) :=
| Ok (a : A)
| Throw (e : exn).
Arguments Ok {A} a.
Arguments Throw {A} e.

(** [Math.round x] is [floor (x + 1/2)]. *)
Definition round (x : Q) : Z := Qfloor (x + (1 # 2)).

(** [Math.round(x * 100) / 100]. *)
Definition round2 (x : Q) : Q := inject_Z (round (x * 100)) / 100.

(** [Math.ceil]. *)
Definition ceil (x : Q) : Z := Qceiling x.

(** Binary64 rounding.  [ilog2 x] is the exponent [e] with [2^e <= x < 2^(e+1)]
    for a positive [x]; [binary64 x] is the multiple of [2^(e-52)] nearest
    to [x], ties to the even mantissa.  Subnormals and overflow are out of
    reach of the values it is applied to. *)
Definition ilog2 (x : Q) : Z :=
  let e0 := (Z.log2 (Qnum x) - Z.log2 (Zpos (Qden x)))%Z in
  if Qle_bool (2 ^ e0) x then e0 else (e0 - 1)%Z.

Definition roundHalfEven (y : Q) : Z :=
  let f := Qfloor y in
  match Qcompare (y - inject_Z f) (1 # 2) with
  | Lt => f
  | Gt => (f + 1)%Z
  | Eq => if Z.even f then f else (f + 1)%Z
  end.

Definition binary64 (x : Q) : Q :=
  match Qnum x with
  | Z0 => 0
  | Zpos _ =>
      let ulp := 2 ^ (ilog2 x - 52) in
      Qred (inject_Z (roundHalfEven (x / ulp)) * ulp)
  | Zneg _ =>
      let ulp := 2 ^ (ilog2 (- x) - 52) in
      Qred (- (inject_Z (roundHalfEven (- x / ulp)) * ulp))
  end.

Definition ofNat (n : nat) : Q := inject_Z (Z.of_nat n).

Section Arrays.
Context {A : Type}.

(** [xs.reduce((sum, x) => sum + f(x), 0)]. *)
Definition sumOf (f : A -> Q) (xs : list A) : Q :=
  fold_left (fun sum x => sum + f x) xs 0.

(** Stable insertion: [x] came before every element of [l] in the
    original array, so it stays in front of the elements it ties with. *)
Fixpoint insertBy (le : A -> A -> bool) (x : A) (l : list A) : list A :=
  match l with
  | [] => [x]
  | y :: l' => if le x y then x :: y :: l' else y :: insertBy le x l'
  end.

Fixpoint sortWith (le : A -> A -> bool) (l : list A) : list A :=
  match l with
  | [] => []
  | x :: l' => insertBy le x (sortWith le l')
  end.

(** [xs.sort((a, b) => cmp(a, b))]: [a] goes first when [cmp a b <= 0]. *)
Definition sort (cmp : A -> A -> Q) (l : list A) : list A :=
  sortWith (fun a b => Qle_bool (cmp a b) 0) l.

(** [xs.slice(-n)] for a count [n]: the last [n] elements; [-0] is [0],
    so [slice(-0)] is the whole array. *)
Definition sliceLast (n : nat) (l : list A) : list A :=
  match n with
  | O => l
  | _ => skipn (List.length l - n) l
  end.

(** [xs.slice(0, -n)]: all but the last [n] elements; [slice(0, -0)] is
    empty. *)
Definition sliceButLast (n : nat) (l : list A) : list A :=
  match n with
  | O => []
  | _ => firstn (List.length l - n) l
  end.

(** [xs.map((x, i) => f(x, i))], indices counted from [i0]. *)
Fixpoint mapiFrom {B : Type} (i0 : nat) (f : A -> nat -> B) (l : list A) : list B :=
  match l with
  | [] => []
  | x :: l' => f x i0 :: mapiFrom (S i0) f l'
  end.

Definition mapi {B : Type} (f : A -> nat -> B) (l : list A) : list B :=
  mapiFrom 0 f l.
End Arrays.

Section Keyed.
Context {K : Type} (K_dec : forall x y : K, {x = y} + {x <> y}).

Definition includes (l : list K) (k : K) : bool :=
  if in_dec K_dec k l then true else false.

(** [s.add(k)] on a [Set]: a new element goes last. *)
Definition add (s : list K) (k : K) : list K :=
  if includes s k then s else s ++ [k].

Definition uniqFrom (seen : list K) (l : list K) : list K :=
  fold_left add l seen.

(** [Array.from(new Set(xs))]: first occurrences, in order. *)
Definition uniq (l : list K) : list K := uniqFrom [] l.

Section Maps.
Context {V : Type}.

Definition Map := list (K * V).

Fixpoint get (m : Map) (k : K) : option V :=
  match m with
  | [] => None
  | (k', v) :: m' => if K_dec k k' then Some v else get m' k
  end.

Definition has (m : Map) (k : K) : bool :=
  match get m k with Some _ => true | None => false end.

Fixpoint set (m : Map) (k : K) (v : V) : Map :=
  match m with
  | [] => [(k, v)]
  | (k', v') :: m' =>
      if K_dec k k' then (k', v) :: m' else (k', v') :: set m' k v
  end.

Definition keys (m : Map) : list K := map fst m.
Definition values (m : Map) : list V := map snd m.
End Maps.
End Keyed.
Arguments Map : clear implicits.

End Js.

Import Js.

(** ** Record model ([types/index.ts]) *)

(** An ISO date [YYYY-MM-DD], by its day number. *)
Definition isoDate := Z.

(** The string a day number stands for. *)
Module Iso.

(** Year, month and day of a day number in the proleptic Gregorian
    calendar, counted by eras of 400 years starting on a first of March. *)
Definition civil (z : Z) : Z * Z * Z :=
  let z := (z + 719468)%Z in
  let era := (z / 146097)%Z in
  let doe := (z - era * 146097)%Z in
  let yoe := ((doe - doe / 1460 + doe / 36524 - doe / 146096) / 365)%Z in
  let doy := (doe - (365 * yoe + yoe / 4 - yoe / 100))%Z in
  let mp := ((5 * doy + 2) / 153)%Z in
  let d := (doy - (153 * mp + 2) / 5 + 1)%Z in
  let m := if (mp <? 10)%Z then (mp + 3)%Z else (mp - 9)%Z in
  let y := (yoe + era * 400)%Z in
  (if (m <=? 2)%Z then (y + 1)%Z else y, m, d).

Definition digit (n : Z) : ascii := ascii_of_nat (48 + Z.to_nat (n mod 10)).

Definition pad2 (n : Z) : string :=
  String (digit (n / 10)) (String (digit n) EmptyString).

Definition pad4 (n : Z) : string :=
  String (digit (n / 1000)) (String (digit (n / 100)) (pad2 n)).

(** [toISOString().split('T')[0]] of the date with this day number, for
    the years 0000 to 9999. *)
Definition toISO (z : isoDate) : string :=
  let '(y, m, d) := civil z in
  (pad4 y ++ "-" ++ pad2 m ++ "-" ++ pad2 d)%string.

(** The strings of [n] consecutive days from [lo] on, each below the next
    in the order of [<] on strings. *)
Fixpoint increasingFrom (lo : isoDate) (n : nat) : bool :=
  match n with
  | O => true
  | S n' =>
      match String_as_OT.cmp (toISO lo) (toISO (lo + 1)%Z) with
      | Lt => increasingFrom (lo + 1)%Z n'
      | _ => false
      end
  end.

End Iso.

(** [Date] objects: a time value in milliseconds since the epoch (UTC).
    [getDate] and [setDate] read and write the local time of the host,
    which is UTC plus the offset of the host's zone at that moment;
    [toISOString] works on UTC. *)
Module JsDate.

Definition msPerDay : Z := 86400000.

(** The zone of the host: the offset of local time from UTC (in
    milliseconds) before the first shift, and the shifts of the clock,
    each a time value and the offset from then on, in ascending order.  A
    zone without daylight-saving time has no shift: UTC itself, or IST
    ([fixedOffset 19800000]). *)
Record Zone := mkZone {
  standard : Z;
  shifts : list (Z * Z)
}.

Definition fixedOffset (tz : Z) : Zone := {| standard := tz; shifts := [] |}.

(** The offset in force at the time value [t]. *)
Definition offsetAt (zone : Zone) (t : Z) : Z :=
  fold_left (fun o s => if (fst s <=? t)%Z then snd s else o)
            (shifts zone) (standard zone).

(** ECMAScript's [UTC(t)], the time value of the local time [l].  A local
    time that occurs twice (the clock was set back) is its first
    occurrence; a local time that does not occur (the clock was set
    forward) is read with the offset in force before the shift. *)
Definition utcOf (zone : Zone) (l : Z) : Z :=
  let offsets := standard zone :: map snd (shifts zone) in
  let instants :=
    filter (fun u => (offsetAt zone u =? l - u)%Z)
           (map (fun o => (l - o)%Z) offsets) in
  match instants with
  | u :: us => fold_left Z.min us u
  | [] =>
      match find (fun s => andb (fst s + offsetAt zone (fst s - 1) <=? l)%Z
                                (l <? fst s + snd s)%Z)
                 (shifts zone) with
      | Some s => (l - offsetAt zone (fst s - 1))%Z
      | None => (l - standard zone)%Z
      end
  end.

(** [new Date("YYYY-MM-DD")]: a date-only string is midnight UTC. *)
Definition parse (d : isoDate) : Z := (d * msPerDay)%Z.

(** [d.setDate(d.getDate() + k)]: the local calendar day moves by [k] days
    and the local time of day stays; the result is that local time, read
    in the zone. *)
Definition addDays (zone : Zone) (t : Z) (k : Z) : Z :=
  let local := (t + offsetAt zone t)%Z in
  utcOf zone ((local / msPerDay + k) * msPerDay + local mod msPerDay)%Z.

(** [d.toISOString().split('T')[0]]: the UTC calendar day. *)
Definition toISODate (t : Z) : isoDate := (t / msPerDay)%Z.

(** New York in 2025: Eastern Standard Time (UTC-5) until 2025-03-09
    07:00 UTC, Eastern Daylight Time (UTC-4) until 2025-11-02 06:00 UTC,
    standard time again from then on. *)
Definition newYork2025 : Zone :=
  {| standard := -18000000;
     shifts := [ (20156 * msPerDay + 25200000, -14400000);
                 (20394 * msPerDay + 21600000, -18000000) ]%Z |}.

(** London in 2026: Greenwich Mean Time (UTC) until 2026-03-29 01:00 UTC,
    British Summer Time (UTC+1) until 2026-10-25 01:00 UTC, Greenwich Mean
    Time again from then on. *)
Definition london2026 : Zone :=
  {| standard := 0;
     shifts := [ (20541 * msPerDay + 3600000, 3600000);
                 (20751 * msPerDay + 3600000, 0) ]%Z |}.

End JsDate.

Record SalesRecord := mkSalesRecord {
  HSNCODE : string;
  ITNAME : string;
  QTY : Q;
  TAXBLEAMT : Q;
  GST : Q;
  company : option string
}.

Inductive BatchType := PS | FS.

Record DailySales := mkDailySales {
  date : isoDate;
  type : BatchType;
  records : list SalesRecord;
  totalAmount : Q;
  totalQuantity : Q
}.

Module ProductSales.
Record t := mk {
  productName : string;
  totalQty : Q;
  totalAmount : Q;
  avgPrice : option Q;
  company : option string
}.
End ProductSales.

Module CompanySales.
Record t := mk {
  companyName : string;
  totalAmount : Q;
  totalQuantity : Q;
  productCount : nat;
  products : list ProductSales.t
}.
End CompanySales.

(** [a / b] on numbers: not finite when [b] is zero. *)
Definition divide (a b : Q) : option Q :=
  if Qeq_bool b 0 then None else Some (a / b).

(** Every record of every batch, in the order the nested [forEach] visits
    them, with the batch it belongs to. *)
Definition forEachRecord {S : Type} (salesData : list DailySales)
    (f : S -> DailySales -> SalesRecord -> S) (init : S) : S :=
  fold_left (fun s daily => fold_left (fun s record => f s daily record)
                              (records daily) s)
            salesData init.

(** ** Aggregation ([utils/dataLoader.ts]) *)

Record QtyAmount := mkQtyAmount { qty : Q; amount : Q }.

Definition orElse {A : Type} (o : option A) (d : A) : A :=
  match o with Some a => a | None => d end.

Definition productMapOf (salesData : list DailySales) : Map string QtyAmount :=
  forEachRecord salesData (fun productMap _ record =>
    let existing := orElse (get string_dec productMap (ITNAME record))
                           {| qty := 0; amount := 0 |} in
    set string_dec productMap (ITNAME record)
      {| qty := qty existing + QTY record;
         amount := amount existing + TAXBLEAMT record |}) [].

Definition aggregateByProduct (salesData : list DailySales) : list ProductSales.t :=
  let productMap := productMapOf salesData in
  sort (fun a b => ProductSales.totalAmount b - ProductSales.totalAmount a)
    (map (fun '(productName, data) =>
            {| ProductSales.productName := productName;
               ProductSales.totalQty := qty data;
               ProductSales.totalAmount := amount data;
               ProductSales.avgPrice := divide (amount data) (qty data);
               ProductSales.company := None |})
         productMap).

Definition getTotalSales (salesData : list DailySales) : Q :=
  fold_left (fun sum daily => sum + totalAmount daily) salesData 0.

Definition getTotalQuantity (salesData : list DailySales) : Q :=
  fold_left (fun sum daily => sum + totalQuantity daily) salesData 0.

Module CompanyData.
Record t := mk {
  amount : Q;
  qty : Q;
  products : Map string QtyAmount
}.
End CompanyData.

(** Truthiness of an optional string: absent and empty are both falsy. *)
Definition truthy (s : option string) : option string :=
  match s with
  | Some EmptyString => None
  | _ => s
  end.

(** [a || b] on optional strings. *)
Definition orString (a b : option string) : option string :=
  match truthy a with
  | Some c => Some c
  | None => b
  end.

Definition companyMapOf (salesData : list DailySales) : Map string CompanyData.t :=
  forEachRecord salesData (fun companyMap _ record =>
    let company := orElse (truthy (company record)) "Unknown"%string in
    let companyMap :=
      if has string_dec companyMap company then companyMap
      else set string_dec companyMap company
             {| CompanyData.amount := 0; CompanyData.qty := 0;
                CompanyData.products := [] |} in
    match get string_dec companyMap company with
    | None => companyMap
    | Some companyData =>
        let productData :=
          orElse (get string_dec (CompanyData.products companyData) (ITNAME record))
                 {| qty := 0; amount := 0 |} in
        set string_dec companyMap company
          {| CompanyData.amount := CompanyData.amount companyData + TAXBLEAMT record;
             CompanyData.qty := CompanyData.qty companyData + QTY record;
             CompanyData.products :=
               set string_dec (CompanyData.products companyData) (ITNAME record)
                 {| qty := qty productData + QTY record;
                    amount := amount productData + TAXBLEAMT record |} |}
    end) [].

Definition aggregateByCompany (salesData : list DailySales) : list CompanySales.t :=
  let companyMap := companyMapOf salesData in
  sort (fun a b => CompanySales.totalAmount b - CompanySales.totalAmount a)
    (map (fun '(companyName, data) =>
            let products :=
              map (fun '(productName, productData) =>
                     {| ProductSales.productName := productName;
                        ProductSales.totalQty := qty productData;
                        ProductSales.totalAmount := amount productData;
                        ProductSales.avgPrice :=
                          divide (amount productData) (qty productData);
                        ProductSales.company := Some companyName |})
                  (CompanyData.products data) in
            {| CompanySales.companyName := companyName;
               CompanySales.totalAmount := CompanyData.amount data;
               CompanySales.totalQuantity := CompanyData.qty data;
               CompanySales.productCount := List.length (CompanyData.products data);
               CompanySales.products :=
                 sort (fun a b => ProductSales.totalAmount b - ProductSales.totalAmount a)
                      products |})
         companyMap).

(** ** Company mapper ([utils/companyMapper.ts]) *)

Module CompanyMapper.

Record t := mk {
  productToCompany : Map string string;
  companyProducts : Map string (list string)
}.

(** [toLowerCase] on the ASCII letters. *)
Definition lowerAscii (c : ascii) : ascii :=
  let n := nat_of_ascii c in
  if andb (65 <=? n)%nat (n <=? 90)%nat then ascii_of_nat (n + 32) else c.

Fixpoint toLowerCase (s : string) : string :=
  match s with
  | EmptyString => EmptyString
  | String c s' => String (lowerAscii c) (toLowerCase s')
  end.

(** The ASCII white space and line terminators that [trim] removes. *)
Definition isSpace (c : ascii) : bool :=
  let n := nat_of_ascii c in
  orb (n =? 32)%nat (andb (9 <=? n)%nat (n <=? 13)%nat).

Fixpoint trimStart (s : string) : string :=
  match s with
  | EmptyString => EmptyString
  | String c s' => if isSpace c then trimStart s' else s
  end.

Fixpoint trimEnd (s : string) : string :=
  match s with
  | EmptyString => EmptyString
  | String c s' =>
      match trimEnd s' with
      | EmptyString => if isSpace c then EmptyString else String c EmptyString
      | t => String c t
      end
  end.

Definition trim (s : string) : string := trimEnd (trimStart s).

Definition normalizeProductName (name : string) : string :=
  trim (toLowerCase name).

Definition getCompanyForProduct (this : t) (productName : string) : option string :=
  let normalized := normalizeProductName productName in
  get string_dec (productToCompany this) normalized.

(** [s.split('\n')]: the pieces between line feeds, at least one. *)
Fixpoint splitOn (sep : ascii) (s : string) : list string :=
  match s with
  | EmptyString => [EmptyString]
  | String c s' =>
      if Ascii.eqb c sep then EmptyString :: splitOn sep s'
      else match splitOn sep s' with
           | [] => [String c EmptyString]
           | w :: ws => String c w :: ws
           end
  end.

Definition lineFeed : ascii := ascii_of_nat 10.

(** The body of the loop of [parseCSV] for a product name that passed the
    emptiness test: the name is registered for the company in both maps. *)
Definition register (this : t) (companyName normalizedProduct : string) : t :=
  let productToCompany :=
    set string_dec (productToCompany this) normalizedProduct companyName in
  let companyProducts :=
    if has string_dec (companyProducts this) companyName then companyProducts this
    else set string_dec (companyProducts this) companyName [] in
  let companyProducts :=
    match get string_dec companyProducts companyName with
    | Some products =>
        set string_dec companyProducts companyName
            (add string_dec products normalizedProduct)
    | None => companyProducts
    end in
  {| productToCompany := productToCompany; companyProducts := companyProducts |}.

(** [parseCSV]: the first line is a header; every other line that is not
    blank names a product of the company. *)
Definition parseCSV (this : t) (csvText companyName : string) : t :=
  let lines := splitOn lineFeed csvText in
  fold_left (fun this line =>
               let productName := trim line in
               match productName with
               | EmptyString => this
               | _ => register this companyName (normalizeProductName productName)
               end)
            (tl lines) this.

Definition getProductsForCompany (this : t) (companyName : string) : list string :=
  match get string_dec (companyProducts this) companyName with
  | Some products => products
  | None => []
  end.

Definition getAllCompanies (this : t) : list string :=
  sortWith String.leb (keys (companyProducts this)).

Definition getStats (this : t) : nat * nat :=
  (List.length (productToCompany this), List.length (companyProducts this)).

(** A mapper before any file is parsed. *)
Definition empty : t := {| productToCompany := []; companyProducts := [] |}.

End CompanyMapper.

(** [record.company = company], the one assignment of the enrichment. *)
Definition setCompany (record : SalesRecord) (c : string) : SalesRecord :=
  {| HSNCODE := HSNCODE record; ITNAME := ITNAME record; QTY := QTY record;
     TAXBLEAMT := TAXBLEAMT record; GST := GST record; company := Some c |}.

Definition enrichRecord (companyMapper : CompanyMapper.t) (record : SalesRecord)
  : SalesRecord :=
  match CompanyMapper.getCompanyForProduct companyMapper (ITNAME record) with
  | Some EmptyString => record
  | Some c => setCompany record c
  | None => record
  end.

(** The function mutates the records in place and returns nothing; the
    batch list after the call is returned here. *)
Definition enrichWithCompanyData (salesData : list DailySales)
    (companyMapper : CompanyMapper.t) : list DailySales :=
  map (fun daily =>
         {| date := date daily; type := type daily;
            records := map (enrichRecord companyMapper) (records daily);
            totalAmount := totalAmount daily;
            totalQuantity := totalQuantity daily |})
      salesData.

(** ** Velocity engine ([calculateProductVelocity] and friends) *)

Inductive VelocityClass := fast | medium | slow.

Module ProductVelocityMetrics.
Record t := mk {
  productName : string;
  company : option string;
  totalQty : Q;
  totalAmount : Q;
  daysActive : nat;
  dailyVelocity : Q;
  weeklyVelocity : Q;
  classification : VelocityClass;
  rank : nat
}.

Definition withRank (m : t) (r : nat) : t :=
  mk (productName m) (company m) (totalQty m) (totalAmount m) (daysActive m)
     (dailyVelocity m) (weeklyVelocity m) (classification m) r.

Definition withClassification (m : t) (c : VelocityClass) : t :=
  mk (productName m) (company m) (totalQty m) (totalAmount m) (daysActive m)
     (dailyVelocity m) (weeklyVelocity m) c (rank m).
End ProductVelocityMetrics.

Module VelocityAcc.
Record t := mk {
  qty : Q;
  amount : Q;
  dates : list isoDate;
  company : option string
}.
End VelocityAcc.

Definition velocityMapOf (salesData : list DailySales) : Map string VelocityAcc.t :=
  forEachRecord salesData (fun productMap daily record =>
    let existing :=
      orElse (get string_dec productMap (ITNAME record))
             {| VelocityAcc.qty := 0; VelocityAcc.amount := 0;
                VelocityAcc.dates := []; VelocityAcc.company := company record |} in
    set string_dec productMap (ITNAME record)
      {| VelocityAcc.qty := VelocityAcc.qty existing + QTY record;
         VelocityAcc.amount := VelocityAcc.amount existing + TAXBLEAMT record;
         VelocityAcc.dates := add Z.eq_dec (VelocityAcc.dates existing) (date daily);
         VelocityAcc.company :=
           orString (company record) (VelocityAcc.company existing) |}) [].

(** The metrics before ranking: classification [medium] and rank [0] are the
    placeholders of the source. *)
Definition velocityMetricOf (entry : string * VelocityAcc.t)
  : ProductVelocityMetrics.t :=
  let '(productName, data) := entry in
  let daysActive := List.length (VelocityAcc.dates data) in
  let dailyVelocity :=
    if (0 <? daysActive)%nat then VelocityAcc.qty data / ofNat daysActive else 0 in
  let weeklyVelocity := dailyVelocity * 7 in
  {| ProductVelocityMetrics.productName := productName;
     ProductVelocityMetrics.company := VelocityAcc.company data;
     ProductVelocityMetrics.totalQty := VelocityAcc.qty data;
     ProductVelocityMetrics.totalAmount := VelocityAcc.amount data;
     ProductVelocityMetrics.daysActive := daysActive;
     ProductVelocityMetrics.dailyVelocity := dailyVelocity;
     ProductVelocityMetrics.weeklyVelocity := weeklyVelocity;
     ProductVelocityMetrics.classification := medium;
     ProductVelocityMetrics.rank := 0 |}.

(** [Math.ceil(total * 0.33)] and [Math.ceil(total * 0.67)].  The literals
    are the doubles nearest to 33/100 and 67/100 and the product is rounded
    to a double before [Math.ceil] sees it: the double 0.67 lies a little
    above 67/100, and for 1500 products the rounded product does not come
    back to 1005, so the threshold is 1006. *)
Definition fastThreshold (total : nat) : Z :=
  ceil (binary64 (ofNat total * binary64 (33 # 100))).
Definition mediumThreshold (total : nat) : Z :=
  ceil (binary64 (ofNat total * binary64 (67 # 100))).

Definition classify (total : nat) (index : nat) : VelocityClass :=
  if (Z.of_nat index <? fastThreshold total)%Z then fast
  else if (Z.of_nat index <? mediumThreshold total)%Z then medium
  else slow.

Definition calculateProductVelocity (salesData : list DailySales)
  : list ProductVelocityMetrics.t :=
  let productMap := velocityMapOf salesData in
  let velocityMetrics := map velocityMetricOf productMap in
  let velocityMetrics :=
    sort (fun a b => ProductVelocityMetrics.dailyVelocity b
                     - ProductVelocityMetrics.dailyVelocity a) velocityMetrics in
  let velocityMetrics :=
    mapi (fun metric index => ProductVelocityMetrics.withRank metric (index + 1))
         velocityMetrics in
  let total := List.length velocityMetrics in
  mapi (fun metric index =>
          ProductVelocityMetrics.withClassification metric (classify total index))
       velocityMetrics.

Inductive PeriodType := week | month.

Record Periods := mkPeriods {
  current : list DailySales;
  previous : list DailySales
}.

(** Batch dates as a sorted array of distinct dates:
    [Array.from(new Set(salesData.map(d => d.date))).sort()]. *)
Definition sortedDates (salesData : list DailySales) : list isoDate :=
  sortWith Z.leb (uniq Z.eq_dec (map date salesData)).

Definition splitDataByPeriod (zone : JsDate.Zone) (salesData : list DailySales)
    (periodType : PeriodType) : Periods :=
  match salesData with
  | [] => {| current := []; previous := [] |}
  | _ =>
      let dates := sortedDates salesData in
      match dates with
      | [] => {| current := []; previous := [] |}
      | _ =>
          let latestDate := JsDate.parse (last dates 0%Z) in
          let periodDays := match periodType with week => 7%Z | month => 30%Z end in
          let currentStart := JsDate.addDays zone latestDate (- (periodDays - 1)) in
          let currentStartStr := JsDate.toISODate currentStart in
          let previousEnd := JsDate.addDays zone currentStart (- 1) in
          let previousEndStr := JsDate.toISODate previousEnd in
          let previousStart := JsDate.addDays zone previousEnd (- (periodDays - 1)) in
          let previousStartStr := JsDate.toISODate previousStart in
          {| current :=
               filter (fun d => andb (currentStartStr <=? date d)%Z
                                     (date d <=? last dates 0%Z)%Z) salesData;
             previous :=
               filter (fun d => andb (previousStartStr <=? date d)%Z
                                     (date d <=? previousEndStr)%Z) salesData |}
      end
  end.

Inductive Trend := accelerating | stableTrend | decelerating.
Inductive ChangeClass := gainer | stable | loser.

Module VelocityChange.
Record t := mk {
  productName : string;
  company : option string;
  currentVelocity : Q;
  previousVelocity : Q;
  changePercent : Q;
  changeAbsolute : Q;
  trend : Trend;
  classification : ChangeClass
}.
End VelocityChange.

(** Truthiness of an optional number: absent and zero are both falsy. *)
Definition truthyNumber (n : option Q) : bool :=
  match n with
  | Some q => negb (Qeq_bool q 0)
  | None => false
  end.

Definition isSome {A : Type} (o : option A) : bool :=
  match o with Some _ => true | None => false end.

(** The body of [allProducts.forEach]: the entries it pushes for one product
    name. *)
Definition compareProduct
    (currentMap : Map string ProductVelocityMetrics.t)
    (previousMap : Map string Q)
    (previousVelocity : list ProductVelocityMetrics.t)
    (productName : string) : list VelocityChange.t :=
  let current := get string_dec currentMap productName in
  let previous := get string_dec previousMap productName in
  match current, previous with
  | Some cur, _ =>
      if negb (truthyNumber previous) then
        [ {| VelocityChange.productName := productName;
             VelocityChange.company := ProductVelocityMetrics.company cur;
             VelocityChange.currentVelocity := ProductVelocityMetrics.dailyVelocity cur;
             VelocityChange.previousVelocity := 0;
             VelocityChange.changePercent := 100;
             VelocityChange.changeAbsolute := ProductVelocityMetrics.dailyVelocity cur;
             VelocityChange.trend := accelerating;
             VelocityChange.classification := gainer |} ]
      else
        let prev := orElse previous 0 in
        let changeAbsolute := ProductVelocityMetrics.dailyVelocity cur - prev in
        let changePercent :=
          if Qlt_le_dec 0 prev then (changeAbsolute / prev) * 100 else 0 in
        let trend :=
          if Qlt_le_dec 5 changePercent then accelerating
          else if Qlt_le_dec changePercent (-5) then decelerating
          else stableTrend in
        let classification :=
          if Qlt_le_dec 15 changePercent then gainer
          else if Qlt_le_dec changePercent (-15) then loser
          else stable in
        [ {| VelocityChange.productName := productName;
             VelocityChange.company := ProductVelocityMetrics.company cur;
             VelocityChange.currentVelocity := ProductVelocityMetrics.dailyVelocity cur;
             VelocityChange.previousVelocity := prev;
             VelocityChange.changePercent := changePercent;
             VelocityChange.changeAbsolute := changeAbsolute;
             VelocityChange.trend := trend;
             VelocityChange.classification := classification |} ]
  | None, _ =>
      if truthyNumber previous then
        let prev := orElse previous 0 in
        [ {| VelocityChange.productName := productName;
             VelocityChange.company :=
               match find (fun v => String.eqb (ProductVelocityMetrics.productName v)
                                               productName) previousVelocity with
               | Some v => ProductVelocityMetrics.company v
               | None => None
               end;
             VelocityChange.currentVelocity := 0;
             VelocityChange.previousVelocity := prev;
             VelocityChange.changePercent := -100;
             VelocityChange.changeAbsolute := - prev;
             VelocityChange.trend := decelerating;
             VelocityChange.classification := loser |} ]
      else []
  end.

(** [new Map(pairs)]: later pairs overwrite earlier ones with the same key. *)
Definition mapFromPairs {V : Type} (pairs : list (string * V)) : Map string V :=
  fold_left (fun m kv => set string_dec m (fst kv) (snd kv)) pairs [].

Definition compareVelocityPeriods (currentPeriod previousPeriod : list DailySales)
  : list VelocityChange.t :=
  let currentVelocity := calculateProductVelocity currentPeriod in
  let previousVelocity := calculateProductVelocity previousPeriod in
  let previousMap :=
    mapFromPairs (map (fun v => (ProductVelocityMetrics.productName v,
                                 ProductVelocityMetrics.dailyVelocity v))
                      previousVelocity) in
  let currentMap :=
    mapFromPairs (map (fun v => (ProductVelocityMetrics.productName v, v))
                      currentVelocity) in
  let allProducts :=
    uniq string_dec (map ProductVelocityMetrics.productName currentVelocity
                     ++ map ProductVelocityMetrics.productName previousVelocity) in
  flat_map (compareProduct currentMap previousMap previousVelocity) allProducts.

Record Distribution := mkDistribution {
  fastCount : nat;
  mediumCount : nat;
  slowCount : nat
}.

Definition isClass (c : VelocityClass) (v : ProductVelocityMetrics.t) : bool :=
  match c, ProductVelocityMetrics.classification v with
  | fast, fast | medium, medium | slow, slow => true
  | _, _ => false
  end.

Definition getVelocityDistribution (velocityMetrics : list ProductVelocityMetrics.t)
  : Distribution :=
  {| fastCount := List.length (filter (isClass fast) velocityMetrics);
     mediumCount := List.length (filter (isClass medium) velocityMetrics);
     slowCount := List.length (filter (isClass slow) velocityMetrics) |}.

(** ** Forecasting engine *)

Record DayData := mkDayData {
  dayDate : isoDate;
  quantity : Q;
  revenue : Q
}.

Module ProductTimeSeries.
Record t := mk {
  productName : string;
  company : option string;
  dailyData : list DayData
}.
End ProductTimeSeries.

Record Horizon := mkHorizon {
  h_revenue : Q;
  h_quantity : Q;
  h_confidence : Q;
  targetDate : isoDate
}.

Record HistoricalMetrics := mkHistoricalMetrics {
  avgDailyRevenue : Q;
  avgDailyQuantity : Q;
  stdRevenue : Q;
  stdQuantity : Q;
  daysOfData : nat
}.

Module ProductForecast.
Record t := mk {
  productName : string;
  company : option string;
  oneDayForecast : Horizon;
  sevenDayForecast : Horizon;
  historicalMetrics : HistoricalMetrics
}.
End ProductForecast.

Inductive DataQuality := excellent | good | fair | poor.

Inductive Warning :=
| LimitedHistory
| DatesMissing (n : nat).

Record Total := mkTotal {
  t_revenue : Q;
  t_quantity : Q;
  avgConfidence : Q
}.

Record ForecastSummary := mkForecastSummary {
  generatedAt : string;
  oneDayTarget : isoDate;
  sevenDayTarget : isoDate;
  totalOneDay : Total;
  totalSevenDay : Total;
  productForecasts : list ProductForecast.t;
  dataQuality : DataQuality;
  totalHistoricalDays : nat;
  missingDates : list isoDate;
  warnings : list Warning
}.

Record Metrics := mkMetrics { mae : Q; mape : Q; rmse : Q }.

Module ForecastValidation.
Record t := mk {
  productName : string;
  metrics : Metrics;
  testPeriodDays : nat
}.
End ForecastValidation.

Module SeriesAcc.
Record t := mk {
  company : option string;
  dailyData : Map isoDate (Q * Q)
}.
End SeriesAcc.

(** Step 1 of [prepareProductTimeSeries]: per product, the company of its
    first record and a map from date to (quantity, revenue). *)
Definition seriesMapOf (salesData : list DailySales) : Map string SeriesAcc.t :=
  forEachRecord salesData (fun productMap daily record =>
    let productMap :=
      if has string_dec productMap (ITNAME record) then productMap
      else set string_dec productMap (ITNAME record)
             {| SeriesAcc.company := company record; SeriesAcc.dailyData := [] |} in
    match get string_dec productMap (ITNAME record) with
    | None => productMap
    | Some product =>
        let existing :=
          orElse (get Z.eq_dec (SeriesAcc.dailyData product) (date daily)) (0, 0) in
        set string_dec productMap (ITNAME record)
          {| SeriesAcc.company := SeriesAcc.company product;
             SeriesAcc.dailyData :=
               set Z.eq_dec (SeriesAcc.dailyData product) (date daily)
                 (fst existing + QTY record, snd existing + TAXBLEAMT record) |}
    end) [].

Definition prepareProductTimeSeries (salesData : list DailySales) (topN : nat)
  : list ProductTimeSeries.t :=
  let productMap := seriesMapOf salesData in
  let productTotals :=
    map (fun '(name, data) =>
           (name, fold_left (fun sum day => sum + snd day)
                            (values (SeriesAcc.dailyData data)) 0))
        productMap in
  let productTotals := sort (fun a b => snd b - snd a) productTotals in
  let topProductNames := uniq string_dec (map fst (firstn topN productTotals)) in
  let allDates := sortedDates salesData in
  flat_map (fun '(productName, data) =>
              if negb (includes string_dec topProductNames productName) then []
              else
                let dailyData :=
                  map (fun date =>
                         let dayData :=
                           orElse (get Z.eq_dec (SeriesAcc.dailyData data) date) (0, 0) in
                         {| dayDate := date; quantity := fst dayData;
                            revenue := snd dayData |})
                      allDates in
                [ {| ProductTimeSeries.productName := productName;
                     ProductTimeSeries.company := SeriesAcc.company data;
                     ProductTimeSeries.dailyData := dailyData |} ])
           productMap.

(** The loop [for (d = new Date(start); d <= end; d.setDate(d.getDate() + 1))]
    of [findMissingDates].  Each turn moves [d] one local day forward, so
    the loop ends; [fuel] bounds the number of turns. *)
Fixpoint missingLoop (zone : JsDate.Zone) (allDates : list isoDate) (end_ : Z) (fuel : nat)
    (d : Z) : list isoDate :=
  match fuel with
  | O => []
  | S fuel' =>
      if (d <=? end_)%Z then
        let dateStr := JsDate.toISODate d in
        (if negb (includes Z.eq_dec allDates dateStr) then [dateStr] else [])
        ++ missingLoop zone allDates end_ fuel' (JsDate.addDays zone d 1)
      else []
  end.

(** The loop is given one turn per day from [start] to [end], and one
    more for the test that leaves it: as many as it takes in any zone whose
    clock is not set forward by a day or more between the two dates. *)
Definition findMissingDates (zone : JsDate.Zone) (allDates : list isoDate)
  : list isoDate :=
  if (List.length allDates <? 2)%nat then []
  else
    let start := JsDate.parse (hd 0%Z allDates) in
    let end_ := JsDate.parse (last allDates 0%Z) in
    missingLoop zone allDates end_
      (Z.to_nat ((end_ - start) / JsDate.msPerDay + 2)) start.

Record Estimate := mkEstimate { value : Q; confidence : Q }.

Section Forecasting.

(** [Math.sqrt], left abstract: the rationals are not closed under square
    roots and the results below only use what they state about it. *)
Variable sqrt : Q -> Q.

(** The zone of the host. *)
Variable zone : JsDate.Zone.

Definition calculateMovingAverage (values : list Q) (_targetIndex : nat)
    (windowSize : nat) : Estimate :=
  match values with
  | [] => {| value := 0; confidence := 0 |}
  | _ =>
      let actualWindow := Nat.min windowSize (List.length values) in
      match actualWindow with
      | O => {| value := 0; confidence := 0 |}
      | _ =>
          let window := sliceLast actualWindow values in
          let weights := mapi (fun _ i => ofNat (i + 1)) window in
          let totalWeight := fold_left (fun sum w => sum + w) weights 0 in
          let weightedSum :=
            fold_left (fun sum vw => sum + fst vw * snd vw) (combine window weights) 0 in
          let weightedAvg := weightedSum / totalWeight in
          let dataQualityScore :=
            Qmin (ofNat actualWindow / ofNat windowSize) 1 * 100 in
          let mean :=
            fold_left (fun sum val => sum + val) window 0 / ofNat (List.length window) in
          let variance :=
            fold_left (fun sum val => sum + (val - mean) ^ 2) window 0
            / ofNat (List.length window) in
          let stdDev := sqrt variance in
          let cv := if Qlt_le_dec 0 mean then stdDev / mean else 1 in
          let variabilityScore := Qmax 0 ((1 - cv) * 100) in
          let confidence := Qmin ((dataQualityScore + variabilityScore) / 2) 100 in
          {| value := weightedAvg; confidence := inject_Z (round confidence) |}
      end
  end.

Definition ensembleMovingAverage (values : list Q) : Estimate :=
  let windows := [7; 14; 30]%nat in
  let results :=
    map (fun window => calculateMovingAverage values (List.length values) window)
        windows in
  let totalConfidence := fold_left (fun sum r => sum + confidence r) results 0 in
  if Qeq_bool totalConfidence 0 then {| value := 0; confidence := 0 |}
  else
    let weightedValue :=
      fold_left (fun sum r => sum + value r * confidence r) results 0
      / totalConfidence in
    let avgConfidence := totalConfidence / ofNat (List.length results) in
    {| value := weightedValue; confidence := inject_Z (round avgConfidence) |}.

(** Reading [.date] of [dailyData[dailyData.length - 1]] throws a
    [TypeError] on an empty series. *)
Definition forecastProduct (timeSeries : ProductTimeSeries.t)
  : result ProductForecast.t :=
  let dailyData := ProductTimeSeries.dailyData timeSeries in
  let revenues := map revenue dailyData in
  let quantities := map quantity dailyData in
  let totalRevenue := fold_left (fun sum r => sum + r) revenues 0 in
  let totalQuantity := fold_left (fun sum q => sum + q) quantities 0 in
  let daysOfData := List.length dailyData in
  match rev dailyData with
  | [] => Throw TypeError
  | lastDay :: _ =>
      let avgDailyRevenue := totalRevenue / ofNat daysOfData in
      let avgDailyQuantity := totalQuantity / ofNat daysOfData in
      let revenueVariance :=
        fold_left (fun sum r => sum + (r - avgDailyRevenue) ^ 2) revenues 0
        / ofNat daysOfData in
      let revenueStdDev := sqrt revenueVariance in
      let quantityVariance :=
        fold_left (fun sum q => sum + (q - avgDailyQuantity) ^ 2) quantities 0
        / ofNat daysOfData in
      let quantityStdDev := sqrt quantityVariance in
      let lastDate := dayDate lastDay in
      let lastDateObj := JsDate.parse lastDate in
      let oneDayTarget := JsDate.toISODate (JsDate.addDays zone lastDateObj 1) in
      let sevenDayTarget := JsDate.toISODate (JsDate.addDays zone lastDateObj 7) in
      let oneDayRevenueForecast :=
        calculateMovingAverage revenues (List.length revenues) 7 in
      let oneDayQuantityForecast :=
        calculateMovingAverage quantities (List.length quantities) 7 in
      let sevenDayRevenueForecast := ensembleMovingAverage revenues in
      let sevenDayQuantityForecast := ensembleMovingAverage quantities in
      let sevenDayRevenueTotal := value sevenDayRevenueForecast * 7 in
      let sevenDayQuantityTotal := value sevenDayQuantityForecast * 7 in
      Ok {| ProductForecast.productName := ProductTimeSeries.productName timeSeries;
            ProductForecast.company := ProductTimeSeries.company timeSeries;
            ProductForecast.oneDayForecast :=
              {| h_revenue := round2 (value oneDayRevenueForecast);
                 h_quantity := round2 (value oneDayQuantityForecast);
                 h_confidence := Qmin (confidence oneDayRevenueForecast)
                                      (confidence oneDayQuantityForecast);
                 targetDate := oneDayTarget |};
            ProductForecast.sevenDayForecast :=
              {| h_revenue := round2 sevenDayRevenueTotal;
                 h_quantity := round2 sevenDayQuantityTotal;
                 h_confidence := Qmin (confidence sevenDayRevenueForecast)
                                      (confidence sevenDayQuantityForecast);
                 targetDate := sevenDayTarget |};
            ProductForecast.historicalMetrics :=
              {| avgDailyRevenue := round2 avgDailyRevenue;
                 avgDailyQuantity := round2 avgDailyQuantity;
                 stdRevenue := round2 revenueStdDev;
                 stdQuantity := round2 quantityStdDev;
                 daysOfData := daysOfData |} |}
  end.

(** [xs.map(f)] for an [f] that may throw: the first exception escapes. *)
Fixpoint mapM {A B : Type} (f : A -> result B) (l : list A) : result (list B) :=
  match l with
  | [] => Ok []
  | x :: l' =>
      match f x with
      | Throw e => Throw e
      | Ok y =>
          match mapM f l' with
          | Throw e => Throw e
          | Ok ys => Ok (y :: ys)
          end
      end
  end.

Definition gradeOf (missingPercent : option Q) : DataQuality :=
  match missingPercent with
  | None => poor
  | Some p =>
      if Qlt_le_dec p 5 then excellent
      else if Qlt_le_dec p 15 then good
      else if Qlt_le_dec p 30 then fair
      else poor
  end.

(** The two [reduce] calls over the product forecasts; the accumulator
    [{revenue, quantity, confidence}] is kept in a [Horizon] whose target
    date is not used. *)
Definition sumHorizons (pick : ProductForecast.t -> Horizon)
    (productForecasts : list ProductForecast.t) : Horizon :=
  fold_left (fun acc pf =>
               {| h_revenue := h_revenue acc + h_revenue (pick pf);
                  h_quantity := h_quantity acc + h_quantity (pick pf);
                  h_confidence := h_confidence acc + h_confidence (pick pf);
                  targetDate := targetDate acc |})
            productForecasts
            {| h_revenue := 0; h_quantity := 0; h_confidence := 0;
               targetDate := 0%Z |}.

(** [now] is the value of [new Date().toISOString()] at the call. *)
Definition generateForecastSummary (now : string) (salesData : list DailySales)
    (topN : nat) : result ForecastSummary :=
  let timeSeries := prepareProductTimeSeries salesData topN in
  match mapM forecastProduct timeSeries with
  | Throw e => Throw e
  | Ok productForecasts =>
      let totalOneDay :=
        sumHorizons ProductForecast.oneDayForecast productForecasts in
      let totalSevenDay :=
        sumHorizons ProductForecast.sevenDayForecast productForecasts in
      let allDates := sortedDates salesData in
      let missingDates := findMissingDates zone allDates in
      let missingPercent :=
        option_map (fun r => r * 100)
          (match allDates with
           | [] => None
           | _ => Some (ofNat (List.length missingDates)
                        / ofNat (List.length allDates))
           end) in
      let dataQuality := gradeOf missingPercent in
      let warnings :=
        (if (List.length allDates <? 30)%nat then [LimitedHistory] else [])
        ++ (if (0 <? List.length missingDates)%nat
            then [DatesMissing (List.length missingDates)] else []) in
      match productForecasts with
      | [] => Throw TypeError
      | firstForecast :: _ =>
          let n := ofNat (List.length productForecasts) in
          Ok {| generatedAt := now;
                oneDayTarget := targetDate (ProductForecast.oneDayForecast firstForecast);
                sevenDayTarget :=
                  targetDate (ProductForecast.sevenDayForecast firstForecast);
                totalOneDay :=
                  {| t_revenue := round2 (h_revenue totalOneDay);
                     t_quantity := round2 (h_quantity totalOneDay);
                     avgConfidence :=
                       inject_Z (round (h_confidence totalOneDay / n)) |};
                totalSevenDay :=
                  {| t_revenue := round2 (h_revenue totalSevenDay);
                     t_quantity := round2 (h_quantity totalSevenDay);
                     avgConfidence :=
                       inject_Z (round (h_confidence totalSevenDay / n)) |};
                productForecasts := productForecasts;
                dataQuality := dataQuality;
                totalHistoricalDays := List.length allDates;
                missingDates := missingDates;
                warnings := warnings |}
      end
  end.

Definition backtestForecast (timeSeries : ProductTimeSeries.t) (testDays : nat)
  : ForecastValidation.t :=
  let dailyData := ProductTimeSeries.dailyData timeSeries in
  let productName := ProductTimeSeries.productName timeSeries in
  if (List.length dailyData <? testDays + 7)%nat then
    {| ForecastValidation.productName := productName;
       ForecastValidation.metrics := {| mae := 0; mape := 0; rmse := 0 |};
       ForecastValidation.testPeriodDays := 0 |}
  else
    let trainData := sliceButLast testDays dailyData in
    let testData := sliceLast testDays dailyData in
    let revenues := map revenue trainData in
    let errors :=
      map (fun actual =>
             let forecast := calculateMovingAverage revenues (List.length revenues) 7 in
             Qabs (revenue actual - value forecast))
          testData in
    let percentErrors :=
      flat_map (fun actual =>
                  let forecast :=
                    calculateMovingAverage revenues (List.length revenues) 7 in
                  let error := Qabs (revenue actual - value forecast) in
                  if Qlt_le_dec 0 (revenue actual)
                  then [(error / revenue actual) * 100] else [])
               testData in
    let mae := fold_left (fun sum e => sum + e) errors 0 / ofNat (List.length errors) in
    let mape :=
      if (0 <? List.length percentErrors)%nat
      then fold_left (fun sum e => sum + e) percentErrors 0
           / ofNat (List.length percentErrors)
      else 0 in
    let rmse :=
      sqrt (fold_left (fun sum e => sum + e * e) errors 0
            / ofNat (List.length errors)) in
    {| ForecastValidation.productName := productName;
       ForecastValidation.metrics :=
         {| mae := round2 mae; mape := round2 mape; rmse := round2 rmse |};
       ForecastValidation.testPeriodDays := testDays |}.

Definition validateForecasts (salesData : list DailySales) (topN : nat)
  : list ForecastValidation.t :=
  let timeSeries := prepareProductTimeSeries salesData topN in
  map (fun ts => backtestForecast ts 7) timeSeries.

End Forecasting.

(** ** The rest of [utils/dataLoader.ts] *)

Module DateSales.
Record t := mk {
  date : isoDate;
  type : BatchType;
  amount : Q;
  quantity : Q
}.
End DateSales.

(** [a.localeCompare(b)] on two ISO dates. *)
Definition localeCompare (a b : isoDate) : Q :=
  match (a ?= b)%Z with
  | Lt => -1
  | Eq => 0
  | Gt => 1
  end.

Definition aggregateByDate (salesData : list DailySales) : list DateSales.t :=
  sort (fun a b => localeCompare (DateSales.date a) (DateSales.date b))
       (map (fun daily =>
               {| DateSales.date := date daily;
                  DateSales.type := type daily;
                  DateSales.amount := totalAmount daily;
                  DateSales.quantity := totalQuantity daily |})
            salesData).

Definition getTopProducts (salesData : list DailySales) (limit : nat)
  : list ProductSales.t :=
  firstn limit (aggregateByProduct salesData).

Definition getTopCompanies (salesData : list DailySales) (limit : nat)
  : list CompanySales.t :=
  firstn limit (aggregateByCompany salesData).

Module ProductAcc.
Record t := mk {
  qty : Q;
  amount : Q;
  company : option string
}.
End ProductAcc.

Definition productCompanyMapOf (salesData : list DailySales)
  : Map string ProductAcc.t :=
  forEachRecord salesData (fun productMap _ record =>
    let existing :=
      orElse (get string_dec productMap (ITNAME record))
             {| ProductAcc.qty := 0; ProductAcc.amount := 0;
                ProductAcc.company := company record |} in
    set string_dec productMap (ITNAME record)
      {| ProductAcc.qty := ProductAcc.qty existing + QTY record;
         ProductAcc.amount := ProductAcc.amount existing + TAXBLEAMT record;
         ProductAcc.company :=
           orString (company record) (ProductAcc.company existing) |}) [].

Definition aggregateByProductWithCompany (salesData : list DailySales)
  : list ProductSales.t :=
  let productMap := productCompanyMapOf salesData in
  sort (fun a b => ProductSales.totalAmount b - ProductSales.totalAmount a)
    (map (fun '(productName, data) =>
            {| ProductSales.productName := productName;
               ProductSales.totalQty := ProductAcc.qty data;
               ProductSales.totalAmount := ProductAcc.amount data;
               ProductSales.avgPrice :=
                 divide (ProductAcc.amount data) (ProductAcc.qty data);
               ProductSales.company := ProductAcc.company data |})
         productMap).

(** ** Filters of the dashboard ([components/Dashboard.tsx])

    The filter state of the component: the type is ['ALL'], ['PS'] or
    ['FS']; the date is ['ALL'], ['RANGE'] or one date; the two ends of the
    range are dates or the empty string; the company is ['ALL'] or a
    company name. *)

Inductive TypeChoice := AllTypes | OnlyType (t : BatchType).

Inductive DateChoice := AllDates | RangeOfDates | OneDate (d : isoDate).

Record Filters := mkFilters {
  selectedType : TypeChoice;
  selectedDate : DateChoice;
  dateRangeStart : option isoDate;
  dateRangeEnd : option isoDate;
  selectedCompany : string
}.

Definition sameType (a b : BatchType) : bool :=
  match a, b with
  | PS, PS | FS, FS => true
  | _, _ => false
  end.

(** [r.company === selectedCompany]. *)
Definition hasCompany (selectedCompany : string) (r : SalesRecord) : bool :=
  match company r with
  | Some c => String.eqb c selectedCompany
  | None => false
  end.

(** The company filter: each batch keeps the records of the company and
    gets totals computed again from them. *)
Definition filterByCompany (selectedCompany : string) (filteredData : list DailySales)
  : list DailySales :=
  map (fun daily =>
         {| date := date daily; type := type daily;
            records := filter (hasCompany selectedCompany) (records daily);
            totalAmount :=
              fold_left (fun sum r => sum + TAXBLEAMT r)
                        (filter (hasCompany selectedCompany) (records daily)) 0;
            totalQuantity :=
              fold_left (fun sum r => sum + QTY r)
                        (filter (hasCompany selectedCompany) (records daily)) 0 |})
      filteredData.

Definition filteredData (f : Filters) (salesData : list DailySales)
  : list DailySales :=
  let filteredData :=
    match selectedType f with
    | AllTypes => salesData
    | OnlyType t => filter (fun d => sameType (type d) t) salesData
    end in
  let filteredData :=
    match selectedDate f, dateRangeStart f, dateRangeEnd f with
    | RangeOfDates, Some dateRangeStart, Some dateRangeEnd =>
        filter (fun d => andb (dateRangeStart <=? date d)%Z
                              (date d <=? dateRangeEnd)%Z) filteredData
    | OneDate selectedDate, _, _ =>
        filter (fun d => (date d =? selectedDate)%Z) filteredData
    | _, _, _ => filteredData
    end in
  if String.eqb (selectedCompany f) "ALL" then filteredData
  else filterByCompany (selectedCompany f) filteredData.

Record TypeComparison := mkTypeComparison {
  psAmount : Q;
  psQuantity : Q;
  fsAmount : Q;
  fsQuantity : Q
}.

Definition typeComparison (filteredData : list DailySales) : TypeComparison :=
  {| psAmount := getTotalSales (filter (fun d => sameType (type d) PS) filteredData);
     psQuantity :=
       getTotalQuantity (filter (fun d => sameType (type d) PS) filteredData);
     fsAmount := getTotalSales (filter (fun d => sameType (type d) FS) filteredData);
     fsQuantity :=
       getTotalQuantity (filter (fun d => sameType (type d) FS) filteredData) |}.

(** ** The arithmetic of the host ([number] is binary64)

    The functions above compute in exact rationals.  The host rounds every
    sum, difference, product and quotient to binary64, so the same numbers
    added in two different orders can give two different results.  The
    functions whose results the properties compare across different orders
    of addition are given here once more with the rounding written out,
    operation by operation, in the order of the source. *)

Module F64.

Definition add (a b : Q) : Q := binary64 (a + b).
Definition sub (a b : Q) : Q := binary64 (a - b).
Definition mul (a b : Q) : Q := binary64 (a * b).
Definition div (a b : Q) : Q := binary64 (a / b).

(** The decimal literal or parsed cell [q], as the number the host holds. *)
Definition ofDecimal (q : Q) : Q := binary64 q.

(** [xs.reduce((sum, x) => sum + f(x), 0)]. *)
Definition sumOf {A : Type} (f : A -> Q) (xs : list A) : Q :=
  fold_left (fun sum x => add sum (f x)) xs 0.

Definition divide (a b : Q) : option Q :=
  if Qeq_bool b 0 then None else Some (div a b).

Definition productMapOf (salesData : list DailySales) : Map string QtyAmount :=
  forEachRecord salesData (fun productMap _ record =>
    let existing := orElse (get string_dec productMap (ITNAME record))
                           {| qty := 0; amount := 0 |} in
    set string_dec productMap (ITNAME record)
      {| qty := add (qty existing) (QTY record);
         amount := add (amount existing) (TAXBLEAMT record) |}) [].

Definition aggregateByProduct (salesData : list DailySales) : list ProductSales.t :=
  let productMap := productMapOf salesData in
  sort (fun a b => sub (ProductSales.totalAmount b) (ProductSales.totalAmount a))
    (map (fun '(productName, data) =>
            {| ProductSales.productName := productName;
               ProductSales.totalQty := qty data;
               ProductSales.totalAmount := amount data;
               ProductSales.avgPrice := divide (amount data) (qty data);
               ProductSales.company := None |})
         productMap).

Definition getTotalSales (salesData : list DailySales) : Q :=
  fold_left (fun sum daily => add sum (totalAmount daily)) salesData 0.

Definition getTotalQuantity (salesData : list DailySales) : Q :=
  fold_left (fun sum daily => add sum (totalQuantity daily)) salesData 0.

Definition companyMapOf (salesData : list DailySales) : Map string CompanyData.t :=
  forEachRecord salesData (fun companyMap _ record =>
    let company := orElse (truthy (company record)) "Unknown"%string in
    let companyMap :=
      if has string_dec companyMap company then companyMap
      else set string_dec companyMap company
             {| CompanyData.amount := 0; CompanyData.qty := 0;
                CompanyData.products := [] |} in
    match get string_dec companyMap company with
    | None => companyMap
    | Some companyData =>
        let productData :=
          orElse (get string_dec (CompanyData.products companyData) (ITNAME record))
                 {| qty := 0; amount := 0 |} in
        set string_dec companyMap company
          {| CompanyData.amount := add (CompanyData.amount companyData) (TAXBLEAMT record);
             CompanyData.qty := add (CompanyData.qty companyData) (QTY record);
             CompanyData.products :=
               set string_dec (CompanyData.products companyData) (ITNAME record)
                 {| qty := add (qty productData) (QTY record);
                    amount := add (amount productData) (TAXBLEAMT record) |} |}
    end) [].

Definition aggregateByCompany (salesData : list DailySales) : list CompanySales.t :=
  let companyMap := companyMapOf salesData in
  sort (fun a b => sub (CompanySales.totalAmount b) (CompanySales.totalAmount a))
    (map (fun '(companyName, data) =>
            let products :=
              map (fun '(productName, productData) =>
                     {| ProductSales.productName := productName;
                        ProductSales.totalQty := qty productData;
                        ProductSales.totalAmount := amount productData;
                        ProductSales.avgPrice :=
                          divide (amount productData) (qty productData);
                        ProductSales.company := Some companyName |})
                  (CompanyData.products data) in
            {| CompanySales.companyName := companyName;
               CompanySales.totalAmount := CompanyData.amount data;
               CompanySales.totalQuantity := CompanyData.qty data;
               CompanySales.productCount := List.length (CompanyData.products data);
               CompanySales.products :=
                 sort (fun a b => sub (ProductSales.totalAmount b)
                                      (ProductSales.totalAmount a))
                      products |})
         companyMap).

Definition typeComparison (filteredData : list DailySales) : TypeComparison :=
  {| psAmount := getTotalSales (filter (fun d => sameType (type d) PS) filteredData);
     psQuantity :=
       getTotalQuantity (filter (fun d => sameType (type d) PS) filteredData);
     fsAmount := getTotalSales (filter (fun d => sameType (type d) FS) filteredData);
     fsQuantity :=
       getTotalQuantity (filter (fun d => sameType (type d) FS) filteredData) |}.

Section MovingAverage.

(** [Math.sqrt], as in the exact functions. *)
Variable sqrt : Q -> Q.

(** [Math.pow(x, 2)] is the rounded product of [x] with itself. *)

Definition calculateMovingAverage (values : list Q) (_targetIndex : nat)
    (windowSize : nat) : Estimate :=
  match values with
  | [] => {| value := 0; confidence := 0 |}
  | _ =>
      let actualWindow := Nat.min windowSize (List.length values) in
      match actualWindow with
      | O => {| value := 0; confidence := 0 |}
      | _ =>
          let window := sliceLast actualWindow values in
          let weights := mapi (fun _ i => ofNat (i + 1)) window in
          let totalWeight := fold_left (fun sum w => add sum w) weights 0 in
          let weightedSum :=
            fold_left (fun sum vw => add sum (mul (fst vw) (snd vw)))
                      (combine window weights) 0 in
          let weightedAvg := div weightedSum totalWeight in
          let dataQualityScore :=
            mul (Qmin (div (ofNat actualWindow) (ofNat windowSize)) 1) 100 in
          let mean :=
            div (fold_left (fun sum val => add sum val) window 0)
                (ofNat (List.length window)) in
          let variance :=
            div (fold_left (fun sum val => add sum (mul (sub val mean) (sub val mean)))
                           window 0)
                (ofNat (List.length window)) in
          let stdDev := sqrt variance in
          let cv := if Qlt_le_dec 0 mean then div stdDev mean else 1 in
          let variabilityScore := Qmax 0 (mul (sub 1 cv) 100) in
          let confidence :=
            Qmin (div (add dataQualityScore variabilityScore) 2) 100 in
          {| value := weightedAvg; confidence := inject_Z (round confidence) |}
      end
  end.

End MovingAverage.

End F64.

(** ** Sample data

    The scenario of two products over two days: product A sells 10 units
    for 1000 on 2025-12-01 and 20 units for 2000 on 2025-12-02, product B
    sells 5 units for 500 on the first day only. *)

(** The calendar days from [start] to [end_], both included. *)
Definition daysFromTo (start end_ : isoDate) : list isoDate :=
  map (fun i => (start + Z.of_nat i)%Z) (seq 0 (Z.to_nat (end_ - start + 1))).

Definition sale (name : string) (q a : Q) : SalesRecord :=
  {| HSNCODE := ""; ITNAME := name; QTY := q; TAXBLEAMT := a; GST := 0;
     company := None |}.

(** 2025-12-01 is day 20423 and 2025-12-02 is day 20424. *)
Definition twoProductsTwoDays : list DailySales :=
  [ {| date := 20423%Z; type := PS;
       records := [sale "A" 10 1000; sale "B" 5 500];
       totalAmount := 1500; totalQuantity := 15 |};
    {| date := 20424%Z; type := PS;
       records := [sale "A" 20 2000];
       totalAmount := 2000; totalQuantity := 20 |} ].

(** A product sold in two consecutive weeks, with a zero quantity in the
    first one: its previous-period velocity is exactly 0. *)
Definition zeroWeek : list DailySales :=
  [ {| date := 20423%Z; type := PS; records := [sale "X" 0 0];
       totalAmount := 0; totalQuantity := 0 |} ].

Definition tenWeek : list DailySales :=
  [ {| date := 20430%Z; type := PS; records := [sale "X" 10 1000];
       totalAmount := 1000; totalQuantity := 10 |} ].

(** One batch with one sale of product A on each of the given days. *)
Definition dailyBatches (days : list isoDate) : list DailySales :=
  map (fun d => {| date := d; type := PS; records := [sale "A" 1 100];
                   totalAmount := 100; totalQuantity := 1 |})
      days.


(** A square root on the rationals, exact to six decimals from below; it
    stands for [Math.sqrt] where a statement is evaluated on data. *)
Definition sqrtMicro (q : Q) : Q :=
  inject_Z (Z.sqrt (Qfloor (q * 1000000000000))) / 1000000.

(** A product sold for the same revenue [v] on each of [n] consecutive
    days. *)
Definition constantSeries (v : Q) (n : nat) : ProductTimeSeries.t :=
  {| ProductTimeSeries.productName := "A";
     ProductTimeSeries.company := None;
     ProductTimeSeries.dailyData :=
       map (fun d => {| dayDate := d; quantity := 1; revenue := v |})
           (daysFromTo 20423%Z (20423 + Z.of_nat n - 1)%Z) |}.

(** Three weeks, 2025-12-01 to 2025-12-21, with 2025-12-11 missing: 20
    observed days in a range of 21. *)
Definition gappedThreeWeeks : list DailySales :=
  dailyBatches (daysFromTo 20423%Z 20432%Z ++ daysFromTo 20434%Z 20443%Z).

(** ** Vocabulary of the statements *)

(** The records of all batches, in visiting order, each with its batch. *)
Definition allRecords (salesData : list DailySales) : list (DailySales * SalesRecord) :=
  flat_map (fun daily => map (pair daily) (records daily)) salesData.

(** The distinct product names of a batch list, in order of first sale. *)
Definition productNames (salesData : list DailySales) : list string :=
  uniq string_dec (map (fun dr => ITNAME (snd dr)) (allRecords salesData)).

(** The invariant of a batch: its totals are the sums over its records. *)
Definition totalsConsistent (daily : DailySales) : Prop :=
  totalAmount daily == sumOf TAXBLEAMT (records daily)
  /\ totalQuantity daily == sumOf QTY (records daily).

Definition Qsum (l : list Q) : Q := fold_right Qplus 0 l.

(** The total of a measure [g] over the values of a map. *)
Definition total {K V : Type} (g : V -> Q) (m : Map K V) : Q :=
  Qsum (map (fun kv => g (snd kv)) m).

(** What the enrichment may change in a record: nothing but [company]. *)
Definition sameButCompany (r r' : SalesRecord) : Prop :=
  HSNCODE r' = HSNCODE r /\ ITNAME r' = ITNAME r /\ QTY r' = QTY r
  /\ TAXBLEAMT r' = TAXBLEAMT r /\ GST r' = GST r.

(** The comparator of the velocity sort, and the metrics in rank order
    before ranks and classes are written. *)
Definition byVelocity (a b : ProductVelocityMetrics.t) : Q :=
  ProductVelocityMetrics.dailyVelocity b - ProductVelocityMetrics.dailyVelocity a.

Definition rankedMetrics (salesData : list DailySales) : list ProductVelocityMetrics.t :=
  sort byVelocity (map velocityMetricOf (velocityMapOf salesData)).

(** A calendar day is missing from a batch list when it lies between two
    observed dates and is not itself observed. *)
Definition missingDay (salesData : list DailySales) (d : isoDate) : Prop :=
  (exists lo hi, In lo (map date salesData) /\ In hi (map date salesData)
                 /\ (lo <= d <= hi)%Z)
  /\ ~ In d (map date salesData).

(** The data-quality grade as the specification words it: the share of
    missing days in the full calendar range from the first to the last
    observed date, in percent, against the thresholds 5, 15 and 30. *)
Definition calendarRange (salesData : list DailySales) : list isoDate :=
  let dates := map date salesData in
  daysFromTo (fold_right Z.min (hd 0%Z dates) dates)
             (fold_right Z.max (hd 0%Z dates) dates).

Definition missingShareOfRange (salesData : list DailySales) : Q :=
  let range := calendarRange salesData in
  let missing :=
    filter (fun d => negb (includes Z.eq_dec (map date salesData) d)) range in
  ofNat (List.length missing) / ofNat (List.length range) * 100.

Definition gradeByRange (salesData : list DailySales) : DataQuality :=
  let p := missingShareOfRange salesData in
  if Qlt_le_dec p 5 then excellent
  else if Qlt_le_dec p 15 then good
  else if Qlt_le_dec p 30 then fair
  else poor.

(** ** Vocabulary of the further properties *)

(** The records of a batch list, and the tests that select the records of
    one product or of one company ([record.company || 'Unknown']). *)
Definition recordsOf (salesData : list DailySales) : list SalesRecord :=
  map snd (allRecords salesData).

Definition named (name : string) (r : SalesRecord) : bool :=
  String.eqb (ITNAME r) name.

Definition companyKey (r : SalesRecord) : string :=
  orElse (truthy (company r)) "Unknown"%string.

Definition ofCompany (c : string) (r : SalesRecord) : bool :=
  String.eqb (companyKey r) c.

(** The accumulation every grouping of the source performs: the entry of
    the key of [r] becomes [upd] of what was there, or of [init r] when
    nothing was. *)
Definition accStep {R V : Type} (key : R -> string) (init : R -> V)
    (upd : V -> R -> V) (m : Map string V) (r : R) : Map string V :=
  set string_dec m (key r) (upd (orElse (get string_dec m (key r)) (init r)) r).

Definition addQtyAmount (acc : QtyAmount) (r : SalesRecord) : QtyAmount :=
  {| qty := qty acc + QTY r; amount := amount acc + TAXBLEAMT r |}.

Definition addCompanyData (cd : CompanyData.t) (r : SalesRecord) : CompanyData.t :=
  {| CompanyData.amount := CompanyData.amount cd + TAXBLEAMT r;
     CompanyData.qty := CompanyData.qty cd + QTY r;
     CompanyData.products :=
       accStep ITNAME (fun _ => {| qty := 0; amount := 0 |}) addQtyAmount
               (CompanyData.products cd) r |}.

Definition addProductAcc (acc : ProductAcc.t) (r : SalesRecord) : ProductAcc.t :=
  {| ProductAcc.qty := ProductAcc.qty acc + QTY r;
     ProductAcc.amount := ProductAcc.amount acc + TAXBLEAMT r;
     ProductAcc.company := orString (company r) (ProductAcc.company acc) |}.

(** A product aggregate without its company tag. *)
Definition dropCompany (p : ProductSales.t) : ProductSales.t :=
  {| ProductSales.productName := ProductSales.productName p;
     ProductSales.totalQty := ProductSales.totalQty p;
     ProductSales.totalAmount := ProductSales.totalAmount p;
     ProductSales.avgPrice := ProductSales.avgPrice p;
     ProductSales.company := None |}.

Definition mapValues {V W : Type} (h : V -> W) (m : Map string V) : Map string W :=
  map (fun kv => (fst kv, h (snd kv))) m.

Definition dateRow (daily : DailySales) : DateSales.t :=
  {| DateSales.date := date daily; DateSales.type := type daily;
     DateSales.amount := totalAmount daily;
     DateSales.quantity := totalQuantity daily |}.

Definition emptyCompany : CompanyData.t :=
  {| CompanyData.amount := 0; CompanyData.qty := 0; CompanyData.products := [] |}.

Definition stripCompany (acc : ProductAcc.t) : QtyAmount :=
  {| qty := ProductAcc.qty acc; amount := ProductAcc.amount acc |}.

(** A CSV text from its lines. *)
Definition csvOf (lines : list string) : string :=
  String.concat (String CompanyMapper.lineFeed EmptyString) lines.

(** Two product lists as they are loaded: one product in upper case with
    blanks around it and a carriage return, one blank line. *)
Definition sampleMapper : CompanyMapper.t :=
  CompanyMapper.parseCSV
    (CompanyMapper.parseCSV CompanyMapper.empty
       (csvOf ["Product Name"; "  A " ++ String (ascii_of_nat 13) EmptyString; ""; "c"]%string)
       "Syngenta"%string)
    (csvOf ["Product Name"; "b"]%string) "Adama"%string.

(** The two-product scenario after enrichment with that mapper. *)
Definition taggedTwoDays : list DailySales :=
  enrichWithCompanyData twoProductsTwoDays sampleMapper.

(** The type test and the date test of the dashboard's filters. *)
Definition passesType (f : Filters) (d : DailySales) : bool :=
  match selectedType f with
  | AllTypes => true
  | OnlyType t => sameType (type d) t
  end.

Definition passesDate (f : Filters) (d : DailySales) : bool :=
  match selectedDate f, dateRangeStart f, dateRangeEnd f with
  | RangeOfDates, Some dateRangeStart, Some dateRangeEnd =>
      andb (dateRangeStart <=? date d)%Z (date d <=? dateRangeEnd)%Z
  | OneDate selectedDate, _, _ => (date d =? selectedDate)%Z
  | _, _, _ => true
  end.

Definition passes (f : Filters) (d : DailySales) : bool :=
  andb (passesType f d) (passesDate f d).

(** The product names a CSV text registers: its lines after the header,
    trimmed, the blank ones left out, normalised. *)
Definition productsIn (csvText : string) : list string :=
  map CompanyMapper.normalizeProductName
      (filter (fun s => negb (String.eqb s EmptyString))
              (map CompanyMapper.trim
                   (tl (CompanyMapper.splitOn CompanyMapper.lineFeed csvText)))).

(** The visits of the records of one product, each with its batch. *)
Definition soldAs (name : string) (dr : DailySales * SalesRecord) : bool :=
  String.eqb (ITNAME (snd dr)) name.

Definition addVelocity (acc : VelocityAcc.t) (dr : DailySales * SalesRecord)
  : VelocityAcc.t :=
  {| VelocityAcc.qty := VelocityAcc.qty acc + QTY (snd dr);
     VelocityAcc.amount := VelocityAcc.amount acc + TAXBLEAMT (snd dr);
     VelocityAcc.dates := add Z.eq_dec (VelocityAcc.dates acc) (date (fst dr));
     VelocityAcc.company :=
       orString (company (snd dr)) (VelocityAcc.company acc) |}.

(** The three classes from fastest to slowest. *)
Definition classRank (c : VelocityClass) : nat :=
  match c with fast => 0 | medium => 1 | slow => 2 end.

Definition periodDays (periodType : PeriodType) : Z :=
  match periodType with week => 7%Z | month => 30%Z end.

(** The latest batch date, as [splitDataByPeriod] reads it. *)
Definition latestDate (salesData : list DailySales) : isoDate :=
  last (sortedDates salesData) 0%Z.

(** A week in which product X sells 20 units on one day. *)
Definition twentyWeek : list DailySales :=
  [ {| date := 20437%Z; type := PS; records := [sale "X" 20 2000];
       totalAmount := 2000; totalQuantity := 20 |} ].

(** The visits of one date, and the accumulation of a product's series. *)
Definition onDay (d : isoDate) (dr : DailySales * SalesRecord) : bool :=
  (date (fst dr) =? d)%Z.

Definition dayStep (m : Map isoDate (Q * Q)) (dr : DailySales * SalesRecord)
  : Map isoDate (Q * Q) :=
  let existing := orElse (get Z.eq_dec m (date (fst dr))) (0, 0) in
  set Z.eq_dec m (date (fst dr))
      (fst existing + QTY (snd dr), snd existing + TAXBLEAMT (snd dr)).

Definition addSeries (product : SeriesAcc.t) (dr : DailySales * SalesRecord)
  : SeriesAcc.t :=
  {| SeriesAcc.company := SeriesAcc.company product;
     SeriesAcc.dailyData := dayStep (SeriesAcc.dailyData product) dr |}.


(** The products [prepareProductTimeSeries] keeps: the names of the first
    [topN] totals, largest revenue first. *)
Definition productTotalsOf (salesData : list DailySales) : list (string * Q) :=
  sort (fun a b => snd b - snd a)
       (map (fun '(name, data) =>
               (name, fold_left (fun sum day => sum + snd day)
                                (values (SeriesAcc.dailyData data)) 0))
            (seriesMapOf salesData)).

Definition topProductNames (salesData : list DailySales) (topN : nat) : list string :=
  uniq string_dec (map fst (firstn topN (productTotalsOf salesData))).

(** ** Vocabulary of the rounding properties *)

(** A whole number, and the bound below which every whole number is a
    binary64 number ([2^53]). *)
Definition whole (q : Q) : Prop := inject_Z (Qfloor q) == q.

Definition exactBound : Q := 9007199254740992.

(** The absolute values of a field, added up over all records. *)
Definition magnitude (f : SalesRecord -> Q) (salesData : list DailySales) : Q :=
  Qsum (map (fun r => Qabs (f r)) (recordsOf salesData)).

(** The amounts and quantities of all records are whole numbers whose
    absolute values add up to less than [2^53]: no sum of any of them, in
    any order, is rounded. *)
Definition wholeRecords (salesData : list DailySales) : Prop :=
  Forall (fun r => whole (TAXBLEAMT r) /\ whole (QTY r)) (recordsOf salesData)
  /\ magnitude TAXBLEAMT salesData < exactBound
  /\ magnitude QTY salesData < exactBound.

(** The totals of a batch as the loader computes them. *)
Definition loadedTotals (daily : DailySales) : Prop :=
  totalAmount daily == F64.sumOf TAXBLEAMT (records daily)
  /\ totalQuantity daily == F64.sumOf QTY (records daily).

(** The accumulation steps of [F64.productMapOf] and [F64.companyMapOf], for
    [accStep]. *)
Definition roundedAddQtyAmount (acc : QtyAmount) (r : SalesRecord) : QtyAmount :=
  {| qty := F64.add (qty acc) (QTY r); amount := F64.add (amount acc) (TAXBLEAMT r) |}.

Definition roundedAddCompanyData (cd : CompanyData.t) (r : SalesRecord)
  : CompanyData.t :=
  {| CompanyData.amount := F64.add (CompanyData.amount cd) (TAXBLEAMT r);
     CompanyData.qty := F64.add (CompanyData.qty cd) (QTY r);
     CompanyData.products :=
       accStep ITNAME (fun _ => {| qty := 0; amount := 0 |}) roundedAddQtyAmount
               (CompanyData.products cd) r |}.

(** Amounts 0.1, 0.2 and 0.3 of three products in one batch, with the
    totals the loader computes for it. *)
Definition threeTenthsRecords : list SalesRecord :=
  [sale "A" 1 (F64.ofDecimal (1 # 10)); sale "B" 1 (F64.ofDecimal (2 # 10));
   sale "C" 1 (F64.ofDecimal (3 # 10))].

Definition threeTenths : list DailySales :=
  [ {| date := 20423%Z; type := PS; records := threeTenthsRecords;
       totalAmount := F64.sumOf TAXBLEAMT threeTenthsRecords;
       totalQuantity := F64.sumOf QTY threeTenthsRecords |} ].

(** The sum [1 + 2 + ... + n] of the weights of a window of [n] values. *)
Definition weightSum (n : nat) : Q :=
  Qsum (map (fun i => ofNat (i + 1)) (seq 0 n)).

(** The totals of the batches are whole numbers whose absolute values add
    up to less than [2^53]. *)
Definition wholeTotals (salesData : list DailySales) : Prop :=
  Forall (fun d => whole (totalAmount d) /\ whole (totalQuantity d)) salesData
  /\ Qsum (map (fun d => Qabs (totalAmount d)) salesData) < exactBound
  /\ Qsum (map (fun d => Qabs (totalQuantity d)) salesData) < exactBound.


(** The selection of one company, with every type and every date. *)
Definition onlyCompany (c : string) : Filters :=
  {| selectedType := AllTypes; selectedDate := AllDates;
     dateRangeStart := None; dateRangeEnd := None; selectedCompany := c |}.

(** * Properties *)

(** ** Dates as day numbers *)

Example sample_dates :
  map Iso.toISO [0; 14610; 19782; 20423; 20424; 20430; 20433; 20436; 20443;
                 25567]%Z
  = ["1970-01-01"; "2010-01-01"; "2024-02-29"; "2025-12-01"; "2025-12-02";
     "2025-12-08"; "2025-12-11"; "2025-12-14"; "2025-12-21";
     "2040-01-01"]%string.
Proof. reflexivity. Qed.

Lemma increasing_2010_2039 : Iso.increasingFrom 14610%Z (Z.to_nat 10957) = true.
Proof. vm_compute. reflexivity. Qed.

Lemma increasingFrom_step (n : nat) (lo c : Z) :
  Iso.increasingFrom lo n = true -> (lo <= c < lo + Z.of_nat n)%Z ->
  String_as_OT.lt (Iso.toISO c) (Iso.toISO (c + 1)%Z).
Proof.
  revert lo. induction n as [|n IH]; intros lo H Hc; [lia|].
  cbn [Iso.increasingFrom] in H.
  destruct (String_as_OT.cmp (Iso.toISO lo) (Iso.toISO (lo + 1)%Z)) eqn:E;
    try discriminate.
  destruct (Z.eq_dec c lo) as [->|Hne].
  - apply String_as_OT.cmp_lt. exact E.
  - apply (IH (lo + 1)%Z); [exact H | lia].
Qed.

(** From 2010-01-01 (day 14610) to 2040-01-01 (day 25567) the order of the
    ISO strings is the order of the day numbers: sorting and comparing the
    strings, as the source does, is sorting and comparing the day numbers. *)
Lemma toISO_increasing (a b : isoDate) :
  (14610 <= a)%Z -> (a < b)%Z -> (b <= 25567)%Z ->
  String_as_OT.lt (Iso.toISO a) (Iso.toISO b).
Proof.
  intros Ha Hab Hb.
  assert (Step : forall c, (14610 <= c < 25567)%Z ->
                           String_as_OT.lt (Iso.toISO c) (Iso.toISO (c + 1)%Z)).
  { intros c Hc.
    apply (increasingFrom_step (Z.to_nat 10957) 14610%Z);
      [exact increasing_2010_2039|].
    rewrite Z2Nat.id; lia. }
  replace b with (a + 1 + Z.of_nat (Z.to_nat (b - a - 1)))%Z in * by lia.
  revert Hb. generalize (Z.to_nat (b - a - 1)) as n.
  induction n as [|n IH]; intros Hn.
  - rewrite Z.add_0_r. apply Step. lia.
  - eapply String_as_OT.lt_trans; [apply IH; lia|].
    replace (a + 1 + Z.of_nat (S n))%Z with (a + 1 + Z.of_nat n + 1)%Z by lia.
    apply Step. lia.
Qed.

Lemma toISO_compare (a b : isoDate) :
  (14610 <= a <= 25567)%Z -> (14610 <= b <= 25567)%Z ->
  String_as_OT.cmp (Iso.toISO a) (Iso.toISO b) = (a ?= b)%Z.
Proof.
  intros Ha Hb. destruct (Z.compare_spec a b) as [E|L|G].
  - subst. apply String_as_OT.cmp_eq. reflexivity.
  - apply String_as_OT.cmp_lt, toISO_increasing; lia.
  - rewrite String_as_OT.cmp_antisym.
    replace (String_as_OT.cmp (Iso.toISO b) (Iso.toISO a)) with Lt; [reflexivity|].
    symmetry. apply String_as_OT.cmp_lt, toISO_increasing; lia.
Qed.

(** With a fixed offset, moving the local day by [k] moves the time value
    by [k] days, and the UTC day with it. *)
Lemma offsetAt_fixed (tz t : Z) : JsDate.offsetAt (JsDate.fixedOffset tz) t = tz.
Proof. reflexivity. Qed.

Lemma utcOf_fixed (tz l : Z) : JsDate.utcOf (JsDate.fixedOffset tz) l = (l - tz)%Z.
Proof.
  unfold JsDate.utcOf. cbn [JsDate.fixedOffset JsDate.standard JsDate.shifts map filter].
  rewrite offsetAt_fixed.
  replace (tz =? l - (l - tz))%Z with true by (symmetry; apply Z.eqb_eq; lia).
  reflexivity.
Qed.

Lemma addDays_spec (tz t k : Z) :
  JsDate.addDays (JsDate.fixedOffset tz) t k = (t + k * JsDate.msPerDay)%Z.
Proof.
  unfold JsDate.addDays. rewrite offsetAt_fixed, utcOf_fixed.
  unfold JsDate.msPerDay.
  pose proof (Z.div_mod (t + tz) 86400000). lia.
Qed.

Lemma toISODate_parse (d k : Z) :
  JsDate.toISODate (JsDate.parse d + k * JsDate.msPerDay) = (d + k)%Z.
Proof.
  unfold JsDate.toISODate, JsDate.parse, JsDate.msPerDay.
  rewrite <- Z.mul_add_distr_r. apply Z.div_mul. lia.
Qed.

Lemma toISODate_addDays (tz d k : Z) :
  JsDate.toISODate (JsDate.addDays (JsDate.fixedOffset tz) (JsDate.parse d) k)
  = (d + k)%Z.
Proof. rewrite addDays_spec. apply toISODate_parse. Qed.

(** ** Class thresholds *)

Example binary64_constants :
  binary64 (33 # 100) = (5944751508129055 # 18014398509481984)
  /\ binary64 (67 # 100) = (6034823500676465 # 9007199254740992).
Proof. split; vm_compute; reflexivity. Qed.

Example thresholds_examples :
  map (fun n => (fastThreshold n, mediumThreshold n)) [1; 2; 3; 4; 100; 1500]%nat
  = [(1, 1); (1, 2); (1, 3); (2, 3); (33, 67); (495, 1006)]%Z.
Proof. vm_compute. reflexivity. Qed.

(** ** Sums, maps and sorting *)

Section SumFacts.
Context {A : Type}.

Lemma fold_left_plus (f : A -> Q) (l : list A) (a : Q) :
  fold_left (fun sum x => sum + f x) l a == a + Qsum (map f l).
Proof.
  revert a. induction l as [|x l IH]; intros a; simpl.
  - ring.
  - rewrite IH. ring.
Qed.

Lemma sumOf_Qsum (f : A -> Q) (l : list A) : sumOf f l == Qsum (map f l).
Proof. unfold sumOf. rewrite fold_left_plus. ring. Qed.

Lemma Qsum_app (l1 l2 : list Q) : Qsum (l1 ++ l2) == Qsum l1 + Qsum l2.
Proof.
  induction l1 as [|x l1 IH]; simpl.
  - ring.
  - rewrite IH. ring.
Qed.

Lemma Qsum_perm (l1 l2 : list Q) : Permutation l1 l2 -> Qsum l1 == Qsum l2.
Proof.
  induction 1 as [| x l l' _ IH | x y l | l l' l'' _ IH1 _ IH2]; simpl.
  - reflexivity.
  - rewrite IH. reflexivity.
  - ring.
  - rewrite IH1. exact IH2.
Qed.

Lemma insertBy_perm (le : A -> A -> bool) (x : A) (l : list A) :
  Permutation (insertBy le x l) (x :: l).
Proof.
  induction l as [|y l IH]; simpl.
  - apply Permutation_refl.
  - destruct (le x y).
    + apply Permutation_refl.
    + eapply Permutation_trans; [apply perm_skip, IH | apply perm_swap].
Qed.

Lemma sortWith_perm (le : A -> A -> bool) (l : list A) :
  Permutation (sortWith le l) l.
Proof.
  induction l as [|x l IH]; simpl.
  - apply Permutation_refl.
  - eapply Permutation_trans; [apply insertBy_perm | apply perm_skip, IH].
Qed.

Lemma sort_perm (cmp : A -> A -> Q) (l : list A) : Permutation (sort cmp l) l.
Proof. apply sortWith_perm. Qed.

End SumFacts.

Section MapFacts.
Context {K V : Type} (K_dec : forall x y : K, {x = y} + {x <> y}).

Lemma total_set (g : V -> Q) (m : Map K V) (k : K) (v : V) :
  total g (set K_dec m k v)
  == total g m + g v - match get K_dec m k with Some v0 => g v0 | None => 0 end.
Proof.
  unfold total. induction m as [|[k' v'] m IH]; simpl.
  - ring.
  - destruct (K_dec k k'); simpl.
    + ring.
    + rewrite IH. ring.
Qed.

Lemma get_set_same (m : Map K V) (k : K) (v : V) :
  get K_dec (set K_dec m k v) k = Some v.
Proof.
  induction m as [|[k' v'] m IH]; simpl.
  - destruct (K_dec k k); congruence.
  - destruct (K_dec k k') as [e|ne]; simpl.
    + destruct (K_dec k k'); congruence.
    + destruct (K_dec k k'); congruence.
Qed.

Lemma get_set_other (m : Map K V) (k k0 : K) (v : V) :
  k0 <> k -> get K_dec (set K_dec m k v) k0 = get K_dec m k0.
Proof.
  intros Hne. induction m as [|[k' v'] m IH]; simpl.
  - destruct (K_dec k0 k); congruence.
  - destruct (K_dec k k') as [e|ne]; simpl.
    + subst. destruct (K_dec k0 k'); congruence.
    + destruct (K_dec k0 k'); congruence.
Qed.

Lemma get_None_keys (m : Map K V) (k : K) :
  get K_dec m k = None <-> ~ In k (keys m).
Proof.
  induction m as [|[k' v'] m IH]; simpl.
  - tauto.
  - destruct (K_dec k k') as [e|ne].
    + split; [discriminate | intros H; exfalso; apply H; left; congruence].
    + rewrite IH. split.
      * intros H [H1|H1]; [congruence | tauto].
      * tauto.
Qed.

(** [set] appends a new key at the end and leaves the keys alone
    otherwise: the keys of a map are kept in order of first insertion. *)
Lemma includes_In (l : list K) (k : K) : includes K_dec l k = true <-> In k l.
Proof.
  unfold includes. destruct (in_dec K_dec k l); split; auto; discriminate.
Qed.

Lemma includes_false (l : list K) (k : K) : includes K_dec l k = false <-> ~ In k l.
Proof.
  unfold includes. destruct (in_dec K_dec k l); split; auto; try discriminate.
  intros H; contradiction.
Qed.

Lemma keys_set (m : Map K V) (k : K) (v : V) :
  keys (set K_dec m k v) = add K_dec (keys m) k.
Proof.
  unfold add, keys. induction m as [|[k' v'] m IH].
  - reflexivity.
  - cbn [set]. destruct (K_dec k k') as [e|ne]; cbn [map fst].
    + subst. replace (includes K_dec (k' :: map fst m) k') with true; [reflexivity|].
      symmetry. apply includes_In. left; reflexivity.
    + rewrite IH.
      destruct (includes K_dec (map fst m) k) eqn:E.
      * replace (includes K_dec (k' :: map fst m) k) with true; [reflexivity|].
        symmetry. apply includes_In. right. apply includes_In. exact E.
      * replace (includes K_dec (k' :: map fst m) k) with false; [reflexivity|].
        symmetry. apply includes_false. apply includes_false in E.
        intros [H|H]; [congruence | contradiction].
Qed.
End MapFacts.

Lemma forEachRecord_allRecords {S : Type} (salesData : list DailySales)
    (f : S -> DailySales -> SalesRecord -> S) (init : S) :
  forEachRecord salesData f init
  = fold_left (fun s dr => f s (fst dr) (snd dr)) (allRecords salesData) init.
Proof.
  unfold forEachRecord, allRecords. revert init.
  induction salesData as [|d ds IH]; intros init; simpl.
  - reflexivity.
  - rewrite fold_left_app, IH. f_equal.
    generalize init. induction (records d) as [|r rs IHr]; intros s; simpl.
    + reflexivity.
    + apply IHr.
Qed.

(** ** Sums of pointwise equal terms *)

Lemma Qsum_ext {A : Type} (f g : A -> Q) (l : list A) :
  Forall (fun x => f x == g x) l -> Qsum (map f l) == Qsum (map g l).
Proof.
  induction 1 as [|x l Hx _ IH]; simpl.
  - reflexivity.
  - rewrite Hx, IH. reflexivity.
Qed.

(** ** Company enrichment *)

Lemma enrichRecord_frame (companyMapper : CompanyMapper.t) (r : SalesRecord) :
  sameButCompany r (enrichRecord companyMapper r)
  /\ (CompanyMapper.getCompanyForProduct companyMapper (ITNAME r) = None ->
      enrichRecord companyMapper r = r).
Proof.
  unfold enrichRecord, sameButCompany.
  destruct (CompanyMapper.getCompanyForProduct companyMapper (ITNAME r)) as [[|c s]|];
    simpl; repeat split; intros; congruence.
Qed.

(** C10. [enrichWithCompanyData] keeps the batches in place with their
    date, type and totals, keeps the records of each batch in place with
    their HSNCODE, ITNAME, QTY, TAXBLEAMT and GST, and leaves a record whose
    normalized name the mapper does not resolve exactly as it was, its
    company included. *)
Theorem enrich_changes_only_company (salesData : list DailySales)
    (companyMapper : CompanyMapper.t) :
  Forall2 (fun daily daily' =>
             date daily' = date daily /\ type daily' = type daily
             /\ totalAmount daily' = totalAmount daily
             /\ totalQuantity daily' = totalQuantity daily
             /\ Forall2 (fun r r' =>
                           sameButCompany r r'
                           /\ (CompanyMapper.getCompanyForProduct companyMapper
                                 (ITNAME r) = None -> r' = r))
                        (records daily) (records daily'))
          salesData (enrichWithCompanyData salesData companyMapper).
Proof.
  unfold enrichWithCompanyData.
  induction salesData as [|d ds IH]; simpl; constructor; [|exact IH].
  simpl. repeat split.
  induction (records d) as [|r rs IHr]; simpl; constructor; [|exact IHr].
  apply enrichRecord_frame.
Qed.

(** ** Sorting and indexing *)

Section SortFacts.
Context {A : Type} (le : A -> A -> bool).
Hypothesis le_total : forall a b, le a b = false -> le b a = true.
Hypothesis le_trans : forall a b c, le a b = true -> le b c = true -> le a c = true.

Let R (a b : A) : Prop := le a b = true.

Lemma insertBy_sorted (x : A) (l : list A) :
  StronglySorted R l -> StronglySorted R (insertBy le x l).
Proof.
  induction 1 as [|y l Hl IH Hy]; simpl.
  - repeat constructor.
  - destruct (le x y) eqn:E.
    + constructor; [constructor; assumption|].
      constructor; [exact E|].
      eapply Forall_impl; [|exact Hy]. intros z Hz. exact (le_trans _ _ _ E Hz).
    + constructor; [exact IH|].
      eapply Permutation_Forall; [apply Permutation_sym, insertBy_perm|].
      constructor; [apply le_total; exact E | exact Hy].
Qed.

Lemma sortWith_sorted (l : list A) : StronglySorted R (sortWith le l).
Proof.
  induction l as [|x l IH]; simpl.
  - constructor.
  - apply insertBy_sorted, IH.
Qed.
End SortFacts.

Lemma StronglySorted_weaken {A : Type} (R R' : A -> A -> Prop) (l : list A) :
  (forall a b, R a b -> R' a b) -> StronglySorted R l -> StronglySorted R' l.
Proof.
  intros H. induction 1 as [|x l _ IH Hx]; constructor; [exact IH|].
  eapply Forall_impl; [|exact Hx]. intros b. apply H.
Qed.

Lemma StronglySorted_map {A B : Type} (f : A -> B) (R : B -> B -> Prop) (l : list A) :
  StronglySorted (fun a b => R (f a) (f b)) l -> StronglySorted R (map f l).
Proof.
  induction 1 as [|x l _ IH Hx]; simpl; constructor; [exact IH|].
  apply Forall_map. exact Hx.
Qed.

Section IndexFacts.
Context {A B : Type}.

Lemma mapiFrom_length (f : A -> nat -> B) (l : list A) (i : nat) :
  List.length (mapiFrom i f l) = List.length l.
Proof.
  revert i. induction l as [|x l IH]; intros i; simpl; [reflexivity|].
  rewrite IH. reflexivity.
Qed.

Lemma map_mapiFrom {C : Type} (g : B -> C) (f : A -> nat -> B) (l : list A) (i : nat) :
  map g (mapiFrom i f l) = mapiFrom i (fun x j => g (f x j)) l.
Proof.
  revert i. induction l as [|x l IH]; intros i; simpl; [reflexivity|].
  rewrite IH. reflexivity.
Qed.

Lemma mapiFrom_mapiFrom {C : Type} (g : B -> nat -> C) (f : A -> nat -> B)
    (l : list A) (i : nat) :
  mapiFrom i g (mapiFrom i f l) = mapiFrom i (fun x j => g (f x j) j) l.
Proof.
  revert i. induction l as [|x l IH]; intros i; simpl; [reflexivity|].
  rewrite IH. reflexivity.
Qed.

Lemma mapiFrom_map (h : A -> B) (l : list A) (i : nat) :
  mapiFrom i (fun x _ => h x) l = map h l.
Proof.
  revert i. induction l as [|x l IH]; intros i; simpl; [reflexivity|].
  rewrite IH. reflexivity.
Qed.

Lemma mapiFrom_seq (h : nat -> B) (l : list A) (i : nat) :
  mapiFrom i (fun _ j => h j) l = map h (seq i (List.length l)).
Proof.
  revert i. induction l as [|x l IH]; intros i; simpl; [reflexivity|].
  rewrite IH. reflexivity.
Qed.
End IndexFacts.

Section UniqFacts.
Context {K : Type} (K_dec : forall x y : K, {x = y} + {x <> y}).

Lemma add_In (s : list K) (k x : K) : In x (add K_dec s k) <-> In x s \/ x = k.
Proof.
  unfold add. destruct (includes K_dec s k) eqn:E.
  - apply includes_In in E. split; [tauto|]. intros [H|H]; subst; assumption.
  - rewrite in_app_iff. simpl. intuition congruence.
Qed.

Lemma add_NoDup (s : list K) (k : K) : NoDup s -> NoDup (add K_dec s k).
Proof.
  intros H. unfold add. destruct (includes K_dec s k) eqn:E; [exact H|].
  apply includes_false in E.
  apply NoDup_rev in H. rewrite <- (rev_involutive (s ++ [k])).
  apply NoDup_rev. rewrite rev_app_distr. simpl. constructor; [|exact H].
  rewrite <- in_rev. exact E.
Qed.

Lemma uniqFrom_In (l seen : list K) (x : K) :
  In x (uniqFrom K_dec seen l) <-> In x seen \/ In x l.
Proof.
  unfold uniqFrom. revert seen. induction l as [|k l IH]; intros seen; simpl.
  - tauto.
  - rewrite IH, add_In. intuition congruence.
Qed.

Lemma uniqFrom_NoDup (l seen : list K) :
  NoDup seen -> NoDup (uniqFrom K_dec seen l).
Proof.
  unfold uniqFrom. revert seen. induction l as [|k l IH]; intros seen H; simpl.
  - exact H.
  - apply IH, add_NoDup, H.
Qed.

(** [uniq] lists every element of [l] once. *)
Lemma uniq_In (l : list K) (x : K) : In x (uniq K_dec l) <-> In x l.
Proof. unfold uniq. rewrite uniqFrom_In. simpl. tauto. Qed.

Lemma uniq_NoDup (l : list K) : NoDup (uniq K_dec l).
Proof. apply uniqFrom_NoDup. constructor. Qed.
End UniqFacts.

(** ** Velocity: ranks and classes *)

Lemma velocityMapOf_keys (salesData : list DailySales) :
  keys (velocityMapOf salesData) = productNames salesData.
Proof.
  unfold velocityMapOf, productNames, uniq, uniqFrom.
  rewrite forEachRecord_allRecords.
  match goal with
  | |- keys (fold_left ?step _ _) = _ =>
      assert (G : forall rs m,
        keys (fold_left step rs m)
        = fold_left (add string_dec)
                    (map (fun dr : DailySales * SalesRecord => ITNAME (snd dr)) rs)
                    (keys m))
  end.
  { induction rs as [|[d r] rs IH]; intros m; simpl.
    - reflexivity.
    - rewrite IH, keys_set. reflexivity. }
  apply G.
Qed.

Lemma velocityMetricOf_name (entry : string * VelocityAcc.t) :
  ProductVelocityMetrics.productName (velocityMetricOf entry) = fst entry.
Proof. destruct entry; reflexivity. Qed.

Lemma rankedMetrics_length (salesData : list DailySales) :
  List.length (rankedMetrics salesData) = List.length (productNames salesData).
Proof.
  unfold rankedMetrics.
  rewrite (Permutation_length (sort_perm _ _)), length_map.
  rewrite <- velocityMapOf_keys. unfold keys. rewrite length_map. reflexivity.
Qed.

Lemma calculateProductVelocity_unfold (salesData : list DailySales) :
  calculateProductVelocity salesData
  = mapi (fun metric index =>
            ProductVelocityMetrics.withClassification
              (ProductVelocityMetrics.withRank metric (index + 1))
              (classify (List.length (productNames salesData)) index))
         (rankedMetrics salesData).
Proof.
  unfold calculateProductVelocity. fold byVelocity. fold (rankedMetrics salesData).
  unfold mapi. rewrite mapiFrom_length, rankedMetrics_length.
  apply mapiFrom_mapiFrom.
Qed.

Lemma calculateProductVelocity_length (salesData : list DailySales) :
  List.length (calculateProductVelocity salesData)
  = List.length (productNames salesData).
Proof.
  rewrite calculateProductVelocity_unfold. unfold mapi.
  rewrite mapiFrom_length. apply rankedMetrics_length.
Qed.

Lemma velocity_ranks (salesData : list DailySales) :
  map ProductVelocityMetrics.rank (calculateProductVelocity salesData)
  = seq 1 (List.length (productNames salesData)).
Proof.
  rewrite calculateProductVelocity_unfold. unfold mapi.
  rewrite map_mapiFrom. simpl.
  rewrite (mapiFrom_seq (fun j => (j + 1)%nat)), rankedMetrics_length.
  rewrite <- seq_shift. apply map_ext. intros j. lia.
Qed.

Lemma velocity_classes (salesData : list DailySales) :
  map ProductVelocityMetrics.classification (calculateProductVelocity salesData)
  = map (classify (List.length (productNames salesData)))
        (seq 0 (List.length (productNames salesData))).
Proof.
  rewrite calculateProductVelocity_unfold. unfold mapi.
  rewrite map_mapiFrom. simpl.
  rewrite (mapiFrom_seq (classify _)), rankedMetrics_length. reflexivity.
Qed.

Lemma velocity_names (salesData : list DailySales) :
  Permutation (map ProductVelocityMetrics.productName (calculateProductVelocity salesData))
              (productNames salesData).
Proof.
  rewrite calculateProductVelocity_unfold. unfold mapi.
  rewrite map_mapiFrom. simpl. rewrite mapiFrom_map.
  unfold rankedMetrics.
  eapply Permutation_trans; [apply Permutation_map, sort_perm|].
  rewrite map_map, <- velocityMapOf_keys. unfold keys.
  erewrite map_ext; [apply Permutation_refl|].
  intros e. apply velocityMetricOf_name.
Qed.

Lemma velocity_sorted (salesData : list DailySales) :
  StronglySorted (fun x y => y <= x)
    (map ProductVelocityMetrics.dailyVelocity (calculateProductVelocity salesData)).
Proof.
  rewrite calculateProductVelocity_unfold. unfold mapi.
  rewrite map_mapiFrom. simpl. rewrite mapiFrom_map.
  apply StronglySorted_map. unfold rankedMetrics, sort.
  eapply StronglySorted_weaken; [|apply sortWith_sorted].
  - intros a b H. apply Qle_bool_iff in H. unfold byVelocity in H. lra.
  - intros a b H. apply Qle_bool_iff. unfold byVelocity in *.
    destruct (Qlt_le_dec 0 (ProductVelocityMetrics.dailyVelocity b
                            - ProductVelocityMetrics.dailyVelocity a)) as [L|L].
    + lra.
    + apply Qle_bool_iff in L. congruence.
  - intros a b c Hab Hbc. apply Qle_bool_iff in Hab, Hbc. apply Qle_bool_iff.
    unfold byVelocity in *. lra.
Qed.

Lemma distribution_total (velocityMetrics : list ProductVelocityMetrics.t) :
  (fastCount (getVelocityDistribution velocityMetrics)
   + mediumCount (getVelocityDistribution velocityMetrics)
   + slowCount (getVelocityDistribution velocityMetrics))%nat
  = List.length velocityMetrics.
Proof.
  unfold getVelocityDistribution; simpl.
  induction velocityMetrics as [|v l IH]; [reflexivity|].
  destruct v as [n c q a d dv wv [] r]; simpl in *; lia.
Qed.

(** C6. For every batch list, with [N] the number of distinct product
    names: the ranks of [calculateProductVelocity], read in output order,
    are exactly 1, 2, ..., N; the daily velocities in that order never
    increase; the output names each product once (so each product has one
    rank and one of the three classes); and the fast, medium and slow counts
    of [getVelocityDistribution] add up to N. *)
Theorem velocity_ranks_and_distribution (salesData : list DailySales) :
  let out := calculateProductVelocity salesData in
  let N := List.length (productNames salesData) in
  let dist := getVelocityDistribution out in
  NoDup (productNames salesData)
  /\ (forall name, In name (productNames salesData)
                   <-> exists daily record, In daily salesData
                                            /\ In record (records daily)
                                            /\ ITNAME record = name)
  /\ Permutation (map ProductVelocityMetrics.productName out) (productNames salesData)
  /\ map ProductVelocityMetrics.rank out = seq 1 N
  /\ StronglySorted (fun x y => y <= x)
       (map ProductVelocityMetrics.dailyVelocity out)
  /\ (fastCount dist + mediumCount dist + slowCount dist)%nat = N.
Proof.
  cbv zeta. repeat split.
  - apply uniq_NoDup.
  - unfold productNames, allRecords. rewrite uniq_In, in_map_iff.
    intros [[d r] [Hn Hin]]. apply in_flat_map in Hin.
    destruct Hin as [d' [Hd Hr]]. apply in_map_iff in Hr.
    destruct Hr as [r' [E Hr]]. inversion E; subst. exists d, r. auto.
  - intros [d [r [Hd [Hr Hn]]]]. unfold productNames, allRecords.
    rewrite uniq_In, in_map_iff. exists (d, r). split; [exact Hn|].
    apply in_flat_map. exists d. split; [exact Hd|]. apply in_map. exact Hr.
  - apply velocity_names.
  - apply velocity_ranks.
  - apply velocity_sorted.
  - rewrite distribution_total. apply calculateProductVelocity_length.
Qed.

(** C3, as stated, fails on the two-product scenario: product B has rank 2
    and a velocity different from A's, and is classified medium. *)
Lemma two_products_second_not_slow :
  map (fun m => (ProductVelocityMetrics.productName m,
                 ProductVelocityMetrics.rank m,
                 ProductVelocityMetrics.classification m))
      (calculateProductVelocity twoProductsTwoDays)
  = [("A"%string, 1%nat, fast); ("B"%string, 2%nat, medium)]
  /\ List.length (productNames twoProductsTwoDays) = 2%nat
  /\ ~ (forall salesData m1 m2,
          List.length (productNames salesData) = 2%nat ->
          calculateProductVelocity salesData = [m1; m2] ->
          ~ ProductVelocityMetrics.dailyVelocity m1
            == ProductVelocityMetrics.dailyVelocity m2 ->
          ProductVelocityMetrics.classification m1 = fast
          /\ ProductVelocityMetrics.classification m2 = slow).
Proof.
  split; [reflexivity|]. split; [reflexivity|].
  intros H.
  destruct (H twoProductsTwoDays _ _ eq_refl eq_refl) as [_ C].
  - vm_compute. discriminate.
  - vm_compute in C. discriminate.
Qed.

(** C3, amended. For every input with exactly two distinct products, the
    product of rank 1 is fast and the product of rank 2 is medium; nothing
    is slow. *)
Theorem two_products_fast_medium (salesData : list DailySales) :
  List.length (productNames salesData) = 2%nat ->
  map (fun m => (ProductVelocityMetrics.rank m,
                 ProductVelocityMetrics.classification m))
      (calculateProductVelocity salesData)
  = [(1%nat, fast); (2%nat, medium)].
Proof.
  intros H.
  pose proof (velocity_ranks salesData) as Hr.
  pose proof (velocity_classes salesData) as Hc.
  rewrite H in Hr, Hc. simpl in Hr.
  change (map (classify 2) (seq 0 2)) with [fast; medium] in Hc.
  destruct (calculateProductVelocity salesData) as [|m1 [|m2 [|m3 l]]];
    simpl in Hr, Hc; try discriminate.
  simpl. congruence.
Qed.

Lemma two_products_fast_medium_witness :
  List.length (productNames twoProductsTwoDays) = 2%nat
  /\ map (fun m => (ProductVelocityMetrics.rank m,
                    ProductVelocityMetrics.classification m))
         (calculateProductVelocity twoProductsTwoDays)
     = [(1%nat, fast); (2%nat, medium)].
Proof.
  split; [reflexivity | apply two_products_fast_medium; reflexivity].
Defined.

(** ** Period comparison *)

(** A product that both periods contain, with a previous velocity of zero,
    takes the branch written for new products: the test [!previous] is
    true of the number 0. *)
Lemma compareProduct_zero_previous
    (currentMap : Map string ProductVelocityMetrics.t) (previousMap : Map string Q)
    (previousVelocity : list ProductVelocityMetrics.t) (productName : string)
    (cur : ProductVelocityMetrics.t) (prev : Q) :
  get string_dec currentMap productName = Some cur ->
  get string_dec previousMap productName = Some prev ->
  prev == 0 ->
  exists change,
    compareProduct currentMap previousMap previousVelocity productName = [change]
    /\ VelocityChange.changePercent change = 100
    /\ VelocityChange.trend change = accelerating
    /\ VelocityChange.classification change = gainer.
Proof.
  intros Hc Hp Hz. unfold compareProduct. rewrite Hc, Hp. simpl.
  apply Qeq_bool_iff in Hz. rewrite Hz. simpl.
  eexists. split; [reflexivity|]. simpl. auto.
Qed.

(** C4, on the code. Product X is sold in both periods, with a daily
    velocity of exactly 0 in the previous one and of 10 in the current one;
    [compareVelocityPeriods] reports a change of 100 percent, trend
    accelerating, classification gainer. *)
Theorem zero_previous_velocity_reported_as_new :
  map (fun v => (ProductVelocityMetrics.productName v,
                 Qred (ProductVelocityMetrics.dailyVelocity v)))
      (calculateProductVelocity zeroWeek) = [("X"%string, 0)]
  /\ map (fun v => (ProductVelocityMetrics.productName v,
                    Qred (ProductVelocityMetrics.dailyVelocity v)))
         (calculateProductVelocity tenWeek) = [("X"%string, 10)]
  /\ map (fun c => (VelocityChange.productName c,
                    VelocityChange.changePercent c,
                    VelocityChange.trend c,
                    VelocityChange.classification c))
         (compareVelocityPeriods tenWeek zeroWeek)
     = [("X"%string, 100, accelerating, gainer)].
Proof. repeat split. Qed.

(** ** Period split *)

Lemma sortedDates_In (salesData : list DailySales) (d : isoDate) :
  In d (sortedDates salesData) <-> In d (map date salesData).
Proof.
  unfold sortedDates. rewrite <- (uniq_In Z.eq_dec (map date salesData)).
  split; intros H.
  - eapply Permutation_in; [apply sortWith_perm | exact H].
  - eapply Permutation_in; [apply Permutation_sym, sortWith_perm | exact H].
Qed.

Lemma sortedDates_sorted (salesData : list DailySales) :
  StronglySorted Z.le (sortedDates salesData).
Proof.
  unfold sortedDates.
  eapply StronglySorted_weaken; [|apply sortWith_sorted].
  - intros a b H. apply Z.leb_le. exact H.
  - intros a b H. apply Z.leb_le. apply Z.leb_gt in H. lia.
  - intros a b c H1 H2. apply Z.leb_le in H1, H2. apply Z.leb_le. lia.
Qed.

Lemma sorted_last_max (l : list Z) (d x : Z) :
  StronglySorted Z.le l -> In x l -> (x <= last l d)%Z.
Proof.
  intros Hs. revert x.
  induction Hs as [|y l Hl IH Hy]; intros x Hin; [destruct Hin|].
  destruct l as [|z l'].
  - destruct Hin as [<-|[]]. simpl. lia.
  - change (last (y :: z :: l') d) with (last (z :: l') d).
    destruct Hin as [<-|Hin].
    + apply Z.le_trans with z.
      * inversion Hy; assumption.
      * apply IH. left; reflexivity.
    + apply IH, Hin.
Qed.

Lemma last_In {A : Type} (l : list A) (d : A) : l <> [] -> In (last l d) l.
Proof.
  induction l as [|x [|y l] IH]; intros H; [congruence | left; reflexivity |].
  right. apply IH. discriminate.
Qed.





(** ** Moving average of a constant series *)

Lemma Qsum_const (v : Q) (l : list Q) :
  Forall (fun x => x == v) l -> Qsum l == ofNat (List.length l) * v.
Proof.
  unfold ofNat. induction 1 as [|x l Hx _ IH].
  - simpl. ring.
  - cbn [Qsum fold_right List.length]. fold (Qsum l).
    rewrite IH, Hx, Nat2Z.inj_succ. unfold Z.succ. rewrite inject_Z_plus. ring.
Qed.



Lemma Qsum_pos (ws : list Q) :
  ws <> [] -> Forall (fun w => 0 < w) ws -> 0 < Qsum ws.
Proof.
  intros Hne H. induction H as [|w ws Hw Hws IH]; [congruence|].
  simpl. destruct ws as [|w' ws'].
  - simpl. lra.
  - assert (0 < Qsum (w' :: ws')) by (apply IH; discriminate). lra.
Qed.

Lemma ofNat_pos (n : nat) : (0 < n)%nat -> 0 < ofNat n.
Proof.
  intros H. unfold ofNat. change 0 with (inject_Z 0). rewrite <- Zlt_Qlt. lia.
Qed.

Lemma weights_pos {A : Type} (window : list A) :
  Forall (fun w => 0 < w) (mapi (fun _ i => ofNat (i + 1)) window).
Proof.
  unfold mapi. rewrite (mapiFrom_seq (fun i => ofNat (i + 1))).
  apply Forall_map, Forall_forall. intros i _. apply ofNat_pos. lia.
Qed.

Lemma sliceLast_Forall {A : Type} (P : A -> Prop) (n : nat) (l : list A) :
  Forall P l -> Forall P (sliceLast n l).
Proof.
  intros H. destruct n; simpl; [exact H|].
  apply Forall_forall. intros x Hx. rewrite Forall_forall in H. apply H.
  rewrite <- (firstn_skipn (List.length l - S n) l). apply in_or_app. right. exact Hx.
Qed.

Lemma sliceLast_length {A : Type} (n : nat) (l : list A) :
  (0 < n <= List.length l)%nat -> List.length (sliceLast n l) = n.
Proof.
  intros H. destruct n; [lia|]. unfold sliceLast. rewrite length_skipn. lia.
Qed.

Section ConstantSeries.
Variable sqrt : Q -> Q.
Hypothesis sqrt_zero : forall q, q == 0 -> sqrt q == 0.

End ConstantSeries.

Lemma sqrtMicro_zero (q : Q) : q == 0 -> sqrtMicro q == 0.
Proof. intros H. unfold sqrtMicro. rewrite H. reflexivity. Qed.

(** C7, as stated, fails in four ways.  A series of thirty zeros has
    confidence 50, whatever the square root: the coefficient of variation is
    taken as 1 when the mean is not positive.  A window of 60 over thirty
    fives has confidence 75: the window is not full.  A window of 0 returns
    value 0 and confidence 0.  And in the arithmetic of the host thirty
    amounts of 0.1 at window 14 have the value 0.10000000000000002: the
    weighted sum and its quotient by the sum of the weights are rounded. *)
Lemma constant_series_not_always_certain :
  (forall sqrt, confidence (calculateMovingAverage sqrt (repeat 0 30) 30 7) == 50)
  /\ confidence (calculateMovingAverage sqrtMicro (repeat 5 30) 30 60) == 75
  /\ calculateMovingAverage sqrtMicro (repeat 5 30) 30 0
     = {| value := 0; confidence := 0 |}
  /\ ~ (forall (sqrt : Q -> Q) (v : Q) (values : list Q) (i windowSize : nat),
          (forall q, q == 0 -> sqrt q == 0) ->
          Forall (fun x => x == v) values ->
          (30 <= List.length values)%nat ->
          value (calculateMovingAverage sqrt values i windowSize) == v
          /\ confidence (calculateMovingAverage sqrt values i windowSize) == 100)
  /\ (forall sqrt,
        value (F64.calculateMovingAverage sqrt (repeat (F64.ofDecimal (1 # 10)) 30) 30 14)
        == 7205759403792795 # 72057594037927936)
  /\ F64.ofDecimal (1 # 10) == 3602879701896397 # 36028797018963968
  /\ ~ (forall sqrt,
          value (F64.calculateMovingAverage sqrt (repeat (F64.ofDecimal (1 # 10)) 30)
                                            30 14)
          == F64.ofDecimal (1 # 10)).
Proof.
  split; [intros sqrt; vm_compute; reflexivity|].
  split; [vm_compute; reflexivity|].
  split; [reflexivity|].
  split; [|split; [intros sqrt; vm_compute; reflexivity|];
           split; [vm_compute; reflexivity|];
           intros H; specialize (H sqrtMicro); vm_compute in H; discriminate].
  intros H.
  destruct (H sqrtMicro 0 (repeat 0 30%nat) 30%nat 7%nat sqrtMicro_zero) as [_ C].
  - repeat constructor.
  - simpl. lia.
  - vm_compute in C. discriminate.
Qed.

(** ** Backtesting *)

(** Past the length test the test set is not empty, so the error means
    divide by a positive length. *)
Lemma backtest_test_set_nonempty {A : Type} (testDays : nat) (dailyData : list A) :
  (testDays + 7 <= List.length dailyData)%nat ->
  (0 < List.length (sliceLast testDays dailyData))%nat.
Proof.
  intros H. destruct testDays as [|n]; simpl; [lia|].
  rewrite length_skipn. lia.
Qed.

(** C8. On a series with fewer than [testDays + 7] points,
    [backtestForecast] returns the all-zero metrics with a test period of 0
    days; on a series with at least [testDays + 7] points it returns a test
    period of [testDays].  The function is total: no step of it can throw. *)
Theorem backtest_test_period (sqrt : Q -> Q) (timeSeries : ProductTimeSeries.t)
    (testDays : nat) :
  ((List.length (ProductTimeSeries.dailyData timeSeries) < testDays + 7)%nat ->
   backtestForecast sqrt timeSeries testDays
   = {| ForecastValidation.productName := ProductTimeSeries.productName timeSeries;
        ForecastValidation.metrics := {| mae := 0; mape := 0; rmse := 0 |};
        ForecastValidation.testPeriodDays := 0 |})
  /\ ((testDays + 7 <= List.length (ProductTimeSeries.dailyData timeSeries))%nat ->
      ForecastValidation.testPeriodDays (backtestForecast sqrt timeSeries testDays)
      = testDays).
Proof.
  unfold backtestForecast. split; intros H.
  - apply Nat.ltb_lt in H. rewrite H. reflexivity.
  - apply Nat.ltb_ge in H. rewrite H. reflexivity.
Qed.

Lemma backtest_test_period_witness :
  ((List.length (ProductTimeSeries.dailyData (constantSeries 100 10)) < 7 + 7)%nat
   /\ backtestForecast sqrtMicro (constantSeries 100 10) 7
      = {| ForecastValidation.productName := "A";
           ForecastValidation.metrics := {| mae := 0; mape := 0; rmse := 0 |};
           ForecastValidation.testPeriodDays := 0 |})
  /\ ((7 + 7 <= List.length (ProductTimeSeries.dailyData (constantSeries 100 20)))%nat
      /\ ForecastValidation.testPeriodDays
           (backtestForecast sqrtMicro (constantSeries 100 20) 7) = 7%nat).
Proof.
  assert (H1 : (List.length (ProductTimeSeries.dailyData (constantSeries 100 10))
                < 7 + 7)%nat) by (vm_compute; lia).
  assert (H2 : (7 + 7 <= List.length
                  (ProductTimeSeries.dailyData (constantSeries 100 20)))%nat)
    by (vm_compute; lia).
  split; split; try assumption.
  - exact (proj1 (backtest_test_period sqrtMicro (constantSeries 100 10) 7) H1).
  - exact (proj2 (backtest_test_period sqrtMicro (constantSeries 100 20) 7) H2).
Defined.

(** ** Forecast summary *)

Lemma add_idem {K : Type} (K_dec : forall x y : K, {x = y} + {x <> y})
    (s : list K) (k : K) :
  add K_dec (add K_dec s k) k = add K_dec s k.
Proof.
  unfold add at 1. replace (includes K_dec (add K_dec s k) k) with true; [reflexivity|].
  symmetry. apply includes_In, add_In. right; reflexivity.
Qed.

Lemma seriesMapOf_keys (salesData : list DailySales) :
  keys (seriesMapOf salesData) = productNames salesData.
Proof.
  unfold seriesMapOf, productNames, uniq, uniqFrom.
  rewrite forEachRecord_allRecords.
  match goal with
  | |- keys (fold_left ?step _ _) = _ =>
      assert (G : forall rs m,
        keys (fold_left step rs m)
        = fold_left (add string_dec)
                    (map (fun dr : DailySales * SalesRecord => ITNAME (snd dr)) rs)
                    (keys m))
  end.
  { induction rs as [|[d r] rs IH]; intros m; simpl fold_left; [reflexivity|].
    rewrite IH. f_equal. simpl snd. simpl fst. unfold has.
    destruct (get string_dec m (ITNAME r)) as [p|] eqn:E.
    - rewrite E. apply keys_set.
    - rewrite get_set_same, !keys_set. apply add_idem. }
  apply G.
Qed.

Lemma uniq_nonempty {K : Type} (K_dec : forall x y : K, {x = y} + {x <> y})
    (l : list K) :
  l <> [] -> uniq K_dec l <> [].
Proof.
  destruct l as [|x l]; [congruence|]. intros _ E.
  assert (H : In x (uniq K_dec (x :: l))) by (apply uniq_In; left; reflexivity).
  rewrite E in H. destruct H.
Qed.

Lemma sortedDates_nonempty (salesData : list DailySales) :
  salesData <> [] -> sortedDates salesData <> [].
Proof.
  destruct salesData as [|b bs]; [congruence|]. intros _ E.
  assert (H : In (date b) (sortedDates (b :: bs)))
    by (apply sortedDates_In; left; reflexivity).
  rewrite E in H. destruct H.
Qed.

Lemma allRecords_nonempty (salesData : list DailySales) :
  allRecords salesData <> [] -> salesData <> [].
Proof. destruct salesData; [intros H; exfalso; apply H; reflexivity | discriminate]. Qed.

Lemma prepare_dailyData (salesData : list DailySales) (topN : nat)
    (ts : ProductTimeSeries.t) :
  In ts (prepareProductTimeSeries salesData topN) ->
  map dayDate (ProductTimeSeries.dailyData ts) = sortedDates salesData.
Proof.
  unfold prepareProductTimeSeries. intros H. apply in_flat_map in H.
  destruct H as [[name data] [_ H]].
  destruct (negb _) in H; [destruct H|].
  destruct H as [<-|[]]. simpl. rewrite map_map. simpl. apply map_id.
Qed.

Lemma prepare_nonempty (salesData : list DailySales) (topN : nat) :
  allRecords salesData <> [] -> (0 < topN)%nat ->
  prepareProductTimeSeries salesData topN <> [].
Proof.
  intros Hrec Htop. unfold prepareProductTimeSeries.
  set (productMap := seriesMapOf salesData).
  set (productTotals := sort _ (map _ productMap)).
  assert (Hkeys : map fst productTotals = map fst productTotals) by reflexivity.
  assert (Hperm : Permutation (map fst productTotals) (keys productMap)).
  { unfold productTotals. eapply Permutation_trans.
    - apply Permutation_map, sort_perm.
    - rewrite map_map. unfold keys. erewrite map_ext; [apply Permutation_refl|].
      intros [n d]. reflexivity. }
  assert (Hne : productTotals <> []).
  { intros E. rewrite E in Hperm. apply Permutation_nil in Hperm.
    unfold productMap in Hperm. rewrite seriesMapOf_keys in Hperm.
    unfold productNames in Hperm. revert Hperm. apply uniq_nonempty.
    destruct (allRecords salesData); [congruence | discriminate]. }
  destruct productTotals as [|[h t] rest] eqn:Et; [congruence|].
  destruct topN as [|k]; [lia|].
  assert (Hin : In h (keys productMap)).
  { eapply Permutation_in; [exact Hperm | left; reflexivity]. }
  unfold keys in Hin. apply in_map_iff in Hin. destruct Hin as [[h' data] [Eh Hin]].
  simpl in Eh. subst h'.
  intros E.
  assert (Hts : In {| ProductTimeSeries.productName := h;
                      ProductTimeSeries.company := SeriesAcc.company data;
                      ProductTimeSeries.dailyData :=
                        map (fun date =>
                               {| dayDate := date;
                                  quantity := fst (orElse (get Z.eq_dec
                                                (SeriesAcc.dailyData data) date) (0, 0));
                                  revenue := snd (orElse (get Z.eq_dec
                                                (SeriesAcc.dailyData data) date) (0, 0)) |})
                            (sortedDates salesData) |}
                 (@nil ProductTimeSeries.t)).
  { rewrite <- E. apply in_flat_map. exists (h, data). split; [exact Hin|].
    replace (includes string_dec _ h) with true; [left; reflexivity|].
    symmetry. apply includes_In, uniq_In. simpl. left; reflexivity. }
  destruct Hts.
Qed.

Section SummaryFacts.
Variable sqrt : Q -> Q.
Variable zone : JsDate.Zone.

Lemma forecastProduct_ok (ts : ProductTimeSeries.t) :
  ProductTimeSeries.dailyData ts <> [] ->
  exists pf, forecastProduct sqrt zone ts = Ok pf.
Proof.
  intros H. unfold forecastProduct.
  destruct (rev (ProductTimeSeries.dailyData ts)) as [|lastDay l] eqn:E.
  - exfalso. apply H. rewrite <- (rev_involutive (ProductTimeSeries.dailyData ts)), E.
    reflexivity.
  - eexists. reflexivity.
Qed.

Lemma mapM_ok {A B : Type} (f : A -> result B) (l : list A) :
  (forall x, In x l -> exists y, f x = Ok y) ->
  exists ys, mapM f l = Ok ys /\ List.length ys = List.length l.
Proof.
  induction l as [|x l IH]; intros H; simpl.
  - exists []. split; reflexivity.
  - destruct (H x (or_introl eq_refl)) as [y Ey]. rewrite Ey.
    destruct IH as [ys [Eys Hlen]]; [intros z Hz; apply H; right; exact Hz|].
    rewrite Eys. exists (y :: ys). split; [reflexivity | simpl; congruence].
Qed.

Lemma forecasts_ok (salesData : list DailySales) (topN : nat) :
  allRecords salesData <> [] -> (0 < topN)%nat ->
  exists pf pfs,
    mapM (forecastProduct sqrt zone) (prepareProductTimeSeries salesData topN)
    = Ok (pf :: pfs).
Proof.
  intros Hrec Htop.
  destruct (mapM_ok (forecastProduct sqrt zone)
              (prepareProductTimeSeries salesData topN))
    as [ys [E Hlen]].
  - intros ts Hts. apply forecastProduct_ok. intros Hnil.
    apply prepare_dailyData in Hts. rewrite Hnil in Hts. simpl in Hts.
    symmetry in Hts. revert Hts. apply sortedDates_nonempty, allRecords_nonempty, Hrec.
  - destruct ys as [|pf pfs].
    + exfalso. apply (prepare_nonempty salesData topN Hrec Htop).
      destruct (prepareProductTimeSeries salesData topN); [reflexivity | discriminate].
    + exists pf, pfs. exact E.
Qed.

(** Without a single record there is no product forecast, and reading the
    target dates of the first one throws. *)
Lemma summary_throws_without_records (now : string) (salesData : list DailySales)
    (topN : nat) :
  allRecords salesData = [] ->
  generateForecastSummary sqrt zone now salesData topN = Throw TypeError.
Proof.
  intros H. unfold generateForecastSummary.
  assert (E : prepareProductTimeSeries salesData topN = []).
  { unfold prepareProductTimeSeries.
    assert (Em : seriesMapOf salesData = []).
    { pose proof (seriesMapOf_keys salesData) as K. unfold productNames in K.
      rewrite H in K. destruct (seriesMapOf salesData); [reflexivity | discriminate]. }
    rewrite Em. reflexivity. }
  rewrite E. reflexivity.
Qed.
End SummaryFacts.

(** C1, on the code. For the empty batch list [generateForecastSummary]
    does not return a summary: [productForecasts[0]] is [undefined] and
    reading its [oneDayForecast] throws a [TypeError], for every [topN]. *)
Theorem forecast_summary_of_no_batches (sqrt : Q -> Q) (zone : JsDate.Zone)
    (now : string)
    (topN : nat) :
  generateForecastSummary sqrt zone now [] topN = Throw TypeError.
Proof. apply summary_throws_without_records. reflexivity. Qed.

(** ** Missing dates and data quality *)

Lemma daysFromTo_In (a b d : isoDate) : In d (daysFromTo a b) <-> (a <= d <= b)%Z.
Proof.
  unfold daysFromTo. rewrite in_map_iff. split.
  - intros [i [E Hi]]. apply in_seq in Hi. lia.
  - intros H. exists (Z.to_nat (d - a)). split; [lia|]. apply in_seq. lia.
Qed.

Lemma daysFromTo_NoDup (a b : isoDate) : NoDup (daysFromTo a b).
Proof.
  unfold daysFromTo. apply Finite.Injective_map_NoDup; [|apply seq_NoDup].
  intros i j H. lia.
Qed.

Lemma sorted_hd_min (l : list Z) (d x : Z) :
  StronglySorted Z.le l -> In x l -> (hd d l <= x)%Z.
Proof.
  intros Hs Hin. destruct Hs as [|y l _ Hy]; [destruct Hin|].
  simpl. destruct Hin as [<-|Hin]; [lia|].
  rewrite Forall_forall in Hy. apply Hy, Hin.
Qed.

Lemma sortedDates_NoDup (salesData : list DailySales) : NoDup (sortedDates salesData).
Proof.
  unfold sortedDates.
  eapply Permutation_NoDup; [apply Permutation_sym, sortWith_perm | apply uniq_NoDup].
Qed.

Lemma sortedDates_length (salesData : list DailySales) :
  List.length (sortedDates salesData)
  = List.length (uniq Z.eq_dec (map date salesData)).
Proof. unfold sortedDates. apply Permutation_length, sortWith_perm. Qed.

Lemma daysFromTo_cons (a b : isoDate) :
  (a <= b)%Z -> daysFromTo a b = a :: daysFromTo (a + 1)%Z b.
Proof.
  intros H. unfold daysFromTo.
  replace (Z.to_nat (b - a + 1)) with (S (Z.to_nat (b - (a + 1) + 1))) by lia.
  cbn [seq map]. f_equal; [lia|].
  rewrite <- seq_shift, map_map. apply map_ext. intros i. lia.
Qed.

Lemma daysFromTo_nil (a b : isoDate) : (b < a)%Z -> daysFromTo a b = [].
Proof.
  intros H. unfold daysFromTo.
  replace (Z.to_nat (b - a + 1)) with 0%nat by lia. reflexivity.
Qed.

Lemma parse_le (a b : isoDate) :
  (JsDate.parse a <=? JsDate.parse b)%Z = (a <=? b)%Z.
Proof.
  unfold JsDate.parse, JsDate.msPerDay.
  destruct (Z.leb_spec a b); [apply Z.leb_le | apply Z.leb_gt]; lia.
Qed.

(** With enough fuel the loop visits the days from [s] to [e] in order and
    keeps those that are not observed. *)
Lemma missingLoop_days (tz : Z) (allDates : list isoDate) (e : isoDate)
    (fuel : nat) (s : isoDate) :
  (Z.to_nat (e - s + 1) < fuel)%nat ->
  missingLoop (JsDate.fixedOffset tz) allDates (JsDate.parse e) fuel (JsDate.parse s)
  = filter (fun d => negb (includes Z.eq_dec allDates d)) (daysFromTo s e).
Proof.
  revert s. induction fuel as [|fuel IH]; intros s H; [lia|].
  cbn [missingLoop]. rewrite parse_le.
  destruct (Z.leb_spec s e) as [L|G].
  - rewrite daysFromTo_cons by exact L. cbn [filter].
    replace (JsDate.toISODate (JsDate.parse s)) with s
      by (unfold JsDate.toISODate, JsDate.parse, JsDate.msPerDay;
          symmetry; apply Z.div_mul; lia).
    replace (JsDate.addDays (JsDate.fixedOffset tz) (JsDate.parse s) 1) with (JsDate.parse (s + 1)%Z)
      by (rewrite addDays_spec; unfold JsDate.parse; lia).
    rewrite IH by lia.
    destruct (negb (includes Z.eq_dec allDates s)); reflexivity.
  - rewrite daysFromTo_nil by lia. reflexivity.
Qed.

Lemma findMissingDates_days (tz : Z) (allDates : list isoDate) :
  findMissingDates (JsDate.fixedOffset tz) allDates
  = if (List.length allDates <? 2)%nat then []
    else filter (fun d => negb (includes Z.eq_dec allDates d))
                (daysFromTo (hd 0%Z allDates) (last allDates 0%Z)).
Proof.
  unfold findMissingDates. destruct (_ <? _)%nat; [reflexivity|].
  set (s := hd 0%Z allDates). set (e := last allDates 0%Z).
  replace ((JsDate.parse e - JsDate.parse s) / JsDate.msPerDay)%Z with (e - s)%Z.
  - destruct (Z_lt_le_dec (e - s + 1) 0) as [L|G].
    + rewrite daysFromTo_nil by lia.
      replace (Z.to_nat (e - s + 2)) with 0%nat by lia. reflexivity.
    + apply missingLoop_days. lia.
  - unfold JsDate.parse. rewrite <- Z.mul_sub_distr_r.
    symmetry. apply Z.div_mul. unfold JsDate.msPerDay. lia.
Qed.

Lemma findMissingDates_NoDup (tz : Z) (allDates : list isoDate) :
  NoDup (findMissingDates (JsDate.fixedOffset tz) allDates).
Proof.
  rewrite findMissingDates_days. destruct (_ <? _)%nat; [constructor|].
  apply NoDup_filter, daysFromTo_NoDup.
Qed.

Lemma findMissingDates_In (tz : Z) (allDates : list isoDate) (d : isoDate) :
  StronglySorted Z.le allDates ->
  In d (findMissingDates (JsDate.fixedOffset tz) allDates)
  <-> (exists lo hi, In lo allDates /\ In hi allDates /\ (lo <= d <= hi)%Z)
      /\ ~ In d allDates.
Proof.
  intros Hs. rewrite findMissingDates_days.
  destruct (List.length allDates <? 2)%nat eqn:E.
  - apply Nat.ltb_lt in E. split; [intros []|].
    intros [[lo [hi [Hlo [Hhi Hd]]]] Hn].
    destruct allDates as [|x [|y l]]; simpl in E; try lia; [destruct Hlo|].
    destruct Hlo as [<-|[]]. destruct Hhi as [<-|[]].
    apply Hn. left. lia.
  - apply Nat.ltb_ge in E.
    assert (Hne : allDates <> []) by (intros ->; simpl in E; lia).
    rewrite filter_In, daysFromTo_In, negb_true_iff, includes_false.
    split; intros [H1 H2]; (split; [|exact H2]).
    + exists (hd 0%Z allDates), (last allDates 0%Z). repeat split; try lia.
      * destruct allDates; [congruence | left; reflexivity].
      * apply last_In, Hne.
    + destruct H1 as [lo [hi [Hlo [Hhi Hd]]]].
      pose proof (sorted_hd_min allDates 0%Z lo Hs Hlo).
      pose proof (sorted_last_max allDates 0%Z hi Hs Hhi).
      unfold isoDate in *. lia.
Qed.

(** C2, as stated, fails on three weeks with one day missing (the host
    being in India, at UTC+5:30): 1 missing day
    in a calendar range of 21 days is under 5 percent, which the claim grades
    excellent; the code divides by the 20 observed days, finds exactly 5
    percent and grades good. *)
Lemma data_quality_not_by_calendar_range :
  exists s,
    generateForecastSummary sqrtMicro (JsDate.fixedOffset 19800000) "" gappedThreeWeeks 10 = Ok s
    /\ missingDates s = [20433%Z]
    /\ totalHistoricalDays s = 20%nat
    /\ List.length (calendarRange gappedThreeWeeks) = 21%nat
    /\ dataQuality s = good
    /\ gradeByRange gappedThreeWeeks = excellent
    /\ dataQuality s <> gradeByRange gappedThreeWeeks.
Proof.
  eexists. split; [vm_compute; reflexivity|].
  repeat split. vm_compute. discriminate.
Qed.

(** C2, amended. On a host whose zone keeps one offset from UTC, for
    every batch list with at least one record (and a positive [topN])
    [generateForecastSummary] returns a summary in which
    the missing dates are exactly the calendar days between the first and
    the last observed date that no batch has, each once; and with [p] the
    number of missing days divided by the number of distinct observed dates,
    times 100, the data quality is excellent when [p < 5], good when
    [5 <= p < 15], fair when [15 <= p < 30] and poor when [30 <= p]. *)
Theorem data_quality_by_observed_days (sqrt : Q -> Q) (tz : Z) (now : string)
    (salesData : list DailySales) (topN : nat) :
  allRecords salesData <> [] ->
  (0 < topN)%nat ->
  exists s,
    generateForecastSummary sqrt (JsDate.fixedOffset tz) now salesData topN = Ok s
    /\ NoDup (missingDates s)
    /\ (forall d, In d (missingDates s) <-> missingDay salesData d)
    /\ totalHistoricalDays s = List.length (uniq Z.eq_dec (map date salesData))
    /\ (0 < totalHistoricalDays s)%nat
    /\ let p := ofNat (List.length (missingDates s))
                / ofNat (totalHistoricalDays s) * 100 in
       (p < 5 -> dataQuality s = excellent)
       /\ (5 <= p -> p < 15 -> dataQuality s = good)
       /\ (15 <= p -> p < 30 -> dataQuality s = fair)
       /\ (30 <= p -> dataQuality s = poor).
Proof.
  intros Hrec Htop.
  destruct (forecasts_ok sqrt (JsDate.fixedOffset tz) salesData topN Hrec Htop) as [pf [pfs E]].
  pose proof (sortedDates_nonempty salesData (allRecords_nonempty _ Hrec)) as Hne.
  unfold generateForecastSummary. rewrite E.
  destruct (sortedDates salesData) as [|d0 ds] eqn:Ed; [congruence|]. rewrite <- Ed in *.
  eexists. split; [reflexivity|]. cbn [missingDates totalHistoricalDays dataQuality].
  split; [apply findMissingDates_NoDup|].
  split.
  { intros d. rewrite findMissingDates_In by apply sortedDates_sorted.
    unfold missingDay. split.
    - intros [[lo [hi [Hlo [Hhi Hd]]]] Hn]. split.
      + exists lo, hi. rewrite <- !sortedDates_In. auto.
      + rewrite <- sortedDates_In. exact Hn.
    - intros [[lo [hi [Hlo [Hhi Hd]]]] Hn]. split.
      + exists lo, hi. rewrite !sortedDates_In. auto.
      + rewrite sortedDates_In. exact Hn. }
  split; [apply sortedDates_length|].
  split; [rewrite Ed; simpl; lia|].
  cbv zeta. unfold gradeOf, option_map.
  set (p := ofNat (List.length (findMissingDates (JsDate.fixedOffset tz) (sortedDates salesData)))
            / ofNat (List.length (sortedDates salesData)) * 100).
  clearbody p.
  destruct (Qlt_le_dec p 5); [|destruct (Qlt_le_dec p 15); [|destruct (Qlt_le_dec p 30)]];
    repeat split; intros; try reflexivity; exfalso; lra.
Qed.

Lemma data_quality_by_observed_days_witness :
  allRecords gappedThreeWeeks <> []
  /\ (0 < 10)%nat
  /\ exists s,
       generateForecastSummary sqrtMicro (JsDate.fixedOffset 19800000) "" gappedThreeWeeks 10 = Ok s
       /\ NoDup (missingDates s)
       /\ (forall d, In d (missingDates s) <-> missingDay gappedThreeWeeks d)
       /\ totalHistoricalDays s
          = List.length (uniq Z.eq_dec (map date gappedThreeWeeks))
       /\ (0 < totalHistoricalDays s)%nat
       /\ let p := ofNat (List.length (missingDates s))
                   / ofNat (totalHistoricalDays s) * 100 in
          (p < 5 -> dataQuality s = excellent)
          /\ (5 <= p -> p < 15 -> dataQuality s = good)
          /\ (15 <= p -> p < 30 -> dataQuality s = fair)
          /\ (30 <= p -> dataQuality s = poor).
Proof.
  assert (H1 : allRecords gappedThreeWeeks <> []) by (vm_compute; discriminate).
  assert (H2 : (0 < 10)%nat) by lia.
  split; [exact H1|]. split; [exact H2|].
  exact (data_quality_by_observed_days sqrtMicro 19800000 "" gappedThreeWeeks 10
           H1 H2).
Defined.

(** * Further properties *)

(** ** Grouping by key *)

Section KeyedFold.
Context {R V : Type} (key : R -> string) (init : R -> V) (upd : V -> R -> V).

Lemma accFold_keys (rs : list R) (m : Map string V) :
  keys (fold_left (accStep key init upd) rs m)
  = fold_left (add string_dec) (map key rs) (keys m).
Proof.
  revert m. induction rs as [|r rs IH]; intros m; simpl; [reflexivity|].
  rewrite IH. unfold accStep. rewrite keys_set. reflexivity.
Qed.

(** The entry of a key after the fold: what the records of that key, in
    order, made of the entry that was there. *)
Lemma accFold_get (rs : list R) (m : Map string V) (k : string) :
  get string_dec (fold_left (accStep key init upd) rs m) k
  = match filter (fun r => String.eqb (key r) k) rs with
    | [] => get string_dec m k
    | r0 :: rest =>
        Some (fold_left upd (r0 :: rest) (orElse (get string_dec m k) (init r0)))
    end.
Proof.
  revert m. induction rs as [|r rs IH]; intros m; simpl; [reflexivity|].
  rewrite IH. unfold accStep.
  destruct (String.eqb_spec (key r) k) as [E|N].
  - subst k. rewrite get_set_same. simpl.
    destruct (filter (fun r0 => String.eqb (key r0) (key r)) rs); reflexivity.
  - rewrite get_set_other by congruence. reflexivity.
Qed.
End KeyedFold.

Lemma in_map_get {V : Type} (m : Map string V) (k : string) (v : V) :
  NoDup (keys m) -> In (k, v) m -> get string_dec m k = Some v.
Proof.
  unfold keys. induction m as [|[k' v'] m IH]; intros Hn Hin; [destruct Hin|].
  simpl in *. inversion Hn as [|? ? Hk Hn']; subst.
  destruct Hin as [E|Hin].
  - inversion E; subst. destruct (string_dec k k); congruence.
  - destruct (string_dec k k') as [->|_]; [|apply IH; assumption].
    exfalso. apply Hk. apply in_map_iff. exists (k', v). split; [reflexivity|exact Hin].
Qed.

Lemma get_in_map {V : Type} (m : Map string V) (k : string) (v : V) :
  get string_dec m k = Some v -> In (k, v) m.
Proof.
  induction m as [|[k' v'] m IH]; simpl; [discriminate|].
  destruct (string_dec k k') as [->|_].
  - intros E. inversion E. left; reflexivity.
  - intros E. right. apply IH, E.
Qed.

Lemma uniqFrom_nil_NoDup {K : Type} (K_dec : forall x y : K, {x = y} + {x <> y})
    (l : list K) :
  NoDup (fold_left (add K_dec) l []).
Proof. apply (uniqFrom_NoDup K_dec l []). constructor. Qed.


Lemma fold_left_map {A B C : Type} (f : C -> B -> C) (g : A -> B) (l : list A) (c : C) :
  fold_left f (map g l) c = fold_left (fun c a => f c (g a)) l c.
Proof. revert c. induction l as [|a l IH]; intros c; simpl; [reflexivity | apply IH]. Qed.

(** ** Descending sorts and their first elements *)

Lemma sort_descending {A : Type} (f : A -> Q) (l : list A) :
  StronglySorted (fun a b => f b <= f a) (sort (fun a b => f b - f a) l).
Proof.
  unfold sort. eapply StronglySorted_weaken; [|apply sortWith_sorted].
  - intros a b H. apply Qle_bool_iff in H. lra.
  - intros a b H. apply Qle_bool_iff.
    destruct (Qlt_le_dec 0 (f b - f a)) as [L|L]; [lra|].
    apply Qle_bool_iff in L. congruence.
  - intros a b c Hab Hbc. apply Qle_bool_iff in Hab, Hbc. apply Qle_bool_iff. lra.
Qed.

Lemma sorted_split {A : Type} (R : A -> A -> Prop) (n : nat) (l : list A) :
  StronglySorted R l ->
  Forall (fun a => Forall (R a) (skipn n l)) (firstn n l).
Proof.
  intros H. revert n. induction H as [|x l Hl IH Hx]; intros n.
  - destruct n; constructor.
  - destruct n as [|n]; [constructor|]. simpl. constructor; [|apply IH].
    rewrite <- (firstn_skipn n l) in Hx. apply Forall_app in Hx. apply Hx.
Qed.

(** ** Products *)

Lemma productMapOf_fold (salesData : list DailySales) :
  productMapOf salesData
  = fold_left (accStep ITNAME (fun _ => {| qty := 0; amount := 0 |}) addQtyAmount)
              (recordsOf salesData) [].
Proof.
  unfold productMapOf, recordsOf. rewrite forEachRecord_allRecords, fold_left_map.
  reflexivity.
Qed.

Lemma productMapOf_keys (salesData : list DailySales) :
  keys (productMapOf salesData) = productNames salesData.
Proof.
  rewrite productMapOf_fold, accFold_keys. unfold productNames, recordsOf, uniq, uniqFrom.
  rewrite map_map. reflexivity.
Qed.

Lemma addQtyAmount_fold (rs : list SalesRecord) (acc : QtyAmount) :
  qty (fold_left addQtyAmount rs acc) == qty acc + Qsum (map QTY rs)
  /\ amount (fold_left addQtyAmount rs acc) == amount acc + Qsum (map TAXBLEAMT rs).
Proof.
  revert acc. induction rs as [|r rs IH]; intros acc; simpl.
  - split; ring.
  - destruct (IH (addQtyAmount acc r)) as [Hq Ha]. rewrite Hq, Ha. simpl. split; ring.
Qed.

(** The entry of a product in the map: the sums over its records. *)
Lemma productMapOf_entry (salesData : list DailySales) (name : string)
    (data : QtyAmount) :
  In (name, data) (productMapOf salesData) ->
  filter (named name) (recordsOf salesData) <> []
  /\ qty data == Qsum (map QTY (filter (named name) (recordsOf salesData)))
  /\ amount data == Qsum (map TAXBLEAMT (filter (named name) (recordsOf salesData))).
Proof.
  intros Hin. apply in_map_get in Hin.
  2:{ rewrite productMapOf_keys. apply uniq_NoDup. }
  rewrite productMapOf_fold, accFold_get in Hin.
  fold (named name) in Hin. simpl get in Hin.
  destruct (filter (named name) (recordsOf salesData)) as [|r0 rest]; [discriminate|].
  inversion Hin as [E]. split; [discriminate|].
  destruct (addQtyAmount_fold (r0 :: rest) {| qty := 0; amount := 0 |}) as [Hq Ha].
  simpl orElse. rewrite Hq, Ha. simpl. split; ring.
Qed.

(** X1. [aggregateByProduct] has one entry per product name that occurs in
    the records; the quantity and the amount of an entry are the sums over
    the records of that name, and its average price is their quotient, not
    finite when the quantity is zero. *)
Theorem products_total_their_records (salesData : list DailySales) :
  let out := aggregateByProduct salesData in
  NoDup (map ProductSales.productName out)
  /\ Forall (fun r => In (ITNAME r) (map ProductSales.productName out))
            (recordsOf salesData)
  /\ Forall (fun p =>
               let rs := filter (named (ProductSales.productName p))
                                (recordsOf salesData) in
               rs <> []
               /\ ProductSales.totalQty p == Qsum (map QTY rs)
               /\ ProductSales.totalAmount p == Qsum (map TAXBLEAMT rs)
               /\ ProductSales.avgPrice p
                  = divide (ProductSales.totalAmount p) (ProductSales.totalQty p))
            out.
Proof.
  cbv zeta. unfold aggregateByProduct.
  set (toPS := fun '(productName, data) => _).
  assert (Hnames : Permutation
            (map ProductSales.productName (sort (fun a b => ProductSales.totalAmount b
                                                   - ProductSales.totalAmount a)
                                                (map toPS (productMapOf salesData))))
            (productNames salesData)).
  { eapply Permutation_trans; [apply Permutation_map, sort_perm|].
    rewrite map_map, <- productMapOf_keys. unfold keys.
    erewrite map_ext; [apply Permutation_refl|]. intros [k v]. reflexivity. }
  split; [|split].
  - eapply Permutation_NoDup; [apply Permutation_sym, Hnames | apply uniq_NoDup].
  - apply Forall_forall. intros r Hr.
    eapply Permutation_in; [apply Permutation_sym, Hnames|].
    unfold productNames. apply uniq_In. unfold recordsOf in Hr.
    apply in_map_iff in Hr. destruct Hr as [dr [E Hdr]]. subst r.
    apply in_map_iff. exists dr. split; [reflexivity | exact Hdr].
  - apply Forall_forall. intros p Hp.
    eapply Permutation_in in Hp; [|apply sort_perm].
    apply in_map_iff in Hp. destruct Hp as [[k data] [E Hin]]. subst p. simpl.
    destruct (productMapOf_entry salesData k data Hin) as [Hne [Hq Ha]].
    repeat split; assumption.
Qed.

(** X2. [aggregateByProduct] lists the products by amount, largest first,
    and [getTopProducts] returns the first [limit] of them: as many as
    there are products when there are fewer, and none of the products left
    out has a larger amount than one that is returned. *)
Theorem top_products_are_largest (salesData : list DailySales) (limit : nat) :
  let all := aggregateByProduct salesData in
  let top := getTopProducts salesData limit in
  StronglySorted (fun a b => ProductSales.totalAmount b <= ProductSales.totalAmount a)
                 all
  /\ List.length top = Nat.min limit (List.length (productNames salesData))
  /\ all = top ++ skipn limit all
  /\ Forall (fun p =>
               Forall (fun q => ProductSales.totalAmount q <= ProductSales.totalAmount p)
                      (skipn limit all))
            top.
Proof.
  cbv zeta. unfold getTopProducts.
  assert (Hs : StronglySorted
                 (fun a b => ProductSales.totalAmount b <= ProductSales.totalAmount a)
                 (aggregateByProduct salesData))
    by apply (sort_descending ProductSales.totalAmount).
  split; [exact Hs|]. split; [|split].
  - rewrite length_firstn. f_equal. unfold aggregateByProduct.
    rewrite (Permutation_length (sort_perm _ _)), length_map.
    rewrite <- productMapOf_keys. unfold keys. rewrite length_map. reflexivity.
  - symmetry. apply firstn_skipn.
  - apply (sorted_split (fun a b => ProductSales.totalAmount b
                                    <= ProductSales.totalAmount a)), Hs.
Qed.

(** ** Rows by date *)

Lemma localeCompare_le (a b : isoDate) :
  Qle_bool (localeCompare a b) 0 = (a <=? b)%Z.
Proof.
  unfold localeCompare, Z.leb. destruct (a ?= b)%Z; reflexivity.
Qed.

(** X3. [aggregateByDate] returns one row per batch, with the date, type
    and totals of the batch, in ascending order of date. *)
Theorem date_rows_sorted (salesData : list DailySales) :
  let rows := aggregateByDate salesData in
  Permutation rows (map dateRow salesData)
  /\ StronglySorted (fun a b => (DateSales.date a <= DateSales.date b)%Z) rows.
Proof.
  cbv zeta. unfold aggregateByDate. fold dateRow.
  split; [apply sort_perm|].
  - unfold sort. eapply StronglySorted_weaken; [|apply sortWith_sorted].
    + intros a b H. cbv beta in H. rewrite localeCompare_le in H.
      apply Z.leb_le. exact H.
    + intros a b H. cbv beta in *. rewrite localeCompare_le in *.
      apply Z.leb_gt in H. apply Z.leb_le. lia.
    + intros a b c H1 H2. cbv beta in *. rewrite localeCompare_le in *.
      apply Z.leb_le in H1, H2. apply Z.leb_le. lia.
Qed.

(** ** Companies *)

Lemma set_set {V : Type} (m : Map string V) (k : string) (a b : V) :
  set string_dec (set string_dec m k a) k b = set string_dec m k b.
Proof.
  induction m as [|[k' v'] m IH]; simpl.
  - destruct (string_dec k k); [reflexivity | congruence].
  - destruct (string_dec k k') as [E|N]; simpl.
    + destruct (string_dec k k'); [reflexivity | congruence].
    + destruct (string_dec k k'); [congruence|]. rewrite IH. reflexivity.
Qed.

Lemma fold_left_ext {A B : Type} (f g : A -> B -> A) (l : list B) (a : A) :
  (forall a b, f a b = g a b) -> fold_left f l a = fold_left g l a.
Proof.
  intros H. revert a. induction l as [|b l IH]; intros a; simpl; [reflexivity|].
  rewrite H. apply IH.
Qed.

(** Creating the entry of a new company and then filling it is the same
    accumulation as for the products. *)
Lemma companyMapOf_fold (salesData : list DailySales) :
  companyMapOf salesData
  = fold_left (accStep companyKey (fun _ => emptyCompany) addCompanyData)
              (recordsOf salesData) [].
Proof.
  unfold companyMapOf, recordsOf. rewrite forEachRecord_allRecords, fold_left_map.
  apply fold_left_ext. intros m [d r]. cbv beta. simpl fst. simpl snd.
  unfold accStep at 1. fold (companyKey r). unfold has.
  destruct (get string_dec m (companyKey r)) as [cd|] eqn:E.
  - rewrite E. reflexivity.
  - rewrite get_set_same, set_set. reflexivity.
Qed.

Lemma addCompanyData_fold (rs : list SalesRecord) (acc : CompanyData.t) :
  CompanyData.amount (fold_left addCompanyData rs acc)
  == CompanyData.amount acc + Qsum (map TAXBLEAMT rs)
  /\ CompanyData.qty (fold_left addCompanyData rs acc)
     == CompanyData.qty acc + Qsum (map QTY rs)
  /\ CompanyData.products (fold_left addCompanyData rs acc)
     = fold_left (accStep ITNAME (fun _ => {| qty := 0; amount := 0 |}) addQtyAmount)
                 rs (CompanyData.products acc).
Proof.
  revert acc. induction rs as [|r rs IH]; intros acc; simpl.
  - repeat split; ring.
  - destruct (IH (addCompanyData acc r)) as [Ha [Hq Hp]].
    rewrite Ha, Hq, Hp. simpl. repeat split; ring.
Qed.

Lemma companyMapOf_keys (salesData : list DailySales) :
  keys (companyMapOf salesData)
  = uniq string_dec (map companyKey (recordsOf salesData)).
Proof. rewrite companyMapOf_fold, accFold_keys. reflexivity. Qed.

Lemma companyMapOf_entry (salesData : list DailySales) (c : string)
    (data : CompanyData.t) :
  In (c, data) (companyMapOf salesData) ->
  let rs := filter (ofCompany c) (recordsOf salesData) in
  rs <> []
  /\ CompanyData.amount data == Qsum (map TAXBLEAMT rs)
  /\ CompanyData.qty data == Qsum (map QTY rs)
  /\ CompanyData.products data
     = fold_left (accStep ITNAME (fun _ => {| qty := 0; amount := 0 |}) addQtyAmount)
                 rs [].
Proof.
  intros Hin. apply in_map_get in Hin.
  2:{ rewrite companyMapOf_keys. apply uniq_NoDup. }
  rewrite companyMapOf_fold, accFold_get in Hin.
  fold (ofCompany c) in Hin. simpl get in Hin. cbv zeta.
  destruct (filter (ofCompany c) (recordsOf salesData)) as [|r0 rest]; [discriminate|].
  inversion Hin as [E]. split; [discriminate|].
  destruct (addCompanyData_fold (r0 :: rest) emptyCompany) as [Ha [Hq Hp]].
  change (fold_left addCompanyData rest (addCompanyData emptyCompany r0))
    with (fold_left addCompanyData (r0 :: rest) emptyCompany).
  rewrite Ha, Hq, Hp. simpl. repeat split; ring.
Qed.

(** X4. [aggregateByCompany] has one entry per company key that occurs,
    the key of a record being its company or ["Unknown"] when the company
    is absent or empty; the amount and the quantity of an entry are the
    sums over the records of that key. *)
Theorem companies_total_their_records (salesData : list DailySales) :
  let out := aggregateByCompany salesData in
  NoDup (map CompanySales.companyName out)
  /\ Forall (fun r => In (companyKey r) (map CompanySales.companyName out))
            (recordsOf salesData)
  /\ Forall (fun c =>
               let rs := filter (ofCompany (CompanySales.companyName c))
                                (recordsOf salesData) in
               rs <> []
               /\ CompanySales.totalAmount c == Qsum (map TAXBLEAMT rs)
               /\ CompanySales.totalQuantity c == Qsum (map QTY rs))
            out.
Proof.
  cbv zeta. unfold aggregateByCompany.
  set (toCS := fun '(companyName, data) => _).
  assert (Hnames : Permutation
            (map CompanySales.companyName
                 (sort (fun a b => CompanySales.totalAmount b - CompanySales.totalAmount a)
                       (map toCS (companyMapOf salesData))))
            (uniq string_dec (map companyKey (recordsOf salesData)))).
  { eapply Permutation_trans; [apply Permutation_map, sort_perm|].
    rewrite map_map, <- companyMapOf_keys. unfold keys.
    erewrite map_ext; [apply Permutation_refl|]. intros [k v]. reflexivity. }
  split; [|split].
  - eapply Permutation_NoDup; [apply Permutation_sym, Hnames | apply uniq_NoDup].
  - apply Forall_forall. intros r Hr.
    eapply Permutation_in; [apply Permutation_sym, Hnames|].
    apply uniq_In. apply in_map. exact Hr.
  - apply Forall_forall. intros c Hc.
    eapply Permutation_in in Hc; [|apply sort_perm].
    apply in_map_iff in Hc. destruct Hc as [[k data] [E Hin]]. subst c. simpl.
    destruct (companyMapOf_entry salesData k data Hin) as [Hne [Ha [Hq _]]].
    repeat split; assumption.
Qed.

(** X5. Inside an entry of [aggregateByCompany]: the products are listed
    once each, largest amount first, each tagged with the company; their
    number is [productCount]; each carries the sums over the records of
    that product within the company. *)
Theorem company_products_consistent (salesData : list DailySales) :
  Forall (fun c =>
            let ps := CompanySales.products c in
            let rs := filter (ofCompany (CompanySales.companyName c))
                             (recordsOf salesData) in
            CompanySales.productCount c = List.length ps
            /\ NoDup (map ProductSales.productName ps)
            /\ StronglySorted
                 (fun a b => ProductSales.totalAmount b <= ProductSales.totalAmount a) ps
            /\ Forall (fun p =>
                         ProductSales.company p = Some (CompanySales.companyName c)
                         /\ ProductSales.totalAmount p
                            == Qsum (map TAXBLEAMT
                                         (filter (named (ProductSales.productName p)) rs))
                         /\ ProductSales.totalQty p
                            == Qsum (map QTY
                                         (filter (named (ProductSales.productName p)) rs)))
                      ps)
         (aggregateByCompany salesData).
Proof.
  apply Forall_forall. intros c Hc. unfold aggregateByCompany in Hc.
  eapply Permutation_in in Hc; [|apply sort_perm].
  apply in_map_iff in Hc. destruct Hc as [[k data] [E Hin]]. subst c. cbv zeta.
  cbn [CompanySales.products CompanySales.companyName CompanySales.productCount
       CompanySales.totalAmount CompanySales.totalQuantity].
  destruct (companyMapOf_entry salesData k data Hin) as [Hne [Ha [Hq Hp]]].
  cbv zeta in Hne, Ha, Hq, Hp.
  set (rs := filter (ofCompany k) (recordsOf salesData)) in *.
  set (toPS := fun '(productName, productData) => _).
  assert (Hkeys : keys (CompanyData.products data)
                  = uniq string_dec (map ITNAME rs)).
  { rewrite Hp, accFold_keys. reflexivity. }
  split; [|split; [|split]].
  - rewrite (Permutation_length (sort_perm _ _)), length_map. reflexivity.
  - eapply Permutation_NoDup.
    + apply Permutation_sym, Permutation_map, sort_perm.
    + rewrite map_map.
      replace (map (fun x => ProductSales.productName (toPS x)) (CompanyData.products data))
        with (keys (CompanyData.products data))
        by (unfold keys; apply map_ext; intros [a b]; reflexivity).
      rewrite Hkeys. apply uniq_NoDup.
  - apply (sort_descending ProductSales.totalAmount).
  - apply Forall_forall. intros p Hpin.
    eapply Permutation_in in Hpin; [|apply sort_perm].
    apply in_map_iff in Hpin. destruct Hpin as [[n pd] [E Hin']]. subst p. simpl.
    split; [reflexivity|].
    apply in_map_get in Hin'; [|rewrite Hkeys; apply uniq_NoDup].
    rewrite Hp, accFold_get in Hin'. fold (named n) in Hin'. simpl get in Hin'.
    destruct (filter (named n) rs) as [|r0 rest]; [discriminate|].
    inversion Hin' as [E].
    destruct (addQtyAmount_fold (r0 :: rest) {| qty := 0; amount := 0 |}) as [Hq' Ha'].
    simpl orElse. rewrite Hq', Ha'. simpl. split; ring.
Qed.

(** ** Products with their company *)

Lemma get_mapValues {V W : Type} (h : V -> W) (m : Map string V) (k : string) :
  get string_dec (mapValues h m) k = option_map h (get string_dec m k).
Proof.
  induction m as [|[k' v] m IH]; simpl; [reflexivity|].
  destruct (string_dec k k'); [reflexivity | exact IH].
Qed.

Lemma set_mapValues {V W : Type} (h : V -> W) (m : Map string V) (k : string) (v : V) :
  mapValues h (set string_dec m k v) = set string_dec (mapValues h m) k (h v).
Proof.
  induction m as [|[k' v'] m IH]; simpl; [reflexivity|].
  destruct (string_dec k k'); simpl; [reflexivity|]. rewrite <- IH. reflexivity.
Qed.

Lemma accFold_mapValues {R V W : Type} (key : R -> string) (init : R -> V)
    (upd : V -> R -> V) (init' : R -> W) (upd' : W -> R -> W) (h : V -> W)
    (rs : list R) (m : Map string V) :
  (forall r, h (init r) = init' r) ->
  (forall v r, h (upd v r) = upd' (h v) r) ->
  mapValues h (fold_left (accStep key init upd) rs m)
  = fold_left (accStep key init' upd') rs (mapValues h m).
Proof.
  intros Hi Hu. revert m. induction rs as [|r rs IH]; intros m; simpl; [reflexivity|].
  rewrite IH. f_equal. unfold accStep. rewrite set_mapValues, Hu, get_mapValues.
  destruct (get string_dec m (key r)); simpl; [reflexivity|]. rewrite Hi. reflexivity.
Qed.

Lemma insertBy_map {A B : Type} (h : A -> B) (le : B -> B -> bool) (x : A) (l : list A) :
  map h (insertBy (fun a b => le (h a) (h b)) x l) = insertBy le (h x) (map h l).
Proof.
  induction l as [|y l IH]; simpl; [reflexivity|].
  destruct (le (h x) (h y)); simpl; [reflexivity|]. rewrite IH. reflexivity.
Qed.

Lemma sortWith_map {A B : Type} (h : A -> B) (le : B -> B -> bool) (l : list A) :
  map h (sortWith (fun a b => le (h a) (h b)) l) = sortWith le (map h l).
Proof.
  induction l as [|x l IH]; simpl; [reflexivity|].
  rewrite insertBy_map, IH. reflexivity.
Qed.

Lemma productCompanyMapOf_fold (salesData : list DailySales) :
  productCompanyMapOf salesData
  = fold_left (accStep ITNAME
                 (fun r => {| ProductAcc.qty := 0; ProductAcc.amount := 0;
                              ProductAcc.company := company r |})
                 addProductAcc)
              (recordsOf salesData) [].
Proof.
  unfold productCompanyMapOf, recordsOf.
  rewrite forEachRecord_allRecords, fold_left_map. reflexivity.
Qed.

Lemma productCompanyMapOf_keys (salesData : list DailySales) :
  keys (productCompanyMapOf salesData) = productNames salesData.
Proof.
  rewrite productCompanyMapOf_fold, accFold_keys.
  unfold productNames, recordsOf, uniq, uniqFrom. rewrite map_map. reflexivity.
Qed.

(** X6. [aggregateByProductWithCompany] returns the products of
    [aggregateByProduct], in the same order and with the same quantity,
    amount and average price: the two lists differ by the company tag
    only. *)
Theorem with_company_same_products (salesData : list DailySales) :
  map dropCompany (aggregateByProductWithCompany salesData)
  = aggregateByProduct salesData.
Proof.
  unfold aggregateByProductWithCompany, aggregateByProduct, sort.
  etransitivity.
  - apply (sortWith_map dropCompany
             (fun a b => Qle_bool (ProductSales.totalAmount b
                                   - ProductSales.totalAmount a) 0)).
  - f_equal. rewrite map_map, productMapOf_fold, productCompanyMapOf_fold.
    change (@nil (string * QtyAmount)) with (mapValues stripCompany []).
    rewrite <- (accFold_mapValues ITNAME
                  (fun r => {| ProductAcc.qty := 0; ProductAcc.amount := 0;
                               ProductAcc.company := company r |})
                  addProductAcc
                  (fun _ => {| qty := 0; amount := 0 |}) addQtyAmount stripCompany)
      by reflexivity.
    unfold mapValues. rewrite map_map. apply map_ext. intros [k v]. reflexivity.
Qed.

Lemma addProductAcc_company (rs : list SalesRecord) (acc : ProductAcc.t) :
  ProductAcc.company (fold_left addProductAcc rs acc)
  = fold_left (fun c r => orString (company r) c) rs (ProductAcc.company acc).
Proof.
  revert acc. induction rs as [|r rs IH]; intros acc; simpl; [reflexivity|].
  rewrite IH. reflexivity.
Qed.

Lemma orString_falsy (rs : list SalesRecord) (c0 : option string) :
  Forall (fun r => truthy (company r) = None) rs ->
  fold_left (fun c r => orString (company r) c) rs c0 = c0.
Proof.
  intros H. revert c0. induction H as [|r rs Hr _ IH]; intros c0; simpl; [reflexivity|].
  rewrite IH. unfold orString. rewrite Hr. reflexivity.
Qed.

Lemma orString_last (pre post : list SalesRecord) (r : SalesRecord)
    (c : string) (c0 : option string) :
  truthy (company r) = Some c ->
  Forall (fun r' => truthy (company r') = None) post ->
  fold_left (fun c r => orString (company r) c) (pre ++ r :: post) c0 = Some c.
Proof.
  intros Hr Hpost. rewrite fold_left_app. simpl.
  rewrite orString_falsy by exact Hpost. unfold orString. rewrite Hr. reflexivity.
Qed.

Lemma productCompanyMapOf_entry (salesData : list DailySales) (name : string)
    (data : ProductAcc.t) :
  In (name, data) (productCompanyMapOf salesData) ->
  exists r0 rest,
    filter (named name) (recordsOf salesData) = r0 :: rest
    /\ ProductAcc.company data
       = fold_left (fun c r => orString (company r) c) (r0 :: rest) (company r0).
Proof.
  intros Hin. apply in_map_get in Hin.
  2:{ rewrite productCompanyMapOf_keys. apply uniq_NoDup. }
  rewrite productCompanyMapOf_fold, accFold_get in Hin.
  fold (named name) in Hin. simpl get in Hin.
  destruct (filter (named name) (recordsOf salesData)) as [|r0 rest]; [discriminate|].
  exists r0, rest. split; [reflexivity|].
  injection Hin as E. rewrite <- E. simpl orElse. apply addProductAcc_company.
Qed.

Lemma product_tag (salesData : list DailySales) (p : ProductSales.t) :
  In p (aggregateByProductWithCompany salesData) ->
  exists r0 rest,
    filter (named (ProductSales.productName p)) (recordsOf salesData) = r0 :: rest
    /\ ProductSales.company p
       = fold_left (fun c r => orString (company r) c) (r0 :: rest) (company r0).
Proof.
  intros Hp. unfold aggregateByProductWithCompany in Hp.
  eapply Permutation_in in Hp; [|apply sort_perm].
  apply in_map_iff in Hp. destruct Hp as [[k data] [E Hin]]. subst p. simpl.
  exact (productCompanyMapOf_entry salesData k data Hin).
Qed.

(** X7. The company tag of a product in [aggregateByProductWithCompany]
    is the company of the last of its records that has one (an empty
    company does not count); when none of its records has a company the
    tag is absent or empty. *)
Theorem product_tag_is_last_company (salesData : list DailySales) :
  Forall (fun p =>
            let rs := filter (named (ProductSales.productName p))
                             (recordsOf salesData) in
            (forall pre r post c,
                rs = pre ++ r :: post ->
                truthy (company r) = Some c ->
                Forall (fun r' => truthy (company r') = None) post ->
                ProductSales.company p = Some c)
            /\ (Forall (fun r => truthy (company r) = None) rs ->
                truthy (ProductSales.company p) = None))
         (aggregateByProductWithCompany salesData).
Proof.
  apply Forall_forall. intros p Hp. cbv zeta.
  destruct (product_tag salesData p Hp) as [r0 [rest [Hrs Hc]]].
  rewrite Hrs, Hc. split.
  - intros pre r post c Hsplit Hr Hpost. rewrite Hsplit. apply orString_last; assumption.
  - intros Hall. rewrite orString_falsy by exact Hall.
    inversion Hall; assumption.
Qed.

(** ** Enrichment, again *)

Lemma enrichRecord_name (m : CompanyMapper.t) (r : SalesRecord) :
  ITNAME (enrichRecord m r) = ITNAME r.
Proof. apply (proj1 (enrichRecord_frame m r)). Qed.

Lemma enrichRecord_idempotent (m : CompanyMapper.t) (r : SalesRecord) :
  enrichRecord m (enrichRecord m r) = enrichRecord m r.
Proof.
  unfold enrichRecord at 1. rewrite enrichRecord_name. unfold enrichRecord.
  destruct (CompanyMapper.getCompanyForProduct m (ITNAME r)) as [[|a s]|]; reflexivity.
Qed.

(** X8. Enriching twice with the same mapper is enriching once, and the
    enrichment keeps the totals of a batch equal to the sums over its
    records when they were. *)
Theorem enrich_idempotent (salesData : list DailySales) (m : CompanyMapper.t) :
  enrichWithCompanyData (enrichWithCompanyData salesData m) m
  = enrichWithCompanyData salesData m
  /\ (Forall totalsConsistent salesData ->
      Forall totalsConsistent (enrichWithCompanyData salesData m)).
Proof.
  unfold enrichWithCompanyData. split.
  - rewrite map_map. apply map_ext. intros d. simpl. f_equal.
    rewrite map_map. apply map_ext. intros r. apply enrichRecord_idempotent.
  - intros H. apply Forall_map. eapply Forall_impl; [|exact H].
    intros d [Ha Hq]. unfold totalsConsistent. simpl.
    rewrite Ha, Hq, !sumOf_Qsum, !map_map. split.
    + apply Qsum_ext, Forall_forall. intros r _.
      destruct (enrichRecord_frame m r) as [[_ [_ [_ [E _]]]] _]. rewrite E. reflexivity.
    + apply Qsum_ext, Forall_forall. intros r _.
      destruct (enrichRecord_frame m r) as [[_ [_ [E _]]] _]. rewrite E. reflexivity.
Qed.

Lemma recordsOf_cons (daily : DailySales) (salesData : list DailySales) :
  recordsOf (daily :: salesData) = records daily ++ recordsOf salesData.
Proof.
  unfold recordsOf, allRecords. simpl. rewrite map_app, map_map. simpl.
  rewrite map_id. reflexivity.
Qed.

Lemma recordsOf_enrich (salesData : list DailySales) (m : CompanyMapper.t) :
  recordsOf (enrichWithCompanyData salesData m)
  = map (enrichRecord m) (recordsOf salesData).
Proof.
  induction salesData as [|d ds IH]; [reflexivity|].
  change (enrichWithCompanyData (d :: ds) m)
    with ({| date := date d; type := type d;
             records := map (enrichRecord m) (records d);
             totalAmount := totalAmount d;
             totalQuantity := totalQuantity d |} :: enrichWithCompanyData ds m).
  rewrite !recordsOf_cons, map_app, IH. reflexivity.
Qed.

(** X9. After the enrichment, [aggregateByProductWithCompany] tags every
    product the mapper resolves to a non-empty company with that company,
    whatever companies its records carried before. *)
Theorem enriched_products_carry_company (salesData : list DailySales)
    (m : CompanyMapper.t) (p : ProductSales.t) (c : string) :
  In p (aggregateByProductWithCompany (enrichWithCompanyData salesData m)) ->
  CompanyMapper.getCompanyForProduct m (ProductSales.productName p) = Some c ->
  c <> EmptyString ->
  ProductSales.company p = Some c.
Proof.
  intros Hp Hm Hc.
  destruct (product_tag _ p Hp) as [r0 [rest [Hrs Htag]]].
  rewrite Htag, <- Hrs.
  assert (Hall : forall r, In r (filter (named (ProductSales.productName p))
                                   (recordsOf (enrichWithCompanyData salesData m))) ->
                           truthy (company r) = Some c).
  { intros r Hr. apply filter_In in Hr. destruct Hr as [Hin Hn].
    rewrite recordsOf_enrich in Hin. apply in_map_iff in Hin.
    destruct Hin as [r' [E _]]. subst r. unfold named in Hn.
    apply String.eqb_eq in Hn. rewrite enrichRecord_name in Hn.
    unfold enrichRecord. rewrite Hn, Hm.
    destruct c as [|a c']; [contradiction|]. reflexivity. }
  assert (Hne : filter (named (ProductSales.productName p))
                  (recordsOf (enrichWithCompanyData salesData m)) <> [])
    by (rewrite Hrs; discriminate).
  rewrite (app_removelast_last r0 Hne) at 1.
  apply orString_last; [|constructor].
  apply Hall. rewrite (app_removelast_last r0 Hne) at 2.
  apply in_or_app. right. left. reflexivity.
Qed.

Lemma enriched_products_carry_company_witness :
  ProductSales.company
    (hd {| ProductSales.productName := EmptyString; ProductSales.totalQty := 0;
           ProductSales.totalAmount := 0; ProductSales.avgPrice := None;
           ProductSales.company := None |}
        (aggregateByProductWithCompany taggedTwoDays))
  = Some "Syngenta"%string.
Proof.
  apply (enriched_products_carry_company twoProductsTwoDays sampleMapper).
  - vm_compute. left. reflexivity.
  - vm_compute. reflexivity.
  - discriminate.
Defined.

(** ** Filters of the dashboard *)

Lemma hasCompany_ofCompany (c : string) (r : SalesRecord) :
  c <> EmptyString -> c <> "Unknown"%string -> hasCompany c r = ofCompany c r.
Proof.
  intros H1 H2. unfold hasCompany, ofCompany, companyKey.
  destruct (company r) as [[|a s]|]; cbn [truthy orElse].
  - transitivity false; [|symmetry]; apply String.eqb_neq; congruence.
  - reflexivity.
  - symmetry. apply String.eqb_neq. congruence.
Qed.

Lemma recordsOf_filterByCompany (c : string) (salesData : list DailySales) :
  recordsOf (filterByCompany c salesData)
  = filter (hasCompany c) (recordsOf salesData).
Proof.
  induction salesData as [|d ds IH]; [reflexivity|].
  change (filterByCompany c (d :: ds))
    with ({| date := date d; type := type d;
             records := filter (hasCompany c) (records d);
             totalAmount :=
               fold_left (fun sum r => sum + TAXBLEAMT r)
                         (filter (hasCompany c) (records d)) 0;
             totalQuantity :=
               fold_left (fun sum r => sum + QTY r)
                         (filter (hasCompany c) (records d)) 0 |}
          :: filterByCompany c ds).
  rewrite !recordsOf_cons, filter_app, IH. reflexivity.
Qed.

Lemma filterByCompany_consistent (c : string) (salesData : list DailySales) :
  Forall totalsConsistent (filterByCompany c salesData).
Proof.
  unfold filterByCompany. apply Forall_map, Forall_forall. intros d _.
  split; reflexivity.
Qed.

Lemma aggregateByCompany_totals (salesData : list DailySales) (e : CompanySales.t) :
  In e (aggregateByCompany salesData) ->
  CompanySales.totalAmount e
  == Qsum (map TAXBLEAMT (filter (ofCompany (CompanySales.companyName e))
                                 (recordsOf salesData)))
  /\ CompanySales.totalQuantity e
     == Qsum (map QTY (filter (ofCompany (CompanySales.companyName e))
                              (recordsOf salesData))).
Proof.
  intros He. unfold aggregateByCompany in He.
  eapply Permutation_in in He; [|apply sort_perm].
  apply in_map_iff in He. destruct He as [[k data] [E Hin]]. subst e. simpl.
  destruct (companyMapOf_entry salesData k data Hin) as [_ [Ha [Hq _]]].
  split; assumption.
Qed.

Lemma filter_filter {A : Type} (p q : A -> bool) (l : list A) :
  filter q (filter p l) = filter (fun x => andb (p x) (q x)) l.
Proof.
  induction l as [|x l IH]; simpl; [reflexivity|].
  destruct (p x); simpl; [|exact IH]. destruct (q x); [f_equal|]; exact IH.
Qed.

Lemma filterByCompany_dates (c : string) (salesData : list DailySales) :
  map (fun d => (date d, type d)) (filterByCompany c salesData)
  = map (fun d => (date d, type d)) salesData.
Proof. unfold filterByCompany. rewrite map_map. reflexivity. Qed.

(** X11. The filters of the dashboard: the batches shown are the batches
    that pass the type test and the date test, in their order; with the
    company ['ALL'] they are shown as they are, and with a company each
    batch keeps its date and type, holds the records of that company only,
    and has totals equal to the sums over these records. A range with a
    missing end does not filter by date. *)
Theorem filtered_data_batches (f : Filters) (salesData : list DailySales) :
  let shown := filter (passes f) salesData in
  let out := filteredData f salesData in
  map (fun d => (date d, type d)) out = map (fun d => (date d, type d)) shown
  /\ (selectedCompany f = "ALL"%string -> out = shown)
  /\ (selectedCompany f <> "ALL"%string ->
      Forall totalsConsistent out
      /\ map records out
         = map (fun d => filter (hasCompany (selectedCompany f)) (records d)) shown)
  /\ (selectedDate f = RangeOfDates ->
      dateRangeStart f = None \/ dateRangeEnd f = None ->
      Forall (fun d => passes f d = passesType f d) salesData).
Proof.
  cbv zeta. unfold filteredData.
  assert (E : match selectedDate f, dateRangeStart f, dateRangeEnd f with
              | RangeOfDates, Some dateRangeStart, Some dateRangeEnd =>
                  filter (fun d => andb (dateRangeStart <=? date d)%Z
                                        (date d <=? dateRangeEnd)%Z)
                         match selectedType f with
                         | AllTypes => salesData
                         | OnlyType t => filter (fun d => sameType (type d) t) salesData
                         end
              | OneDate selectedDate, _, _ =>
                  filter (fun d => (date d =? selectedDate)%Z)
                         match selectedType f with
                         | AllTypes => salesData
                         | OnlyType t => filter (fun d => sameType (type d) t) salesData
                         end
              | _, _, _ =>
                  match selectedType f with
                  | AllTypes => salesData
                  | OnlyType t => filter (fun d => sameType (type d) t) salesData
                  end
              end = filter (passes f) salesData).
  { unfold passes, passesType, passesDate.
    assert (T : match selectedType f with
                | AllTypes => salesData
                | OnlyType t => filter (fun d => sameType (type d) t) salesData
                end
                = filter (fun d => match selectedType f with
                                   | AllTypes => true
                                   | OnlyType t => sameType (type d) t
                                   end) salesData).
    { destruct (selectedType f); [|reflexivity].
      symmetry. apply forallb_filter_id. apply forallb_forall. reflexivity. }
    rewrite T.
    destruct (selectedDate f) as [| |d0];
      [|destruct (dateRangeStart f) as [s|]; [destruct (dateRangeEnd f) as [e|]|]|];
      rewrite ?filter_filter; try reflexivity;
      apply filter_ext; intros d; rewrite andb_true_r; reflexivity. }
  rewrite E. clear E. repeat split.
  - destruct (String.eqb (selectedCompany f) "ALL"); [reflexivity|].
    apply filterByCompany_dates.
  - intros H. rewrite H. reflexivity.
  - apply String.eqb_neq in H. rewrite H. apply filterByCompany_consistent.
  - apply String.eqb_neq in H. rewrite H. unfold filterByCompany.
    rewrite map_map. reflexivity.
  - intros HR HN. apply Forall_forall. intros d _. unfold passes, passesDate.
    rewrite HR. destruct HN as [HN|HN]; rewrite HN.
    + apply andb_true_r.
    + destruct (dateRangeStart f); apply andb_true_r.
Qed.

Lemma filteredData_passes (f : Filters) (salesData : list DailySales) :
  filteredData f salesData
  = if String.eqb (selectedCompany f) "ALL" then filter (passes f) salesData
    else filterByCompany (selectedCompany f) (filter (passes f) salesData).
Proof.
  unfold filteredData.
  assert (T : match selectedType f with
              | AllTypes => salesData
              | OnlyType t => filter (fun d => sameType (type d) t) salesData
              end
              = filter (passesType f) salesData).
  { unfold passesType. destruct (selectedType f); [|reflexivity].
    symmetry. apply forallb_filter_id. apply forallb_forall. reflexivity. }
  rewrite T.
  assert (E : match selectedDate f, dateRangeStart f, dateRangeEnd f with
              | RangeOfDates, Some dateRangeStart, Some dateRangeEnd =>
                  filter (fun d => andb (dateRangeStart <=? date d)%Z
                                        (date d <=? dateRangeEnd)%Z)
                         (filter (passesType f) salesData)
              | OneDate selectedDate, _, _ =>
                  filter (fun d => (date d =? selectedDate)%Z)
                         (filter (passesType f) salesData)
              | _, _, _ => filter (passesType f) salesData
              end = filter (passes f) salesData).
  { unfold passes, passesDate.
    destruct (selectedDate f) as [| |d0];
      [|destruct (dateRangeStart f) as [s|]; [destruct (dateRangeEnd f) as [e|]|]|];
      rewrite ?filter_filter; try reflexivity;
      apply filter_ext; intros d; rewrite andb_true_r; reflexivity. }
  rewrite E. reflexivity.
Qed.

(** X10. With a company selected in the dashboard, other than ['ALL'], the
    empty name and ['Unknown'], the records of the batches shown are, in
    their order, the records of that company in the batches that pass the
    type test and the date test; they are the records [aggregateByCompany]
    adds up for the company: the amount and the quantity of its entry are
    their sums, taken record by record in that order. *)
Theorem company_filter_shows_company_records (f : Filters)
    (salesData : list DailySales) (e : CompanySales.t) :
  selectedCompany f <> "ALL"%string ->
  selectedCompany f <> EmptyString ->
  selectedCompany f <> "Unknown"%string ->
  In e (aggregateByCompany (filter (passes f) salesData)) ->
  CompanySales.companyName e = selectedCompany f ->
  recordsOf (filteredData f salesData)
  = filter (ofCompany (selectedCompany f)) (recordsOf (filter (passes f) salesData))
  /\ CompanySales.totalAmount e == sumOf TAXBLEAMT (recordsOf (filteredData f salesData))
  /\ CompanySales.totalQuantity e == sumOf QTY (recordsOf (filteredData f salesData)).
Proof.
  intros H0 H1 H2 He Hn.
  assert (R : recordsOf (filteredData f salesData)
              = filter (ofCompany (selectedCompany f))
                       (recordsOf (filter (passes f) salesData))).
  { rewrite filteredData_passes. apply String.eqb_neq in H0. rewrite H0.
    rewrite recordsOf_filterByCompany.
    apply filter_ext. intros r. apply hasCompany_ofCompany; assumption. }
  destruct (aggregateByCompany_totals _ e He) as [Ea Eq].
  rewrite Hn in Ea, Eq.
  split; [exact R|]. rewrite R, !sumOf_Qsum. split; assumption.
Qed.

Lemma company_filter_shows_company_records_witness :
  recordsOf (filteredData (onlyCompany "Syngenta") taggedTwoDays)
  = filter (ofCompany "Syngenta")
           (recordsOf (filter (passes (onlyCompany "Syngenta")) taggedTwoDays))
  /\ 3000 == sumOf TAXBLEAMT (recordsOf (filteredData (onlyCompany "Syngenta") taggedTwoDays))
  /\ 30 == sumOf QTY (recordsOf (filteredData (onlyCompany "Syngenta") taggedTwoDays)).
Proof.
  apply (company_filter_shows_company_records (onlyCompany "Syngenta") taggedTwoDays
           (hd {| CompanySales.companyName := EmptyString;
                  CompanySales.totalAmount := 0; CompanySales.totalQuantity := 0;
                  CompanySales.productCount := 0; CompanySales.products := [] |}
               (aggregateByCompany
                  (filter (passes (onlyCompany "Syngenta")) taggedTwoDays)))).
  - discriminate.
  - discriminate.
  - discriminate.
  - vm_compute. left. reflexivity.
  - vm_compute. reflexivity.
Defined.

(** ** The company mapper *)

Section MapperFacts.
Import CompanyMapper.

Lemma isSpace_lowerAscii (c : ascii) : isSpace (lowerAscii c) = isSpace c.
Proof.
  destruct c as [b0 b1 b2 b3 b4 b5 b6 b7];
    destruct b0, b1, b2, b3, b4, b5, b6, b7; reflexivity.
Qed.

Lemma lowerAscii_idempotent (c : ascii) : lowerAscii (lowerAscii c) = lowerAscii c.
Proof.
  destruct c as [b0 b1 b2 b3 b4 b5 b6 b7];
    destruct b0, b1, b2, b3, b4, b5, b6, b7; reflexivity.
Qed.

Lemma toLowerCase_idempotent (s : string) : toLowerCase (toLowerCase s) = toLowerCase s.
Proof.
  induction s as [|c s IH]; simpl; [reflexivity|].
  rewrite lowerAscii_idempotent, IH. reflexivity.
Qed.

Lemma toLowerCase_trimStart (s : string) :
  toLowerCase (trimStart s) = trimStart (toLowerCase s).
Proof.
  induction s as [|c s IH]; simpl; [reflexivity|].
  rewrite isSpace_lowerAscii. destruct (isSpace c); [exact IH | reflexivity].
Qed.

Lemma toLowerCase_trimEnd (s : string) :
  toLowerCase (trimEnd s) = trimEnd (toLowerCase s).
Proof.
  induction s as [|c s IH]; simpl; [reflexivity|].
  rewrite <- IH, isSpace_lowerAscii.
  destruct (trimEnd s) as [|a t]; simpl; [destruct (isSpace c)|]; reflexivity.
Qed.

Lemma toLowerCase_trim (s : string) : toLowerCase (trim s) = trim (toLowerCase s).
Proof. unfold trim. rewrite toLowerCase_trimEnd, toLowerCase_trimStart. reflexivity. Qed.

Lemma trimStart_head (s : string) :
  trimStart s = EmptyString
  \/ exists c t, trimStart s = String c t /\ isSpace c = false.
Proof.
  induction s as [|c s IH]; simpl; [left; reflexivity|].
  destruct (isSpace c) eqn:E; [exact IH|]. right. exists c, s. split; [reflexivity | exact E].
Qed.

Lemma trimEnd_idempotent (s : string) : trimEnd (trimEnd s) = trimEnd s.
Proof.
  induction s as [|c s IH]; simpl; [reflexivity|].
  destruct (trimEnd s) as [|a t] eqn:E.
  - destruct (isSpace c) eqn:Ec; simpl; [reflexivity|]. rewrite Ec. reflexivity.
  - cbn [trimEnd] in *. rewrite IH. reflexivity.
Qed.

Lemma trimEnd_head (c : ascii) (t : string) :
  isSpace c = false -> exists t', trimEnd (String c t) = String c t'.
Proof.
  intros E. simpl. destruct (trimEnd t) as [|a w]; [rewrite E|]; eexists; reflexivity.
Qed.

Lemma trim_idempotent (s : string) : trim (trim s) = trim s.
Proof.
  unfold trim. destruct (trimStart_head s) as [E|[c [t [E Hc]]]]; rewrite E.
  - reflexivity.
  - destruct (trimEnd_head c t Hc) as [t' E']. rewrite E'.
    cbn [trimStart]. rewrite Hc, <- E'. apply trimEnd_idempotent.
Qed.

Lemma normalize_idempotent (s : string) :
  normalizeProductName (normalizeProductName s) = normalizeProductName s.
Proof.
  unfold normalizeProductName.
  rewrite toLowerCase_trim, toLowerCase_idempotent. apply trim_idempotent.
Qed.

Lemma normalize_trim (s : string) :
  normalizeProductName (trim s) = normalizeProductName s.
Proof.
  unfold normalizeProductName. rewrite toLowerCase_trim. apply trim_idempotent.
Qed.

Lemma normalize_toLowerCase (s : string) :
  normalizeProductName (toLowerCase s) = normalizeProductName s.
Proof. unfold normalizeProductName. rewrite toLowerCase_idempotent. reflexivity. Qed.

Lemma parseCSV_fold (this : t) (csvText companyName : string) :
  parseCSV this csvText companyName
  = fold_left (fun this n => register this companyName n) (productsIn csvText) this.
Proof.
  unfold parseCSV, productsIn.
  generalize (tl (splitOn lineFeed csvText)) as lines. intros lines. revert this.
  induction lines as [|l lines IH]; intros this; [reflexivity|].
  cbn [map filter fold_left]. rewrite IH.
  destruct (trim l) as [|a s]; reflexivity.
Qed.

Lemma register_company (this : t) (c n k : string) :
  get string_dec (productToCompany (register this c n)) k
  = if string_dec k n then Some c else get string_dec (productToCompany this) k.
Proof.
  unfold register. cbn [productToCompany].
  destruct (string_dec k n) as [e|ne].
  - subst. apply get_set_same.
  - apply get_set_other. exact ne.
Qed.

Lemma register_products (this : t) (c n c' : string) :
  getProductsForCompany (register this c n) c'
  = if string_dec c' c then add string_dec (getProductsForCompany this c) n
    else getProductsForCompany this c'.
Proof.
  unfold getProductsForCompany, register, has. cbn [companyProducts].
  destruct (get string_dec (companyProducts this) c) as [ps|] eqn:E.
  - rewrite E. destruct (string_dec c' c) as [e|ne].
    + subst. rewrite get_set_same. reflexivity.
    + rewrite get_set_other by exact ne. reflexivity.
  - rewrite get_set_same. destruct (string_dec c' c) as [e|ne].
    + subst. rewrite get_set_same. reflexivity.
    + rewrite !get_set_other by exact ne. reflexivity.
Qed.

Lemma registered_company (names : list string) (this : t) (c k : string) :
  get string_dec
      (productToCompany (fold_left (fun this n => register this c n) names this)) k
  = if in_dec string_dec k names then Some c
    else get string_dec (productToCompany this) k.
Proof.
  revert this. induction names as [|n names IH]; intros this; [reflexivity|].
  cbn [fold_left]. rewrite IH, register_company.
  destruct (in_dec string_dec k names) as [i|ni];
    destruct (in_dec string_dec k (n :: names)) as [i'|ni']; try reflexivity.
  - exfalso. apply ni'. right. exact i.
  - destruct i' as [e|i']; [|contradiction]. subst.
    destruct (string_dec k k); congruence.
  - destruct (string_dec k n); [|reflexivity]. exfalso. apply ni'. left. congruence.
Qed.

Lemma registered_products (names : list string) (this : t) (c c' : string) :
  getProductsForCompany (fold_left (fun this n => register this c n) names this) c'
  = if string_dec c' c
    then fold_left (add string_dec) names (getProductsForCompany this c)
    else getProductsForCompany this c'.
Proof.
  revert this. induction names as [|n names IH]; intros this; cbn [fold_left].
  - destruct (string_dec c' c); congruence.
  - rewrite IH, !register_products.
    destruct (string_dec c' c) as [e|ne]; [|reflexivity].
    destruct (string_dec c c); congruence.
Qed.

Lemma line_registered (csvText line : string) :
  In line (tl (splitOn lineFeed csvText)) ->
  trim line <> EmptyString ->
  In (normalizeProductName line) (productsIn csvText).
Proof.
  intros Hin Hne. unfold productsIn. rewrite <- (normalize_trim line).
  apply in_map. apply filter_In. split; [apply in_map; exact Hin|].
  apply negb_true_iff, String.eqb_neq. exact Hne.
Qed.

End MapperFacts.

(** X13. The lookup of the mapper does not depend on the case of the
    ASCII letters nor on the white space around the name: normalising is
    idempotent, and a name, its trimmed form, its lower-case form and its
    normalised form all resolve to the same company. *)
Theorem lookup_ignores_case_and_blanks (this : CompanyMapper.t) (name : string) :
  CompanyMapper.normalizeProductName (CompanyMapper.normalizeProductName name)
  = CompanyMapper.normalizeProductName name
  /\ CompanyMapper.getCompanyForProduct this (CompanyMapper.trim name)
     = CompanyMapper.getCompanyForProduct this name
  /\ CompanyMapper.getCompanyForProduct this (CompanyMapper.toLowerCase name)
     = CompanyMapper.getCompanyForProduct this name
  /\ CompanyMapper.getCompanyForProduct this (CompanyMapper.normalizeProductName name)
     = CompanyMapper.getCompanyForProduct this name.
Proof.
  unfold CompanyMapper.getCompanyForProduct. cbv zeta.
  rewrite normalize_trim, normalize_toLowerCase,
    normalize_idempotent.
  repeat split; reflexivity.
Qed.

(** X14. [parseCSV] round trip: after a CSV text is parsed for a company,
    every line of the text after the header that is not blank resolves to
    that company, as it is written and in any case, and its normalised
    form is among the products of the company. *)
Theorem parsed_lines_resolve (this : CompanyMapper.t) (csvText companyName : string) :
  let this' := CompanyMapper.parseCSV this csvText companyName in
  Forall (fun line =>
            CompanyMapper.trim line <> EmptyString ->
            CompanyMapper.getCompanyForProduct this' line = Some companyName
            /\ In (CompanyMapper.normalizeProductName line)
                  (CompanyMapper.getProductsForCompany this' companyName))
         (tl (CompanyMapper.splitOn CompanyMapper.lineFeed csvText)).
Proof.
  cbv zeta. apply Forall_forall. intros line Hin Hne.
  pose proof (line_registered csvText line Hin Hne) as Hreg.
  rewrite parseCSV_fold. split.
  - unfold CompanyMapper.getCompanyForProduct. cbv zeta.
    rewrite registered_company.
    destruct (in_dec string_dec _ _); [reflexivity | contradiction].
  - rewrite registered_products.
    destruct (string_dec companyName companyName); [|congruence].
    apply (uniqFrom_In string_dec). right. exact Hreg.
Qed.

(** X15. What [parseCSV] leaves alone: a name whose normalised form is not
    registered by the text resolves as before; the product list of every
    other company is unchanged, so a product that moves to the company of
    a later file stays in the list of the earlier one; and the list of the
    company itself grows by the registered names, in order, each once. *)
Theorem parse_keeps_the_rest (this : CompanyMapper.t) (csvText companyName : string) :
  let this' := CompanyMapper.parseCSV this csvText companyName in
  (forall name,
      ~ In (CompanyMapper.normalizeProductName name) (productsIn csvText) ->
      CompanyMapper.getCompanyForProduct this' name
      = CompanyMapper.getCompanyForProduct this name)
  /\ (forall other,
         other <> companyName ->
         CompanyMapper.getProductsForCompany this' other
         = CompanyMapper.getProductsForCompany this other)
  /\ CompanyMapper.getProductsForCompany this' companyName
     = uniqFrom string_dec (CompanyMapper.getProductsForCompany this companyName)
                (productsIn csvText).
Proof.
  cbv zeta. rewrite parseCSV_fold. split; [|split].
  - intros name Hn. unfold CompanyMapper.getCompanyForProduct. cbv zeta.
    rewrite registered_company.
    destruct (in_dec string_dec _ _); [contradiction | reflexivity].
  - intros other Hne. rewrite registered_products.
    destruct (string_dec other companyName); [contradiction | reflexivity].
  - rewrite registered_products.
    destruct (string_dec companyName companyName); [reflexivity | congruence].
Qed.

(** ** Velocity metrics of a product *)

Lemma velocityMapOf_fold (salesData : list DailySales) :
  velocityMapOf salesData
  = fold_left (accStep (fun dr => ITNAME (snd dr))
                 (fun dr => {| VelocityAcc.qty := 0; VelocityAcc.amount := 0;
                               VelocityAcc.dates := [];
                               VelocityAcc.company := company (snd dr) |})
                 addVelocity)
              (allRecords salesData) [].
Proof. unfold velocityMapOf. rewrite forEachRecord_allRecords. reflexivity. Qed.

Lemma addVelocity_fold (rs : list (DailySales * SalesRecord)) (acc : VelocityAcc.t) :
  VelocityAcc.qty (fold_left addVelocity rs acc)
  == VelocityAcc.qty acc + Qsum (map (fun dr => QTY (snd dr)) rs)
  /\ VelocityAcc.amount (fold_left addVelocity rs acc)
     == VelocityAcc.amount acc + Qsum (map (fun dr => TAXBLEAMT (snd dr)) rs)
  /\ VelocityAcc.dates (fold_left addVelocity rs acc)
     = uniqFrom Z.eq_dec (VelocityAcc.dates acc) (map (fun dr => date (fst dr)) rs).
Proof.
  revert acc. induction rs as [|r rs IH]; intros acc; simpl.
  - repeat split; ring.
  - destruct (IH (addVelocity acc r)) as [Hq [Ha Hd]].
    rewrite Hq, Ha, Hd. simpl. repeat split; ring.
Qed.

Lemma velocityMapOf_entry (salesData : list DailySales) (name : string)
    (data : VelocityAcc.t) :
  In (name, data) (velocityMapOf salesData) ->
  let prs := filter (soldAs name) (allRecords salesData) in
  prs <> []
  /\ VelocityAcc.qty data == Qsum (map (fun dr => QTY (snd dr)) prs)
  /\ VelocityAcc.amount data == Qsum (map (fun dr => TAXBLEAMT (snd dr)) prs)
  /\ VelocityAcc.dates data = uniq Z.eq_dec (map (fun dr => date (fst dr)) prs).
Proof.
  intros Hin. apply in_map_get in Hin.
  2:{ rewrite velocityMapOf_keys. apply uniq_NoDup. }
  rewrite velocityMapOf_fold, accFold_get in Hin.
  fold (soldAs name) in Hin. simpl get in Hin. cbv zeta.
  destruct (filter (soldAs name) (allRecords salesData)) as [|r0 rest]; [discriminate|].
  injection Hin as E. split; [discriminate|]. simpl orElse in E.
  match type of E with
  | fold_left addVelocity ?l ?a = _ =>
      destruct (addVelocity_fold l a) as [Hq [Ha Hd]]
  end.
  rewrite E in Hq, Ha, Hd. rewrite Hq, Ha, Hd. simpl. repeat split; ring.
Qed.

Lemma In_mapiFrom {A B : Type} (f : A -> nat -> B) (l : list A) (i : nat) (y : B) :
  In y (mapiFrom i f l) -> exists x j, In x l /\ y = f x j.
Proof.
  revert i. induction l as [|x l IH]; intros i H; [destruct H|].
  destruct H as [E|H].
  - exists x, i. split; [left; reflexivity | congruence].
  - destruct (IH _ H) as [x' [j [Hx E]]]. exists x', j. split; [right|]; assumption.
Qed.

Lemma velocity_entry (salesData : list DailySales) (v : ProductVelocityMetrics.t) :
  In v (calculateProductVelocity salesData) ->
  exists data i,
    In (ProductVelocityMetrics.productName v, data) (velocityMapOf salesData)
    /\ ProductVelocityMetrics.totalQty v = VelocityAcc.qty data
    /\ ProductVelocityMetrics.totalAmount v = VelocityAcc.amount data
    /\ ProductVelocityMetrics.company v = VelocityAcc.company data
    /\ ProductVelocityMetrics.daysActive v = List.length (VelocityAcc.dates data)
    /\ ProductVelocityMetrics.dailyVelocity v
       = (if (0 <? List.length (VelocityAcc.dates data))%nat
          then VelocityAcc.qty data / ofNat (List.length (VelocityAcc.dates data))
          else 0)
    /\ ProductVelocityMetrics.weeklyVelocity v
       = ProductVelocityMetrics.dailyVelocity v * 7
    /\ ProductVelocityMetrics.rank v = (i + 1)%nat
    /\ ProductVelocityMetrics.classification v
       = classify (List.length (productNames salesData)) i.
Proof.
  rewrite calculateProductVelocity_unfold. unfold mapi. intros H.
  apply In_mapiFrom in H. destruct H as [m [i [Hm E]]].
  unfold rankedMetrics in Hm. eapply Permutation_in in Hm; [|apply sort_perm].
  apply in_map_iff in Hm. destruct Hm as [[k data] [Em Hin]].
  exists data, i. subst v m. cbn -[Qdiv Qmult ofNat Nat.ltb].
  repeat split; try reflexivity. exact Hin.
Qed.

(** X16. The metrics of each product in [calculateProductVelocity]: the
    quantity and the amount are the sums over the records of the product;
    the days active are the distinct dates of the batches that hold these
    records, at least one; the daily velocity is the quantity divided by
    the days active and the weekly velocity seven times the daily one. *)
Theorem velocity_metrics_of_product (salesData : list DailySales) :
  Forall (fun v =>
            let prs := filter (soldAs (ProductVelocityMetrics.productName v))
                              (allRecords salesData) in
            ProductVelocityMetrics.totalQty v
            == Qsum (map (fun dr => QTY (snd dr)) prs)
            /\ ProductVelocityMetrics.totalAmount v
               == Qsum (map (fun dr => TAXBLEAMT (snd dr)) prs)
            /\ ProductVelocityMetrics.daysActive v
               = List.length (uniq Z.eq_dec (map (fun dr => date (fst dr)) prs))
            /\ (1 <= ProductVelocityMetrics.daysActive v)%nat
            /\ ProductVelocityMetrics.dailyVelocity v
               == ProductVelocityMetrics.totalQty v
                  / ofNat (ProductVelocityMetrics.daysActive v)
            /\ ProductVelocityMetrics.weeklyVelocity v
               == ProductVelocityMetrics.dailyVelocity v * 7)
         (calculateProductVelocity salesData).
Proof.
  apply Forall_forall. intros v Hv. cbv zeta.
  destruct (velocity_entry salesData v Hv)
    as [data [i [Hin [Eq [Ea [_ [Ed [Ev [Ew _]]]]]]]]].
  destruct (velocityMapOf_entry salesData _ data Hin) as [Hne [Hq [Ha Hd]]].
  set (prs := filter (soldAs (ProductVelocityMetrics.productName v))
                     (allRecords salesData)) in *.
  assert (Hpos : (1 <= List.length (VelocityAcc.dates data))%nat).
  { rewrite Hd.
    destruct (uniq Z.eq_dec (map (fun dr => date (fst dr)) prs)) eqn:Eu; [|simpl; lia].
    exfalso. destruct prs as [|p prs']; [congruence|].
    assert (Hp : In (date (fst p))
                    (uniq Z.eq_dec (map (fun dr => date (fst dr)) (p :: prs'))))
      by (apply uniq_In; left; reflexivity).
    rewrite Eu in Hp. destruct Hp. }
  rewrite Ew, Ev, Eq, Ea, Ed, <- Hd.
  replace (0 <? List.length (VelocityAcc.dates data))%nat with true
    by (symmetry; apply Nat.ltb_lt; lia).
  repeat split; try assumption; reflexivity.
Qed.

Lemma seq_sorted {B : Type} (R : B -> B -> Prop) (f : nat -> B) (n i : nat) :
  (forall a b, (a < b)%nat -> R (f a) (f b)) ->
  StronglySorted R (map f (seq i n)).
Proof.
  intros H. revert i. induction n as [|n IH]; intros i; simpl; constructor.
  - apply IH.
  - apply Forall_forall. intros y Hy. apply in_map_iff in Hy.
    destruct Hy as [j [E Hj]]. subst y. apply in_seq in Hj. apply H. lia.
Qed.

Lemma classify_monotone (total a b : nat) :
  (a < b)%nat -> (classRank (classify total a) <= classRank (classify total b))%nat.
Proof.
  intros H. unfold classify.
  destruct (Z.ltb_spec (Z.of_nat a) (fastThreshold total));
    destruct (Z.ltb_spec (Z.of_nat b) (fastThreshold total));
    destruct (Z.ltb_spec (Z.of_nat a) (mediumThreshold total));
    destruct (Z.ltb_spec (Z.of_nat b) (mediumThreshold total));
    simpl; lia.
Qed.

(** X17. In the output of [calculateProductVelocity] the class of a
    product is the class of its position, rank minus one, among the [N]
    products, and the classes never get faster down the list: all fast
    products come first, then the medium ones, then the slow ones. *)
Theorem classes_follow_ranks (salesData : list DailySales) :
  let out := calculateProductVelocity salesData in
  let N := List.length (productNames salesData) in
  Forall (fun v =>
            ProductVelocityMetrics.classification v
            = classify N (ProductVelocityMetrics.rank v - 1))
         out
  /\ StronglySorted (fun a b => (classRank a <= classRank b)%nat)
       (map ProductVelocityMetrics.classification out).
Proof.
  cbv zeta. split.
  - apply Forall_forall. intros v Hv.
    destruct (velocity_entry salesData v Hv)
      as [data [i [_ [_ [_ [_ [_ [_ [_ [Er Ec]]]]]]]]]].
    rewrite Ec, Er. f_equal. lia.
  - rewrite velocity_classes. apply seq_sorted. apply classify_monotone.
Qed.

(** ** Period split, any period *)

Lemma latestDate_max (salesData : list DailySales) :
  salesData <> [] ->
  In (latestDate salesData) (map date salesData)
  /\ Forall (fun b => (date b <= latestDate salesData)%Z) salesData.
Proof.
  intros Hne. unfold latestDate.
  assert (Hd : sortedDates salesData <> []).
  { destruct salesData as [|b bs]; [congruence|]. intros E.
    assert (H : In (date b) (sortedDates (b :: bs)))
      by (apply sortedDates_In; left; reflexivity).
    rewrite E in H. destruct H. }
  split.
  - apply sortedDates_In, last_In, Hd.
  - apply Forall_forall. intros b Hb.
    apply sorted_last_max; [apply sortedDates_sorted|].
    apply sortedDates_In, in_map, Hb.
Qed.

Lemma splitDataByPeriod_windows (tz : Z) (salesData : list DailySales)
    (periodType : PeriodType) :
  let n := periodDays periodType in
  let latest := latestDate salesData in
  splitDataByPeriod (JsDate.fixedOffset tz) salesData periodType
  = {| current := filter (fun b => andb (latest - (n - 1) <=? date b)%Z
                                        (date b <=? latest)%Z) salesData;
       previous := filter (fun b => andb (latest - (2 * n - 1) <=? date b)%Z
                                         (date b <=? latest - n)%Z) salesData |}.
Proof.
  cbv zeta. unfold splitDataByPeriod, latestDate.
  destruct salesData as [|b0 bs] eqn:Es; [reflexivity|]. rewrite <- Es.
  assert (Hd : sortedDates salesData <> []).
  { intros E. assert (H : In (date b0) (sortedDates salesData))
      by (apply sortedDates_In; rewrite Es; left; reflexivity).
    rewrite E in H. destruct H. }
  destruct (sortedDates salesData) as [|d0 ds] eqn:Ed; [congruence|].
  fold (periodDays periodType).
  rewrite !addDays_spec.
  set (latest := last (d0 :: ds) 0%Z). set (n := periodDays periodType).
  replace (JsDate.parse latest + - (n - 1) * JsDate.msPerDay + -1 * JsDate.msPerDay
           + - (n - 1) * JsDate.msPerDay)%Z
    with (JsDate.parse latest + (- (2 * n - 1)) * JsDate.msPerDay)%Z by lia.
  replace (JsDate.parse latest + - (n - 1) * JsDate.msPerDay
           + -1 * JsDate.msPerDay)%Z
    with (JsDate.parse latest + (- n) * JsDate.msPerDay)%Z by lia.
  rewrite !toISODate_parse.
  replace (latest + - (n - 1))%Z with (latest - (n - 1))%Z by lia.
  replace (latest + - (2 * n - 1))%Z with (latest - (2 * n - 1))%Z by lia.
  replace (latest + - n)%Z with (latest - n)%Z by lia.
  reflexivity.
Qed.

(** X18. [splitDataByPeriod] for a week (7 days) or a month (30 days),
    with [latest] the latest batch date: the current period holds the
    batches of the last [n] days up to [latest], the previous period the
    batches of the [n] days before; no batch is in both; the batches of the
    latest date are always in the current period; without batches both
    periods are empty. *)
Theorem period_split_windows (tz : Z) (salesData : list DailySales)
    (periodType : PeriodType) :
  let n := periodDays periodType in
  let latest := latestDate salesData in
  let p := splitDataByPeriod (JsDate.fixedOffset tz) salesData periodType in
  (forall b, In b (current p)
             <-> In b salesData /\ (latest - n < date b)%Z)
  /\ (forall b, In b (previous p)
                <-> In b salesData /\ (latest - 2 * n < date b <= latest - n)%Z)
  /\ (forall b, In b (current p) -> ~ In b (previous p))
  /\ (forall b, In b salesData -> date b = latest -> In b (current p))
  /\ (salesData <> [] -> exists b, In b salesData /\ date b = latest)
  /\ (salesData = [] -> current p = [] /\ previous p = []).
Proof.
  cbv zeta. rewrite splitDataByPeriod_windows. cbn [current previous].
  assert (Hn : (0 < periodDays periodType)%Z) by (destruct periodType; simpl; lia).
  assert (Hmax : forall b, In b salesData -> (date b <= latestDate salesData)%Z).
  { intros b Hb. destruct salesData as [|b0 bs]; [destruct Hb|].
    destruct (latestDate_max (b0 :: bs)) as [_ H]; [discriminate|].
    rewrite Forall_forall in H. apply H, Hb. }
  assert (Hc : forall b, In b (filter (fun b => andb (latestDate salesData
                                                       - (periodDays periodType - 1)
                                                       <=? date b)%Z
                                                    (date b <=? latestDate salesData)%Z)
                                      salesData)
                         <-> In b salesData
                             /\ (latestDate salesData - periodDays periodType < date b)%Z).
  { intros b. rewrite filter_In, andb_true_iff, !Z.leb_le. split.
    - intros [H1 H2]. split; [exact H1 | lia].
    - intros [H1 H2]. pose proof (Hmax b H1). repeat split; [exact H1 | lia | lia]. }
  assert (Hp : forall b, In b (filter (fun b => andb (latestDate salesData
                                                       - (2 * periodDays periodType - 1)
                                                       <=? date b)%Z
                                                    (date b <=? latestDate salesData
                                                                - periodDays periodType)%Z)
                                      salesData)
                         <-> In b salesData
                             /\ (latestDate salesData - 2 * periodDays periodType
                                 < date b
                                 <= latestDate salesData - periodDays periodType)%Z).
  { intros b. rewrite filter_In, andb_true_iff, !Z.leb_le. split.
    - intros [H1 H2]. split; [exact H1 | lia].
    - intros [H1 H2]. repeat split; [exact H1 | lia | lia]. }
  split; [exact Hc|]. split; [exact Hp|]. split; [|split; [|split]].
  - intros b H1 H2. apply Hc in H1. apply Hp in H2. lia.
  - intros b Hb E. apply Hc. split; [exact Hb | lia].
  - intros Hne. destruct (latestDate_max salesData Hne) as [Hin _].
    apply in_map_iff in Hin. destruct Hin as [b [E Hb]]. exists b. split; assumption.
  - intros E. rewrite E. split; reflexivity.
Qed.

(** ** Period comparison, product by product *)

Lemma mapFromPairs_absent {V : Type} (pairs : list (string * V))
    (m : Map string V) (k : string) :
  ~ In k (map fst pairs) ->
  get string_dec (fold_left (fun m kv => set string_dec m (fst kv) (snd kv)) pairs m) k
  = get string_dec m k.
Proof.
  revert m. induction pairs as [|[k0 v0] pairs IH]; intros m Hk; [reflexivity|].
  simpl in *. rewrite IH by tauto. apply get_set_other. intros E. apply Hk. left.
  congruence.
Qed.

Lemma mapFromPairs_present {V : Type} (pairs : list (string * V))
    (m : Map string V) (k : string) (v : V) :
  NoDup (map fst pairs) -> In (k, v) pairs ->
  get string_dec (fold_left (fun m kv => set string_dec m (fst kv) (snd kv)) pairs m) k
  = Some v.
Proof.
  revert m. induction pairs as [|[k0 v0] pairs IH]; intros m Hn Hin; [destruct Hin|].
  simpl in *. inversion Hn as [|? ? Hk Hn']; subst.
  destruct Hin as [E|Hin].
  - inversion E; subst. rewrite mapFromPairs_absent by exact Hk. apply get_set_same.
  - apply IH; assumption.
Qed.

Lemma velocity_names_NoDup (salesData : list DailySales) :
  NoDup (map ProductVelocityMetrics.productName (calculateProductVelocity salesData)).
Proof.
  eapply Permutation_NoDup; [apply Permutation_sym, velocity_names|].
  apply uniq_NoDup.
Qed.

Lemma velocity_names_In (salesData : list DailySales) (name : string) :
  In name (map ProductVelocityMetrics.productName (calculateProductVelocity salesData))
  <-> In name (productNames salesData).
Proof.
  split; intros H.
  - eapply Permutation_in; [apply velocity_names | exact H].
  - eapply Permutation_in; [apply Permutation_sym, velocity_names | exact H].
Qed.

Section Lookups.
Context {V : Type} (f : ProductVelocityMetrics.t -> V).

Lemma metricMap_present (salesData : list DailySales) (v : ProductVelocityMetrics.t) :
  In v (calculateProductVelocity salesData) ->
  get string_dec
      (mapFromPairs (map (fun v => (ProductVelocityMetrics.productName v, f v))
                         (calculateProductVelocity salesData)))
      (ProductVelocityMetrics.productName v)
  = Some (f v).
Proof.
  intros Hv. unfold mapFromPairs. apply mapFromPairs_present.
  - rewrite map_map. apply velocity_names_NoDup.
  - apply in_map_iff. exists v. split; [reflexivity | exact Hv].
Qed.

Lemma metricMap_absent (salesData : list DailySales) (name : string) :
  ~ In name (productNames salesData) ->
  get string_dec
      (mapFromPairs (map (fun v => (ProductVelocityMetrics.productName v, f v))
                         (calculateProductVelocity salesData)))
      name
  = None.
Proof.
  intros Hn. unfold mapFromPairs. rewrite mapFromPairs_absent; [reflexivity|].
  rewrite map_map. intros H. apply Hn, velocity_names_In. exact H.
Qed.
End Lookups.

Lemma compareProduct_shape (currentMap : Map string ProductVelocityMetrics.t)
    (previousMap : Map string Q) (previousVelocity : list ProductVelocityMetrics.t)
    (name : string) :
  Forall (fun c => VelocityChange.productName c = name)
         (compareProduct currentMap previousMap previousVelocity name)
  /\ (List.length (compareProduct currentMap previousMap previousVelocity name) <= 1)%nat.
Proof.
  unfold compareProduct.
  destruct (get string_dec currentMap name);
    destruct (truthyNumber (get string_dec previousMap name)); simpl;
    split; repeat constructor.
Qed.

Lemma flat_map_names {A : Type} (f : string -> list A) (g : A -> string)
    (l : list string) :
  (forall x, Forall (fun c => g c = x) (f x) /\ (List.length (f x) <= 1)%nat) ->
  NoDup l -> NoDup (map g (flat_map f l)).
Proof.
  intros Hf. induction 1 as [|x l Hx Hl IH]; simpl; [constructor|].
  rewrite map_app. destruct (Hf x) as [Hg Hlen].
  destruct (f x) as [|c [|c' cs]]; simpl in *; [exact IH | | lia].
  constructor; [|exact IH]. inversion Hg; subst.
  intros Hin. apply in_map_iff in Hin. destruct Hin as [c2 [E Hc2]].
  apply in_flat_map in Hc2. destruct Hc2 as [y [Hy Hc2]].
  destruct (Hf y) as [Hgy _]. rewrite Forall_forall in Hgy.
  apply Hgy in Hc2. apply Hx. congruence.
Qed.

Lemma find_by_name (l : list ProductVelocityMetrics.t) (v : ProductVelocityMetrics.t) :
  NoDup (map ProductVelocityMetrics.productName l) -> In v l ->
  find (fun x => String.eqb (ProductVelocityMetrics.productName x)
                            (ProductVelocityMetrics.productName v)) l
  = Some v.
Proof.
  induction l as [|x l IH]; intros Hn Hin; [destruct Hin|].
  simpl in *. inversion Hn as [|? ? Hx Hn']; subst.
  destruct Hin as [E|Hin].
  - subst. rewrite String.eqb_refl. reflexivity.
  - destruct (String.eqb_spec (ProductVelocityMetrics.productName x)
                              (ProductVelocityMetrics.productName v)) as [E|_].
    + exfalso. apply Hx. rewrite E. apply in_map, Hin.
    + apply IH; assumption.
Qed.

Lemma allProducts_In (currentPeriod previousPeriod : list DailySales) (name : string) :
  In name (uniq string_dec
             (map ProductVelocityMetrics.productName
                  (calculateProductVelocity currentPeriod)
              ++ map ProductVelocityMetrics.productName
                     (calculateProductVelocity previousPeriod)))
  <-> In name (productNames currentPeriod) \/ In name (productNames previousPeriod).
Proof. rewrite uniq_In, in_app_iff, !velocity_names_In. reflexivity. Qed.

(** X19. [compareVelocityPeriods] reports each product at most once. A
    product sold in the current period only is reported with a change of
    100 percent, accelerating, gainer, against a previous velocity of 0. A
    product sold in the previous period only is reported with a change of
    -100 percent, decelerating, loser, with the company it had in the
    previous period, unless its previous velocity is zero: then it is not
    reported at all. *)
Theorem new_and_lost_products (currentPeriod previousPeriod : list DailySales) :
  let out := compareVelocityPeriods currentPeriod previousPeriod in
  NoDup (map VelocityChange.productName out)
  /\ Forall (fun c => In (VelocityChange.productName c) (productNames currentPeriod)
                      \/ In (VelocityChange.productName c)
                            (productNames previousPeriod)) out
  /\ Forall (fun v =>
               ~ In (ProductVelocityMetrics.productName v)
                    (productNames previousPeriod) ->
               In {| VelocityChange.productName := ProductVelocityMetrics.productName v;
                     VelocityChange.company := ProductVelocityMetrics.company v;
                     VelocityChange.currentVelocity :=
                       ProductVelocityMetrics.dailyVelocity v;
                     VelocityChange.previousVelocity := 0;
                     VelocityChange.changePercent := 100;
                     VelocityChange.changeAbsolute :=
                       ProductVelocityMetrics.dailyVelocity v;
                     VelocityChange.trend := accelerating;
                     VelocityChange.classification := gainer |} out)
            (calculateProductVelocity currentPeriod)
  /\ Forall (fun v =>
               ~ In (ProductVelocityMetrics.productName v)
                    (productNames currentPeriod) ->
               if Qeq_bool (ProductVelocityMetrics.dailyVelocity v) 0
               then ~ In (ProductVelocityMetrics.productName v)
                         (map VelocityChange.productName out)
               else
                 In {| VelocityChange.productName :=
                         ProductVelocityMetrics.productName v;
                       VelocityChange.company := ProductVelocityMetrics.company v;
                       VelocityChange.currentVelocity := 0;
                       VelocityChange.previousVelocity :=
                         ProductVelocityMetrics.dailyVelocity v;
                       VelocityChange.changePercent := -100;
                       VelocityChange.changeAbsolute :=
                         - ProductVelocityMetrics.dailyVelocity v;
                       VelocityChange.trend := decelerating;
                       VelocityChange.classification := loser |} out)
            (calculateProductVelocity previousPeriod).
Proof.
  cbv zeta. unfold compareVelocityPeriods.
  set (previousMap := mapFromPairs (map (fun v => (ProductVelocityMetrics.productName v,
                                                   ProductVelocityMetrics.dailyVelocity v))
                                        (calculateProductVelocity previousPeriod))).
  set (currentMap := mapFromPairs (map (fun v => (ProductVelocityMetrics.productName v, v))
                                       (calculateProductVelocity currentPeriod))).
  set (allProducts := uniq string_dec _).
  split; [|split; [|split]].
  - apply flat_map_names; [intros x; apply compareProduct_shape | apply uniq_NoDup].
  - apply Forall_forall. intros c Hc. apply in_flat_map in Hc.
    destruct Hc as [name [Hname Hc]].
    destruct (compareProduct_shape currentMap previousMap
                (calculateProductVelocity previousPeriod) name) as [Hg _].
    rewrite Forall_forall in Hg. rewrite (Hg c Hc).
    apply allProducts_In. exact Hname.
  - apply Forall_forall. intros v Hv Hn. apply in_flat_map.
    exists (ProductVelocityMetrics.productName v). split.
    + apply allProducts_In. left. apply velocity_names_In, in_map, Hv.
    + unfold compareProduct. unfold currentMap, previousMap.
      rewrite (metricMap_present (fun v => v) currentPeriod v Hv).
      rewrite (metricMap_absent ProductVelocityMetrics.dailyVelocity previousPeriod _ Hn).
      left. reflexivity.
  - apply Forall_forall. intros v Hv Hn.
    assert (Hcmp : compareProduct currentMap previousMap
                     (calculateProductVelocity previousPeriod)
                     (ProductVelocityMetrics.productName v)
                   = if Qeq_bool (ProductVelocityMetrics.dailyVelocity v) 0 then []
                     else [ {| VelocityChange.productName :=
                                 ProductVelocityMetrics.productName v;
                               VelocityChange.company := ProductVelocityMetrics.company v;
                               VelocityChange.currentVelocity := 0;
                               VelocityChange.previousVelocity :=
                                 ProductVelocityMetrics.dailyVelocity v;
                               VelocityChange.changePercent := -100;
                               VelocityChange.changeAbsolute :=
                                 - ProductVelocityMetrics.dailyVelocity v;
                               VelocityChange.trend := decelerating;
                               VelocityChange.classification := loser |} ]).
    { unfold compareProduct. unfold currentMap, previousMap.
      rewrite (metricMap_absent (fun v => v) currentPeriod _ Hn).
      rewrite (metricMap_present ProductVelocityMetrics.dailyVelocity previousPeriod v Hv).
      rewrite (find_by_name _ v (velocity_names_NoDup previousPeriod) Hv).
      simpl. destruct (Qeq_bool (ProductVelocityMetrics.dailyVelocity v) 0); reflexivity. }
    destruct (Qeq_bool (ProductVelocityMetrics.dailyVelocity v) 0).
    + intros Hin. apply in_map_iff in Hin. destruct Hin as [c [Ec Hc]].
      apply in_flat_map in Hc. destruct Hc as [name [_ Hc]].
      destruct (compareProduct_shape currentMap previousMap
                  (calculateProductVelocity previousPeriod) name) as [Hg _].
      rewrite Forall_forall in Hg. pose proof (Hg c Hc) as En.
      rewrite Ec in En. subst name. rewrite Hcmp in Hc. destruct Hc.
    + apply in_flat_map. exists (ProductVelocityMetrics.productName v). split.
      * apply allProducts_In. right. apply velocity_names_In, in_map, Hv.
      * rewrite Hcmp. left. reflexivity.
Qed.

(** X20. A product sold in both periods with a previous velocity other
    than zero is reported with the difference of the two velocities; the
    change in percent is that difference over the previous velocity when
    the previous velocity is positive, and 0 when it is negative; it is a
    gainer above 15 percent and a loser below -15, accelerating above 5
    and decelerating below -5. *)
Theorem continuing_product_change (currentPeriod previousPeriod : list DailySales)
    (cur prev : ProductVelocityMetrics.t) :
  In cur (calculateProductVelocity currentPeriod) ->
  In prev (calculateProductVelocity previousPeriod) ->
  ProductVelocityMetrics.productName prev = ProductVelocityMetrics.productName cur ->
  ~ ProductVelocityMetrics.dailyVelocity prev == 0 ->
  exists c,
    In c (compareVelocityPeriods currentPeriod previousPeriod)
    /\ VelocityChange.productName c = ProductVelocityMetrics.productName cur
    /\ VelocityChange.company c = ProductVelocityMetrics.company cur
    /\ VelocityChange.currentVelocity c = ProductVelocityMetrics.dailyVelocity cur
    /\ VelocityChange.previousVelocity c = ProductVelocityMetrics.dailyVelocity prev
    /\ VelocityChange.changeAbsolute c
       = ProductVelocityMetrics.dailyVelocity cur
         - ProductVelocityMetrics.dailyVelocity prev
    /\ (0 < ProductVelocityMetrics.dailyVelocity prev ->
        VelocityChange.changePercent c
        == (ProductVelocityMetrics.dailyVelocity cur
            - ProductVelocityMetrics.dailyVelocity prev)
           / ProductVelocityMetrics.dailyVelocity prev * 100)
    /\ (ProductVelocityMetrics.dailyVelocity prev < 0 ->
        VelocityChange.changePercent c == 0)
    /\ (VelocityChange.classification c = gainer
        <-> 15 < VelocityChange.changePercent c)
    /\ (VelocityChange.classification c = loser
        <-> VelocityChange.changePercent c < -15)
    /\ (VelocityChange.trend c = accelerating
        <-> 5 < VelocityChange.changePercent c)
    /\ (VelocityChange.trend c = decelerating
        <-> VelocityChange.changePercent c < -5).
Proof.
  intros Hc Hp En Hz.
  assert (Hcmp : exists c,
             compareProduct
               (mapFromPairs (map (fun v => (ProductVelocityMetrics.productName v, v))
                                  (calculateProductVelocity currentPeriod)))
               (mapFromPairs (map (fun v => (ProductVelocityMetrics.productName v,
                                             ProductVelocityMetrics.dailyVelocity v))
                                  (calculateProductVelocity previousPeriod)))
               (calculateProductVelocity previousPeriod)
               (ProductVelocityMetrics.productName cur) = [c]
             /\ VelocityChange.productName c = ProductVelocityMetrics.productName cur
             /\ VelocityChange.company c = ProductVelocityMetrics.company cur
             /\ VelocityChange.currentVelocity c = ProductVelocityMetrics.dailyVelocity cur
             /\ VelocityChange.previousVelocity c
                = ProductVelocityMetrics.dailyVelocity prev
             /\ VelocityChange.changeAbsolute c
                = ProductVelocityMetrics.dailyVelocity cur
                  - ProductVelocityMetrics.dailyVelocity prev
             /\ VelocityChange.changePercent c
                = (if Qlt_le_dec 0 (ProductVelocityMetrics.dailyVelocity prev)
                   then (ProductVelocityMetrics.dailyVelocity cur
                         - ProductVelocityMetrics.dailyVelocity prev)
                        / ProductVelocityMetrics.dailyVelocity prev * 100
                   else 0)
             /\ VelocityChange.classification c
                = (if Qlt_le_dec 15 (VelocityChange.changePercent c) then gainer
                   else if Qlt_le_dec (VelocityChange.changePercent c) (-15) then loser
                   else stable)
             /\ VelocityChange.trend c
                = (if Qlt_le_dec 5 (VelocityChange.changePercent c) then accelerating
                   else if Qlt_le_dec (VelocityChange.changePercent c) (-5)
                        then decelerating
                   else stableTrend)).
  { unfold compareProduct.
    rewrite (metricMap_present (fun v => v) currentPeriod cur Hc).
    rewrite <- En.
    rewrite (metricMap_present ProductVelocityMetrics.dailyVelocity previousPeriod prev Hp).
    rewrite En. cbn [truthyNumber orElse].
    destruct (Qeq_bool (ProductVelocityMetrics.dailyVelocity prev) 0) eqn:Ez.
    - apply Qeq_bool_iff in Ez. contradiction.
    - cbn [negb]. eexists. split; [reflexivity|]. cbn. repeat split; reflexivity. }
  destruct Hcmp as [c [Hcmp [H1 [H2 [H3 [H4 [H5 [H6 [H7 H8]]]]]]]]].
  exists c. split.
  - unfold compareVelocityPeriods. apply in_flat_map.
    exists (ProductVelocityMetrics.productName cur). split.
    + apply allProducts_In. left. apply velocity_names_In, in_map, Hc.
    + rewrite Hcmp. left. reflexivity.
  - repeat match goal with |- _ /\ _ => split end; try assumption.
    + intros Hpos. rewrite H6.
      destruct (Qlt_le_dec 0 (ProductVelocityMetrics.dailyVelocity prev));
        [reflexivity | exfalso; lra].
    + intros Hneg. rewrite H6.
      destruct (Qlt_le_dec 0 (ProductVelocityMetrics.dailyVelocity prev));
        [exfalso; lra | reflexivity].
    + rewrite H7. destruct (Qlt_le_dec 15 (VelocityChange.changePercent c)) as [L|L];
        [tauto|].
      split; [|intros; exfalso; lra].
      destruct (Qlt_le_dec (VelocityChange.changePercent c) (-15)); discriminate.
    + rewrite H7. destruct (Qlt_le_dec 15 (VelocityChange.changePercent c)) as [L|L].
      * split; [discriminate | intros; exfalso; lra].
      * destruct (Qlt_le_dec (VelocityChange.changePercent c) (-15)) as [L'|L'];
          [tauto|]. split; [discriminate | intros; exfalso; lra].
    + rewrite H8. destruct (Qlt_le_dec 5 (VelocityChange.changePercent c)) as [L|L];
        [tauto|].
      split; [|intros; exfalso; lra].
      destruct (Qlt_le_dec (VelocityChange.changePercent c) (-5)); discriminate.
    + rewrite H8. destruct (Qlt_le_dec 5 (VelocityChange.changePercent c)) as [L|L].
      * split; [discriminate | intros; exfalso; lra].
      * destruct (Qlt_le_dec (VelocityChange.changePercent c) (-5)) as [L'|L'];
          [tauto|]. split; [discriminate | intros; exfalso; lra].
Qed.

Lemma continuing_product_change_witness :
  exists c,
    In c (compareVelocityPeriods twentyWeek tenWeek)
    /\ VelocityChange.productName c = "X"%string
    /\ VelocityChange.changePercent c == 100
    /\ VelocityChange.classification c = gainer.
Proof.
  destruct (continuing_product_change twentyWeek tenWeek
              (hd (velocityMetricOf (EmptyString,
                     {| VelocityAcc.qty := 0; VelocityAcc.amount := 0;
                        VelocityAcc.dates := []; VelocityAcc.company := None |}))
                  (calculateProductVelocity twentyWeek))
              (hd (velocityMetricOf (EmptyString,
                     {| VelocityAcc.qty := 0; VelocityAcc.amount := 0;
                        VelocityAcc.dates := []; VelocityAcc.company := None |}))
                  (calculateProductVelocity tenWeek)))
    as [c [Hin [Hn [_ [_ [_ [_ [Hp [_ [Hg _]]]]]]]]]].
  - vm_compute. left. reflexivity.
  - vm_compute. left. reflexivity.
  - vm_compute. reflexivity.
  - intros H. vm_compute in H. discriminate.
  - assert (Hc : VelocityChange.changePercent c == 100).
    { rewrite Hp; [vm_compute; reflexivity|]. vm_compute. reflexivity. }
    exists c. split; [exact Hin|]. split; [exact Hn|]. split; [exact Hc|].
    apply Hg. rewrite Hc. reflexivity.
Defined.

(** ** Moving averages, any series *)

Lemma round_percentage (x : Q) :
  0 <= x -> x <= 100 -> 0 <= inject_Z (round x) /\ inject_Z (round x) <= 100.
Proof.
  intros H0 H1. unfold round. split.
  - change 0 with (inject_Z 0). rewrite <- Zle_Qle.
    change 0%Z with (Qfloor (0 + (1 # 2))). apply Qfloor_resp_le. lra.
  - change 100 with (inject_Z 100). rewrite <- Zle_Qle.
    change 100%Z with (Qfloor (100 + (1 # 2))). apply Qfloor_resp_le. lra.
Qed.

Lemma ofNat_nonneg (n : nat) : 0 <= ofNat n.
Proof. unfold ofNat. change 0 with (inject_Z 0). rewrite <- Zle_Qle. lia. Qed.

Lemma sliceLast_app {A : Type} (older recent : list A) :
  recent <> [] -> sliceLast (List.length recent) (older ++ recent) = recent.
Proof.
  intros Hne. destruct recent as [|r rs]; [congruence|].
  unfold sliceLast. cbn [List.length]. rewrite length_app. cbn [List.length].
  replace (List.length older + S (List.length rs) - S (List.length rs))%nat
    with (List.length older) by lia.
  rewrite skipn_app, skipn_all, Nat.sub_diag. reflexivity.
Qed.

Section MovingAverage.
Variable sqrt : Q -> Q.

Lemma movingAverage_confidence (values : list Q) (i windowSize : nat) :
  0 <= confidence (calculateMovingAverage sqrt values i windowSize)
  /\ confidence (calculateMovingAverage sqrt values i windowSize) <= 100.
Proof.
  unfold calculateMovingAverage.
  destruct values as [|x0 xs] eqn:Ev; [simpl; split; lra|]. rewrite <- Ev.
  destruct (Nat.min windowSize (List.length values)) as [|k] eqn:Em;
    [simpl; split; lra|]. rewrite <- Em.
  cbv zeta. cbn [confidence].
  set (dq := Qmin (ofNat (Nat.min windowSize (List.length values)) / ofNat windowSize) 1
             * 100).
  set (vs := Qmax 0 _).
  assert (Hdq : 0 <= dq).
  { unfold dq.
    assert (0 <= ofNat (Nat.min windowSize (List.length values)) / ofNat windowSize).
    { apply Qle_shift_div_l; [apply ofNat_pos; lia|].
      rewrite Qmult_0_l. apply ofNat_nonneg. }
    destruct (Q.min_spec
                (ofNat (Nat.min windowSize (List.length values)) / ofNat windowSize) 1)
      as [[_ E]|[_ E]]; rewrite E; lra. }
  assert (Hvs : 0 <= vs) by apply Q.le_max_l.
  clearbody dq vs. apply round_percentage.
  - apply Q.min_glb; [|lra]. apply Qle_shift_div_l; [reflexivity | lra].
  - apply Q.le_min_r.
Qed.

Lemma movingAverage_window (older recent : list Q) (i j : nat) :
  calculateMovingAverage sqrt (older ++ recent) i (List.length recent)
  = calculateMovingAverage sqrt recent j (List.length recent).
Proof.
  destruct recent as [|r0 rs].
  - rewrite app_nil_r. destruct older; reflexivity.
  - assert (E3 : sliceLast (List.length (r0 :: rs)) (older ++ r0 :: rs) = r0 :: rs)
      by (apply sliceLast_app; discriminate).
    assert (E4 : sliceLast (List.length (r0 :: rs)) (r0 :: rs) = r0 :: rs)
      by (apply (sliceLast_app [] (r0 :: rs)); discriminate).
    unfold calculateMovingAverage.
    replace (Nat.min (List.length (r0 :: rs)) (List.length (older ++ r0 :: rs)))
      with (List.length (r0 :: rs)) by (rewrite length_app; lia).
    replace (Nat.min (List.length (r0 :: rs)) (List.length (r0 :: rs)))
      with (List.length (r0 :: rs)) by lia.
    rewrite E3, E4.
    destruct (older ++ r0 :: rs) eqn:Eo; [|reflexivity].
    destruct older; discriminate.
Qed.

Lemma ensemble_confidence (values : list Q) :
  0 <= confidence (ensembleMovingAverage sqrt values)
  /\ confidence (ensembleMovingAverage sqrt values) <= 100.
Proof.
  unfold ensembleMovingAverage. cbv zeta.
  destruct (Qeq_bool _ 0); [simpl; split; lra|]. cbn [confidence].
  cbn [map fold_left List.length].
  pose proof (movingAverage_confidence values (List.length values) 7) as [A1 A2].
  pose proof (movingAverage_confidence values (List.length values) 14) as [B1 B2].
  pose proof (movingAverage_confidence values (List.length values) 30) as [C1 C2].
  set (a := confidence (calculateMovingAverage sqrt values (List.length values) 7)) in *.
  set (b := confidence (calculateMovingAverage sqrt values (List.length values) 14)) in *.
  set (c := confidence (calculateMovingAverage sqrt values (List.length values) 30)) in *.
  clearbody a b c. change (ofNat 3) with 3. apply round_percentage.
  - apply Qle_shift_div_l; [reflexivity | lra].
  - apply Qle_shift_div_r; [reflexivity | lra].
Qed.
End MovingAverage.

(** X22. Whatever the square root returns, the confidence of
    [calculateMovingAverage] and of [ensembleMovingAverage] is a
    percentage, between 0 and 100; and the moving average reads the last
    [windowSize] values only: the values before them and the target index
    do not change the result. *)
Theorem moving_average_confidence_and_window (sqrt : Q -> Q) (older recent : list Q)
    (i j windowSize : nat) :
  (0 <= confidence (calculateMovingAverage sqrt recent i windowSize)
   /\ confidence (calculateMovingAverage sqrt recent i windowSize) <= 100)
  /\ (0 <= confidence (ensembleMovingAverage sqrt recent)
      /\ confidence (ensembleMovingAverage sqrt recent) <= 100)
  /\ calculateMovingAverage sqrt (older ++ recent) i (List.length recent)
     = calculateMovingAverage sqrt recent j (List.length recent).
Proof.
  split; [apply movingAverage_confidence|].
  split; [apply ensemble_confidence | apply movingAverage_window].
Qed.

(** ** Forecast of one series *)

Lemma Qmin_percentage (a b : Q) :
  0 <= a /\ a <= 100 -> 0 <= b /\ b <= 100 -> 0 <= Qmin a b /\ Qmin a b <= 100.
Proof.
  intros [A1 A2] [B1 B2]. split.
  - apply Q.min_glb; assumption.
  - eapply Qle_trans; [apply Q.le_min_l | exact A2].
Qed.

Lemma forecastProduct_throws (sqrt : Q -> Q) (zone : JsDate.Zone)
    (timeSeries : ProductTimeSeries.t) :
  forecastProduct sqrt zone timeSeries = Throw TypeError
  <-> ProductTimeSeries.dailyData timeSeries = [].
Proof.
  unfold forecastProduct. cbv zeta.
  destruct (rev (ProductTimeSeries.dailyData timeSeries)) as [|lastDay l] eqn:E.
  - split; [intros _|reflexivity].
    rewrite <- (rev_involutive (ProductTimeSeries.dailyData timeSeries)), E.
    reflexivity.
  - split; [discriminate|]. intros H. rewrite H in E. discriminate.
Qed.

Lemma forecastProduct_of_last (sqrt : Q -> Q) (tz : Z)
    (timeSeries : ProductTimeSeries.t) (earlier : list DayData) (day : DayData) :
  ProductTimeSeries.dailyData timeSeries = earlier ++ [day] ->
  exists f,
    forecastProduct sqrt (JsDate.fixedOffset tz) timeSeries = Ok f
    /\ ProductForecast.productName f = ProductTimeSeries.productName timeSeries
    /\ ProductForecast.company f = ProductTimeSeries.company timeSeries
    /\ targetDate (ProductForecast.oneDayForecast f) = (dayDate day + 1)%Z
    /\ targetDate (ProductForecast.sevenDayForecast f) = (dayDate day + 7)%Z
    /\ daysOfData (ProductForecast.historicalMetrics f) = S (List.length earlier)
    /\ (0 <= h_confidence (ProductForecast.oneDayForecast f)
        /\ h_confidence (ProductForecast.oneDayForecast f) <= 100)
    /\ (0 <= h_confidence (ProductForecast.sevenDayForecast f)
        /\ h_confidence (ProductForecast.sevenDayForecast f) <= 100).
Proof.
  intros H. unfold forecastProduct. cbv zeta.
  rewrite H, rev_unit. eexists. split; [reflexivity|].
  cbn [ProductForecast.productName ProductForecast.company
       ProductForecast.oneDayForecast ProductForecast.sevenDayForecast
       ProductForecast.historicalMetrics targetDate daysOfData h_confidence].
  rewrite !toISODate_addDays, length_app. cbn [List.length].
  repeat match goal with |- _ /\ _ => split end; try reflexivity; try lia.
  - apply Qmin_percentage; apply movingAverage_confidence.
  - apply Qmin_percentage; apply movingAverage_confidence.
  - apply Qmin_percentage; apply ensemble_confidence.
  - apply Qmin_percentage; apply ensemble_confidence.
Qed.

(** X23. [forecastProduct] throws a [TypeError] on a series without days
    and on no other series. On a series that ends with [day] it returns a
    forecast with the name and the company of the series, the day after
    [day] and the seventh day after [day] as targets, the number of days of
    the series, and two confidences between 0 and 100. *)
Theorem forecast_of_a_series (sqrt : Q -> Q) (tz : Z) (timeSeries : ProductTimeSeries.t) :
  (forecastProduct sqrt (JsDate.fixedOffset tz) timeSeries = Throw TypeError
   <-> ProductTimeSeries.dailyData timeSeries = [])
  /\ (forall earlier day,
         ProductTimeSeries.dailyData timeSeries = earlier ++ [day] ->
         exists f,
           forecastProduct sqrt (JsDate.fixedOffset tz) timeSeries = Ok f
           /\ ProductForecast.productName f = ProductTimeSeries.productName timeSeries
           /\ ProductForecast.company f = ProductTimeSeries.company timeSeries
           /\ targetDate (ProductForecast.oneDayForecast f) = (dayDate day + 1)%Z
           /\ targetDate (ProductForecast.sevenDayForecast f) = (dayDate day + 7)%Z
           /\ daysOfData (ProductForecast.historicalMetrics f)
              = S (List.length earlier)
           /\ (0 <= h_confidence (ProductForecast.oneDayForecast f)
               /\ h_confidence (ProductForecast.oneDayForecast f) <= 100)
           /\ (0 <= h_confidence (ProductForecast.sevenDayForecast f)
               /\ h_confidence (ProductForecast.sevenDayForecast f) <= 100)).
Proof.
  split; [apply forecastProduct_throws|].
  intros earlier day. apply forecastProduct_of_last.
Qed.

(** ** The prepared series *)

Lemma seriesMapOf_fold (salesData : list DailySales) :
  seriesMapOf salesData
  = fold_left (accStep (fun dr => ITNAME (snd dr))
                 (fun dr => {| SeriesAcc.company := company (snd dr);
                               SeriesAcc.dailyData := [] |})
                 addSeries)
              (allRecords salesData) [].
Proof.
  unfold seriesMapOf. rewrite forEachRecord_allRecords.
  apply fold_left_ext. intros m [d r]. cbv beta. simpl fst. simpl snd.
  unfold accStep. simpl fst. simpl snd. unfold has.
  destruct (get string_dec m (ITNAME r)) as [p|] eqn:E.
  - rewrite E. reflexivity.
  - rewrite get_set_same, set_set. reflexivity.
Qed.

Lemma addSeries_fold (rs : list (DailySales * SalesRecord)) (acc : SeriesAcc.t) :
  fold_left addSeries rs acc
  = {| SeriesAcc.company := SeriesAcc.company acc;
       SeriesAcc.dailyData := fold_left dayStep rs (SeriesAcc.dailyData acc) |}.
Proof.
  revert acc. induction rs as [|r rs IH]; intros acc; simpl.
  - destruct acc; reflexivity.
  - rewrite IH. reflexivity.
Qed.

Lemma dayFold_get (rs : list (DailySales * SalesRecord)) (m : Map isoDate (Q * Q))
    (d : isoDate) :
  fst (orElse (get Z.eq_dec (fold_left dayStep rs m) d) (0, 0))
  == fst (orElse (get Z.eq_dec m d) (0, 0))
     + Qsum (map (fun dr => QTY (snd dr)) (filter (onDay d) rs))
  /\ snd (orElse (get Z.eq_dec (fold_left dayStep rs m) d) (0, 0))
     == snd (orElse (get Z.eq_dec m d) (0, 0))
        + Qsum (map (fun dr => TAXBLEAMT (snd dr)) (filter (onDay d) rs)).
Proof.
  revert m. induction rs as [|r rs IH]; intros m; cbn [fold_left filter].
  - simpl. split; ring.
  - destruct (IH (dayStep m r)) as [Hq Ha]. rewrite Hq, Ha.
    assert (Eo : onDay d r = (date (fst r) =? d)%Z) by reflexivity. rewrite Eo.
    unfold dayStep. destruct (Z.eqb_spec (date (fst r)) d) as [E|N].
    + subst d. rewrite get_set_same. simpl. split; ring.
    + rewrite get_set_other by congruence. split; ring.
Qed.


Lemma seriesMapOf_entry (salesData : list DailySales) (name : string)
    (data : SeriesAcc.t) :
  In (name, data) (seriesMapOf salesData) ->
  exists r0 rest,
    filter (soldAs name) (allRecords salesData) = r0 :: rest
    /\ SeriesAcc.company data = company (snd r0)
    /\ SeriesAcc.dailyData data = fold_left dayStep (r0 :: rest) [].
Proof.
  intros Hin. apply in_map_get in Hin.
  2:{ rewrite seriesMapOf_keys. apply uniq_NoDup. }
  rewrite seriesMapOf_fold, accFold_get in Hin.
  fold (soldAs name) in Hin. simpl get in Hin.
  destruct (filter (soldAs name) (allRecords salesData)) as [|r0 rest]; [discriminate|].
  exists r0, rest. split; [reflexivity|].
  injection Hin as E. rewrite <- E, addSeries_fold. simpl. split; reflexivity.
Qed.

Lemma prepare_unfold (salesData : list DailySales) (topN : nat) :
  prepareProductTimeSeries salesData topN
  = flat_map (fun '(productName, data) =>
                if negb (includes string_dec (topProductNames salesData topN)
                                  productName) then []
                else
                  [ {| ProductTimeSeries.productName := productName;
                       ProductTimeSeries.company := SeriesAcc.company data;
                       ProductTimeSeries.dailyData :=
                         map (fun date =>
                                {| dayDate := date;
                                   quantity :=
                                     fst (orElse (get Z.eq_dec (SeriesAcc.dailyData data)
                                                      date) (0, 0));
                                   revenue :=
                                     snd (orElse (get Z.eq_dec (SeriesAcc.dailyData data)
                                                      date) (0, 0)) |})
                             (sortedDates salesData) |} ])
             (seriesMapOf salesData).
Proof. reflexivity. Qed.

Lemma prepare_names (salesData : list DailySales) (topN : nat) :
  map ProductTimeSeries.productName (prepareProductTimeSeries salesData topN)
  = filter (includes string_dec (topProductNames salesData topN))
           (productNames salesData).
Proof.
  rewrite prepare_unfold, <- seriesMapOf_keys. unfold keys.
  induction (seriesMapOf salesData) as [|[k data] m IH]; [reflexivity|].
  cbn [flat_map map fst filter]. rewrite map_app, IH.
  destruct (includes string_dec (topProductNames salesData topN) k); reflexivity.
Qed.

Lemma prepare_entry (salesData : list DailySales) (topN : nat)
    (ts : ProductTimeSeries.t) :
  In ts (prepareProductTimeSeries salesData topN) ->
  exists data,
    In (ProductTimeSeries.productName ts, data) (seriesMapOf salesData)
    /\ ProductTimeSeries.company ts = SeriesAcc.company data
    /\ ProductTimeSeries.dailyData ts
       = map (fun date =>
                {| dayDate := date;
                   quantity :=
                     fst (orElse (get Z.eq_dec (SeriesAcc.dailyData data) date) (0, 0));
                   revenue :=
                     snd (orElse (get Z.eq_dec (SeriesAcc.dailyData data) date) (0, 0)) |})
             (sortedDates salesData).
Proof.
  rewrite prepare_unfold. intros H. apply in_flat_map in H.
  destruct H as [[name data] [Hin H]].
  destruct (negb _) in H; [destruct H|]. destruct H as [<-|[]].
  exists data. simpl. repeat split. exact Hin.
Qed.

Lemma uniq_length {K : Type} (K_dec : forall x y : K, {x = y} + {x <> y})
    (l : list K) :
  (List.length (uniq K_dec l) <= List.length l)%nat.
Proof.
  apply NoDup_incl_length; [apply uniq_NoDup|]. intros x Hx. apply uniq_In in Hx.
  exact Hx.
Qed.

Lemma prepare_length (salesData : list DailySales) (topN : nat) :
  (List.length (prepareProductTimeSeries salesData topN) <= topN)%nat.
Proof.
  rewrite <- (length_map ProductTimeSeries.productName).
  apply Nat.le_trans with (List.length (topProductNames salesData topN)).
  - apply NoDup_incl_length.
    + rewrite prepare_names. apply NoDup_filter, uniq_NoDup.
    + intros x Hx. rewrite prepare_names in Hx. apply filter_In in Hx.
      apply (includes_In string_dec). apply Hx.
  - unfold topProductNames.
    eapply Nat.le_trans; [apply uniq_length|].
    rewrite length_map, length_firstn. lia.
Qed.

(** X24. [prepareProductTimeSeries] returns at most [topN] series, one
    per product and in the order in which the products are first sold.
    Every series has one day for each batch date, in ascending order and
    without the dates no batch has; the quantity and the revenue of a day
    are the sums over the records of the product in the batches of that
    date, 0 when there are none; the company is that of the first record
    of the product. *)
Theorem series_cover_the_batch_dates (salesData : list DailySales) (topN : nat) :
  let out := prepareProductTimeSeries salesData topN in
  (List.length out <= topN)%nat
  /\ NoDup (map ProductTimeSeries.productName out)
  /\ map ProductTimeSeries.productName out
     = filter (includes string_dec (topProductNames salesData topN))
              (productNames salesData)
  /\ Forall (fun ts =>
               let prs := filter (soldAs (ProductTimeSeries.productName ts))
                                 (allRecords salesData) in
               option_map (fun dr => company (snd dr)) (head prs)
               = Some (ProductTimeSeries.company ts)
               /\ map dayDate (ProductTimeSeries.dailyData ts) = sortedDates salesData
               /\ Forall (fun day =>
                            quantity day
                            == Qsum (map (fun dr => QTY (snd dr))
                                         (filter (onDay (dayDate day)) prs))
                            /\ revenue day
                               == Qsum (map (fun dr => TAXBLEAMT (snd dr))
                                            (filter (onDay (dayDate day)) prs)))
                         (ProductTimeSeries.dailyData ts))
            out.
Proof.
  cbv zeta.
  assert (Hnd : NoDup (map ProductTimeSeries.productName
                           (prepareProductTimeSeries salesData topN))).
  { rewrite prepare_names. apply NoDup_filter, uniq_NoDup. }
  split; [|split; [exact Hnd|split; [apply prepare_names|]]].
  - apply prepare_length.
  - apply Forall_forall. intros ts Hts.
    destruct (prepare_entry salesData topN ts Hts) as [data [Hin [Hc Hd]]].
    destruct (seriesMapOf_entry salesData _ data Hin) as [r0 [rest [Hrs [Hc0 Hdd]]]].
    rewrite Hrs. split; [simpl; congruence|].
    split; [apply (prepare_dailyData salesData topN ts Hts)|].
    rewrite Hd. apply Forall_map, Forall_forall. intros d _.
    cbn [dayDate quantity revenue]. rewrite Hdd.
    destruct (dayFold_get (r0 :: rest) [] d) as [Hq Ha].
    rewrite Hq, Ha. simpl. split; ring.
Qed.





(** ** Observed and missing days *)

Lemma filter_split_length {A : Type} (f : A -> bool) (l : list A) :
  (List.length (filter f l) + List.length (filter (fun x => negb (f x)) l))%nat
  = List.length l.
Proof.
  induction l as [|x l IH]; [reflexivity|]. simpl.
  destruct (f x); simpl; lia.
Qed.

Lemma daysFromTo_length (a b : isoDate) :
  List.length (daysFromTo a b) = Z.to_nat (b - a + 1).
Proof. unfold daysFromTo. rewrite length_map, length_seq. reflexivity. Qed.

Lemma observed_in_range (allDates : list isoDate) :
  StronglySorted Z.le allDates -> NoDup allDates ->
  List.length (filter (includes Z.eq_dec allDates)
                      (daysFromTo (hd 0%Z allDates) (last allDates 0%Z)))
  = List.length allDates.
Proof.
  intros Hs Hn. apply Permutation_length, NoDup_Permutation.
  - apply NoDup_filter, daysFromTo_NoDup.
  - exact Hn.
  - intros x. rewrite filter_In, daysFromTo_In, (includes_In Z.eq_dec). split.
    + intros [_ H]. exact H.
    + intros H. split; [|exact H].
      pose proof (sorted_hd_min allDates 0%Z x Hs H).
      pose proof (sorted_last_max allDates 0%Z x Hs H).
      unfold isoDate in *. lia.
Qed.

(** X26. On a host whose zone keeps one offset from UTC, the observed
    dates and the dates [findMissingDates] reports fill the calendar: for a
    batch list that is not empty their numbers add up to the number of days
    from the first batch date to the last one. *)
Theorem observed_and_missing_fill_the_range (tz : Z) (salesData : list DailySales) :
  salesData <> [] ->
  let allDates := sortedDates salesData in
  Z.of_nat (List.length allDates + List.length (findMissingDates (JsDate.fixedOffset tz) allDates))
  = (latestDate salesData - hd 0%Z allDates + 1)%Z.
Proof.
  intros Hne. cbv zeta. unfold latestDate.
  pose proof (sortedDates_nonempty salesData Hne) as Hd.
  pose proof (sortedDates_sorted salesData) as Hs.
  pose proof (sortedDates_NoDup salesData) as Hn.
  set (allDates := sortedDates salesData) in *. clearbody allDates.
  rewrite findMissingDates_days.
  destruct (List.length allDates <? 2)%nat eqn:E.
  - apply Nat.ltb_lt in E. destruct allDates as [|x [|y l]]; simpl in E; try lia;
      [congruence|]. simpl. lia.
  - rewrite <- (observed_in_range allDates Hs Hn), filter_split_length,
      daysFromTo_length.
    assert (H : (hd 0%Z allDates <= last allDates 0%Z)%Z).
    { apply sorted_last_max; [exact Hs|].
      destruct allDates; [congruence | left; reflexivity]. }
    unfold isoDate in *. lia.
Qed.

Lemma observed_and_missing_fill_the_range_witness :
  Z.of_nat (List.length (sortedDates gappedThreeWeeks)
            + List.length (findMissingDates (JsDate.fixedOffset 19800000) (sortedDates gappedThreeWeeks)))
  = (latestDate gappedThreeWeeks - hd 0%Z (sortedDates gappedThreeWeeks) + 1)%Z.
Proof.
  apply (observed_and_missing_fill_the_range 19800000 gappedThreeWeeks).
  discriminate.
Defined.

(** In New York the clocks go forward on 2025-03-09: between 2025-03-07
    and 2025-03-11 the loop of [findMissingDates] reads that day twice. *)
Example missing_dates_across_clock_change :
  findMissingDates JsDate.newYork2025 [20154; 20158]%Z
  = [20155; 20156; 20156; 20157]%Z.
Proof. vm_compute. reflexivity. Qed.

(** ** The forecast summary, when there are records *)

Lemma mapM_Forall2 {A B : Type} (f : A -> result B) (l : list A) (ys : list B) :
  mapM f l = Ok ys -> Forall2 (fun x y => f x = Ok y) l ys.
Proof.
  revert ys. induction l as [|x l IH]; intros ys H; simpl in H.
  - inversion H. constructor.
  - destruct (f x) as [y|e] eqn:Ex; [|discriminate].
    destruct (mapM f l) as [ys'|e]; [|discriminate].
    inversion H; subst. constructor; [exact Ex | apply IH; reflexivity].
Qed.

Lemma forecastProduct_name (sqrt : Q -> Q) (zone : JsDate.Zone)
    (ts : ProductTimeSeries.t)
    (f : ProductForecast.t) :
  forecastProduct sqrt zone ts = Ok f ->
  ProductForecast.productName f = ProductTimeSeries.productName ts.
Proof.
  unfold forecastProduct. cbv zeta.
  destruct (rev (ProductTimeSeries.dailyData ts)); [discriminate|].
  intros H. inversion H. reflexivity.
Qed.

Lemma last_map {A B : Type} (f : A -> B) (l : list A) (d : A) :
  last (map f l) (f d) = f (last l d).
Proof.
  induction l as [|x [|y l] IH]; [reflexivity | reflexivity |].
  change (last (map f (x :: y :: l)) (f d)) with (last (map f (y :: l)) (f d)).
  rewrite IH. reflexivity.
Qed.

Lemma last_default {A : Type} (l : list A) (d d' : A) :
  l <> [] -> last l d = last l d'.
Proof.
  induction l as [|x [|y l] IH]; intros H; [congruence | reflexivity |].
  change (last (y :: l) d = last (y :: l) d'). apply IH. discriminate.
Qed.

Lemma prepare_last_day (salesData : list DailySales) (topN : nat)
    (ts : ProductTimeSeries.t) :
  salesData <> [] ->
  In ts (prepareProductTimeSeries salesData topN) ->
  exists earlier day,
    ProductTimeSeries.dailyData ts = earlier ++ [day]
    /\ dayDate day = latestDate salesData.
Proof.
  intros Hne Hts. pose proof (prepare_dailyData salesData topN ts Hts) as Hd.
  pose proof (sortedDates_nonempty salesData Hne) as Hs.
  assert (Hdd : ProductTimeSeries.dailyData ts <> []).
  { intros E. rewrite E in Hd. simpl in Hd. congruence. }
  set (d0 := {| dayDate := 0%Z; quantity := 0; revenue := 0 |}).
  exists (removelast (ProductTimeSeries.dailyData ts)),
         (last (ProductTimeSeries.dailyData ts) d0).
  split; [apply app_removelast_last, Hdd|].
  unfold latestDate. rewrite <- Hd.
  change 0%Z with (dayDate d0). rewrite last_map. reflexivity.
Qed.

Lemma summary_returns (sqrt : Q -> Q) (zone : JsDate.Zone) (now : string)
    (salesData : list DailySales) (topN : nat) :
  allRecords salesData <> [] ->
  (0 < topN)%nat ->
  exists s, generateForecastSummary sqrt zone now salesData topN = Ok s.
Proof.
  intros Hrec Htop.
  destruct (forecasts_ok sqrt zone salesData topN Hrec Htop) as [pf [pfs E]].
  unfold generateForecastSummary. rewrite E. eexists. reflexivity.
Qed.

(** X27. On a host whose zone has a fixed offset from UTC, with at least
    one record and a positive [topN], [generateForecastSummary] returns a
    summary stamped with the time of the call; its targets are the day
    after the latest batch date and the seventh day after it; it holds one
    forecast per prepared series, in their order, at least one and at most
    [topN]; it warns of a limited history exactly when there are fewer than
    30 batch dates, and of missing dates, with their number, exactly when
    there are any. *)
Theorem summary_targets_and_warnings (sqrt : Q -> Q) (tz : Z) (now : string)
    (salesData : list DailySales) (topN : nat) :
  allRecords salesData <> [] ->
  (0 < topN)%nat ->
  exists s,
    generateForecastSummary sqrt (JsDate.fixedOffset tz) now salesData topN = Ok s
    /\ generatedAt s = now
    /\ oneDayTarget s = (latestDate salesData + 1)%Z
    /\ sevenDayTarget s = (latestDate salesData + 7)%Z
    /\ map ProductForecast.productName (productForecasts s)
       = map ProductTimeSeries.productName (prepareProductTimeSeries salesData topN)
    /\ (1 <= List.length (productForecasts s) <= topN)%nat
    /\ (In LimitedHistory (warnings s) <-> (totalHistoricalDays s < 30)%nat)
    /\ (forall n, In (DatesMissing n) (warnings s)
                  <-> n = List.length (missingDates s) /\ (0 < n)%nat).
Proof.
  intros Hrec Htop.
  destruct (forecasts_ok sqrt (JsDate.fixedOffset tz) salesData topN Hrec Htop) as [pf [pfs E]].
  pose proof (mapM_Forall2 _ _ _ E) as HF.
  pose proof (allRecords_nonempty _ Hrec) as Hne.
  unfold generateForecastSummary. rewrite E. eexists. split; [reflexivity|].
  cbn [generatedAt oneDayTarget sevenDayTarget productForecasts warnings
       totalHistoricalDays missingDates].
  split; [reflexivity|].
  assert (Htargets : targetDate (ProductForecast.oneDayForecast pf)
                     = (latestDate salesData + 1)%Z
                     /\ targetDate (ProductForecast.sevenDayForecast pf)
                        = (latestDate salesData + 7)%Z).
  { inversion HF as [|ts0 pf0 tss pfs0 H0 Hrest Ets]; subst.
    assert (Hin : In ts0 (prepareProductTimeSeries salesData topN))
      by (rewrite <- Ets; left; reflexivity).
    destruct (prepare_last_day salesData topN ts0 Hne Hin) as [earlier [day [Hd Hl]]].
    destruct (forecastProduct_of_last sqrt tz ts0 earlier day Hd)
      as [f [Ef [_ [_ [H1 [H7 _]]]]]].
    rewrite Ef in H0. inversion H0; subst. rewrite H1, H7, Hl. split; reflexivity. }
  destruct Htargets as [H1 H7].
  split; [exact H1|]. split; [exact H7|]. split; [|split; [|split]].
  - clear - HF. induction HF as [|ts f tss fs Hf _ IH]; [reflexivity|].
    simpl. rewrite IH, (forecastProduct_name sqrt _ ts f Hf). reflexivity.
  - rewrite <- (Forall2_length HF). split; [|apply prepare_length].
    rewrite (Forall2_length HF). simpl. lia.
  - rewrite in_app_iff. destruct (List.length (sortedDates salesData) <? 30)%nat eqn:E30.
    + apply Nat.ltb_lt in E30. split; [intros _; exact E30|]. intros _. left. left.
      reflexivity.
    + apply Nat.ltb_ge in E30. split; [|lia]. intros [[]|H].
      destruct (0 <? _)%nat in H; [destruct H as [H|[]]; discriminate | destruct H].
  - intros n. rewrite in_app_iff.
    set (k := List.length (findMissingDates (JsDate.fixedOffset tz)
                                            (sortedDates salesData))).
    split.
    + intros [H|H].
      * destruct (_ <? 30)%nat in H; [destruct H as [H|[]]; discriminate | destruct H].
      * destruct (0 <? k)%nat eqn:Ek; [|destruct H].
        apply Nat.ltb_lt in Ek. destruct H as [H|[]]. inversion H. subst n.
        split; [reflexivity | exact Ek].
    + intros [En Hn]. right. rewrite <- En.
      replace (0 <? n)%nat with true by (symmetry; apply Nat.ltb_lt; exact Hn).
      left. reflexivity.
Qed.

Lemma summary_targets_and_warnings_witness :
  exists s,
    generateForecastSummary sqrtMicro (JsDate.fixedOffset 19800000) ""
                            gappedThreeWeeks 10 = Ok s
    /\ oneDayTarget s = 20444%Z
    /\ sevenDayTarget s = 20450%Z.
Proof.
  destruct (summary_targets_and_warnings sqrtMicro 19800000 "" gappedThreeWeeks 10)
    as [s [Es [_ [H1 [H7 _]]]]].
  - vm_compute. discriminate.
  - lia.
  - exists s. split; [exact Es|]. rewrite H1, H7. split; reflexivity.
Defined.

(** In London the clocks go forward on 2026-03-29: one local day after
    midnight UTC of that date is 23:00 UTC of the same date, so the target
    dates of a series that ends on it are 2026-03-29 and 2026-04-04. *)
Example target_dates_across_clock_change (sqrt : Q -> Q) :
  exists f,
    forecastProduct sqrt JsDate.london2026
      {| ProductTimeSeries.productName := "A";
         ProductTimeSeries.company := None;
         ProductTimeSeries.dailyData :=
           [ {| dayDate := 20541%Z; quantity := 1; revenue := 100 |} ] |}
    = Ok f
    /\ targetDate (ProductForecast.oneDayForecast f) = 20541%Z
    /\ targetDate (ProductForecast.sevenDayForecast f) = 20547%Z.
Proof. eexists. split; [reflexivity|]. split; vm_compute; reflexivity. Qed.

(** X28. In every zone, [generateForecastSummary] throws only a
    [TypeError], and throws it exactly when there is nothing to forecast:
    when no batch has a record, or when [topN] is 0. *)
Theorem summary_throws_only_without_forecasts (sqrt : Q -> Q) (zone : JsDate.Zone)
    (now : string) (salesData : list DailySales) (topN : nat) (e : exn) :
  generateForecastSummary sqrt zone now salesData topN = Throw e
  <-> e = TypeError /\ (allRecords salesData = [] \/ topN = 0%nat).
Proof.
  split.
  - intros H. destruct (allRecords salesData) as [|r rs] eqn:Er.
    + rewrite (summary_throws_without_records sqrt zone now salesData topN Er) in H.
      inversion H. split; [reflexivity | left; reflexivity].
    + destruct topN as [|k].
      * assert (Ep : prepareProductTimeSeries salesData 0 = []).
        { pose proof (prepare_length salesData 0) as L.
          destruct (prepareProductTimeSeries salesData 0); [reflexivity | simpl in L; lia]. }
        unfold generateForecastSummary in H. rewrite Ep in H. simpl in H.
        inversion H. split; [reflexivity | right; reflexivity].
      * destruct (summary_returns sqrt zone now salesData (S k)) as [s Es];
          [rewrite Er; discriminate | lia |].
        rewrite Es in H. discriminate.
  - intros [-> [Hr|Ht]].
    + apply summary_throws_without_records, Hr.
    + subst topN.
      assert (Ep : prepareProductTimeSeries salesData 0 = []).
      { pose proof (prepare_length salesData 0) as L.
        destruct (prepareProductTimeSeries salesData 0); [reflexivity | simpl in L; lia]. }
      unfold generateForecastSummary. rewrite Ep. reflexivity.
Qed.

(** ** Backtesting a constant series *)






Section BacktestConstant.
Variable sqrt : Q -> Q.
Hypothesis sqrt_zero : forall q, q == 0 -> sqrt q == 0.

End BacktestConstant.



(** X30. [validateForecasts] backtests every prepared series on the last
    7 days: it returns one validation per series, in their order; with
    fewer than 14 batch dates every validation is the empty one, metrics 0
    over a test period of 0 days, and from 14 batch dates on every
    validation has a test period of 7 days. *)
Theorem validation_needs_two_weeks (sqrt : Q -> Q) (salesData : list DailySales)
    (topN : nat) :
  let out := validateForecasts sqrt salesData topN in
  map ForecastValidation.productName out
  = map ProductTimeSeries.productName (prepareProductTimeSeries salesData topN)
  /\ ((List.length (sortedDates salesData) < 14)%nat ->
      Forall (fun v => ForecastValidation.testPeriodDays v = 0%nat
                       /\ ForecastValidation.metrics v
                          = {| mae := 0; mape := 0; rmse := 0 |}) out)
  /\ ((14 <= List.length (sortedDates salesData))%nat ->
      Forall (fun v => ForecastValidation.testPeriodDays v = 7%nat) out).
Proof.
  cbv zeta. unfold validateForecasts.
  assert (Hlen : forall ts, In ts (prepareProductTimeSeries salesData topN) ->
                            List.length (ProductTimeSeries.dailyData ts)
                            = List.length (sortedDates salesData)).
  { intros ts Hts. rewrite <- (prepare_dailyData salesData topN ts Hts).
    symmetry. apply length_map. }
  split; [|split].
  - rewrite map_map. apply map_ext. intros ts. unfold backtestForecast.
    destruct (_ <? _)%nat; reflexivity.
  - intros H. apply Forall_map, Forall_forall. intros ts Hts.
    unfold backtestForecast. rewrite (Hlen ts Hts).
    replace (List.length (sortedDates salesData) <? 7 + 7)%nat with true
      by (symmetry; apply Nat.ltb_lt; lia).
    split; reflexivity.
  - intros H. apply Forall_map, Forall_forall. intros ts Hts.
    unfold backtestForecast. rewrite (Hlen ts Hts).
    replace (List.length (sortedDates salesData) <? 7 + 7)%nat with false
      by (symmetry; apply Nat.ltb_ge; lia).
    reflexivity.
Qed.

(** * Properties in the arithmetic of the host *)

(** ** Rounding to binary64 *)

Lemma pow2_Q (k : Z) : (0 <= k)%Z -> 2 ^ k == inject_Z (2 ^ k).
Proof. intros H. rewrite Zpower_Qpower by exact H. reflexivity. Qed.

Lemma pow2_neg (k : Z) : (0 <= k)%Z -> 2 ^ (- k) * inject_Z (2 ^ k) == 1.
Proof.
  intros H. rewrite Qpower_opp, pow2_Q by exact H.
  assert (P : (0 < 2 ^ k)%Z) by (apply Z.pow_pos_nonneg; lia).
  assert (~ inject_Z (2 ^ k) == 0).
  { intros E. unfold Qeq in E. simpl in E. lia. }
  field. assumption.
Qed.

Lemma roundHalfEven_whole (y : Q) (m : Z) : y == inject_Z m -> roundHalfEven y = m.
Proof.
  intros H. unfold roundHalfEven.
  assert (F : Qfloor y = m) by (rewrite H; apply Qfloor_Z).
  rewrite F.
  replace (y - inject_Z m ?= 1 # 2) with Lt; [reflexivity|].
  symmetry. apply Qlt_alt. rewrite H. unfold Qminus. rewrite Qplus_opp_r. reflexivity.
Qed.

(** The exponent found for a positive whole number below [2^53] is at most
    52: the unit in the last place is then at most 1. *)
Lemma ilog2_whole (q : Q) (z : Z) :
  q == inject_Z z -> (0 < z < 2 ^ 53)%Z -> (ilog2 q <= 52)%Z.
Proof.
  intros H Hz. unfold ilog2.
  set (e0 := (Z.log2 (Qnum q) - Z.log2 (Zpos (Qden q)))%Z).
  destruct (Z_le_gt_dec e0 52) as [L|G].
  - destruct (Qle_bool (2 ^ e0) q); lia.
  - assert (Hp : Qnum q = (z * Zpos (Qden q))%Z).
    { unfold Qeq in H. simpl in H. lia. }
    assert (Hn : (0 < Qnum q)%Z) by (rewrite Hp; lia).
    destruct (Z.log2_spec (Qnum q) Hn) as [N1 _].
    destruct (Z.log2_spec (Zpos (Qden q))) as [_ D2]; [lia|].
    assert (E53 : e0 = 53%Z).
    { assert (Hlt : (2 ^ Z.log2 (Qnum q) < 2 ^ (53 + Z.succ (Z.log2 (Zpos (Qden q)))))%Z).
      { rewrite Z.pow_add_r by (pose proof (Z.log2_nonneg (Zpos (Qden q))); lia).
        eapply Z.le_lt_trans; [exact N1|]. rewrite Hp.
        apply Z.mul_lt_mono_nonneg; lia. }
      apply Z.pow_lt_mono_r_iff in Hlt;
        [|lia | pose proof (Z.log2_nonneg (Zpos (Qden q))); lia].
      unfold e0 in *. lia. }
    replace (Qle_bool (2 ^ e0) q) with false; [lia|].
    symmetry. apply not_true_is_false. intros B. apply Qle_bool_iff in B.
    rewrite E53, H, pow2_Q in B by lia. rewrite <- Zle_Qle in B. lia.
Qed.

Lemma binary64_positive (q : Q) (z : Z) (e : Z) :
  q == inject_Z z -> (e <= 52)%Z ->
  Qred (inject_Z (roundHalfEven (q / 2 ^ (e - 52))) * 2 ^ (e - 52)) == q.
Proof.
  intros H He. rewrite Qred_correct.
  replace (e - 52)%Z with (- (52 - e))%Z by lia.
  set (k := (52 - e)%Z). assert (Hk : (0 <= k)%Z) by (unfold k; lia).
  pose proof (pow2_neg k Hk) as P.
  assert (P0 : ~ 2 ^ (- k) == 0).
  { intros E. rewrite E in P. revert P. rewrite Qmult_0_l. discriminate. }
  assert (Y : q / 2 ^ (- k) == inject_Z (z * 2 ^ k)).
  { rewrite inject_Z_mult, H. 
    setoid_replace (inject_Z z * inject_Z (2 ^ k)) with
      (inject_Z z * (2 ^ (- k) * inject_Z (2 ^ k)) / 2 ^ (- k)) by (field; exact P0).
    rewrite P. field. exact P0. }
  rewrite (roundHalfEven_whole _ _ Y), inject_Z_mult, H.
  rewrite <- Qmult_assoc, (Qmult_comm (inject_Z (2 ^ k))), P. ring.
Qed.

(** A whole number whose absolute value is below [2^53] is a binary64
    number: rounding leaves it as it is, however the fraction is written. *)
Lemma binary64_whole (q : Q) (z : Z) :
  q == inject_Z z -> (Z.abs z < 2 ^ 53)%Z -> binary64 q == q.
Proof.
  intros H Hz. unfold binary64.
  destruct (Qnum q) as [|p|p] eqn:En.
  - unfold Qeq. simpl. rewrite En. reflexivity.
  - cbv zeta. apply (binary64_positive q z); [exact H|].
    apply (ilog2_whole q z H).
    assert (Hp : Qnum q = (z * Zpos (Qden q))%Z) by (unfold Qeq in H; simpl in H; lia).
    rewrite En in Hp. split; [nia | lia].
  - cbv zeta.
    assert (Hp : Qnum q = (z * Zpos (Qden q))%Z) by (unfold Qeq in H; simpl in H; lia).
    rewrite En in Hp.
    assert (Hneg : (z < 0)%Z) by nia.
    assert (H' : - q == inject_Z (- z)) by (rewrite H, inject_Z_opp; reflexivity).
    rewrite Qred_correct.
    rewrite <- (Qred_correct (inject_Z (roundHalfEven (- q / 2 ^ (ilog2 (- q) - 52)))
                              * 2 ^ (ilog2 (- q) - 52))).
    rewrite (binary64_positive (- q) (- z)); [ring | exact H' |].
    apply (ilog2_whole (- q) (- z) H'). lia.
Qed.

(** ** Sums that are not rounded *)

Lemma whole_iff (q : Q) : whole q <-> exists z, q == inject_Z z.
Proof.
  unfold whole. split.
  - intros H. exists (Qfloor q). symmetry. exact H.
  - intros [z H]. rewrite (Qfloor_comp _ _ H), Qfloor_Z. symmetry. exact H.
Qed.

Lemma whole_inject (z : Z) : whole (inject_Z z).
Proof. apply whole_iff. exists z. reflexivity. Qed.

Lemma whole_eq (a b : Q) : a == b -> whole a -> whole b.
Proof.
  intros E H. apply whole_iff in H. destruct H as [z H]. apply whole_iff.
  exists z. rewrite <- E. exact H.
Qed.

Lemma whole_plus (a b : Q) : whole a -> whole b -> whole (a + b).
Proof.
  intros Ha Hb. apply whole_iff in Ha, Hb. destruct Ha as [x Ha], Hb as [y Hb].
  apply whole_iff. exists (x + y)%Z. rewrite Ha, Hb, inject_Z_plus. reflexivity.
Qed.

Lemma whole_mult (a b : Q) : whole a -> whole b -> whole (a * b).
Proof.
  intros Ha Hb. apply whole_iff in Ha, Hb. destruct Ha as [x Ha], Hb as [y Hb].
  apply whole_iff. exists (x * y)%Z. rewrite Ha, Hb, inject_Z_mult. reflexivity.
Qed.

Lemma whole_ofNat (n : nat) : whole (ofNat n).
Proof. apply whole_inject. Qed.

Lemma binary64_exact (q : Q) : whole q -> Qabs q < exactBound -> binary64 q == q.
Proof.
  intros H B. apply whole_iff in H. destruct H as [z H].
  apply (binary64_whole q z H).
  rewrite H in B. unfold exactBound in B.
  change (Qabs (inject_Z z)) with (inject_Z (Z.abs z)) in B.
  change 9007199254740992 with (inject_Z (2 ^ 53)) in B.
  rewrite <- Zlt_Qlt in B. exact B.
Qed.

Lemma add_exact (a b : Q) :
  whole a -> whole b -> Qabs a + Qabs b < exactBound ->
  F64.add a b == a + b.
Proof.
  intros Ha Hb B. apply binary64_exact; [apply whole_plus; assumption|].
  eapply Qle_lt_trans; [apply Qabs_triangle | exact B].
Qed.

Lemma Qsum_abs_nonneg {A : Type} (f : A -> Q) (l : list A) :
  0 <= Qsum (map (fun x => Qabs (f x)) l).
Proof.
  induction l as [|x l IH]; simpl; [lra|].
  pose proof (Qabs_nonneg (f x)). lra.
Qed.

(** A left-to-right sum of whole numbers whose absolute values stay below
    the bound is the exact sum. *)
Lemma fold_add_exact {A : Type} (f : A -> Q) (xs : list A) (a : Q) :
  whole a ->
  Forall (fun x => whole (f x)) xs ->
  Qabs a + Qsum (map (fun x => Qabs (f x)) xs) < exactBound ->
  fold_left (fun sum x => F64.add sum (f x)) xs a == a + Qsum (map f xs)
  /\ whole (fold_left (fun sum x => F64.add sum (f x)) xs a)
  /\ Qabs (fold_left (fun sum x => F64.add sum (f x)) xs a)
     <= Qabs a + Qsum (map (fun x => Qabs (f x)) xs).
Proof.
  intros Ha Hxs. revert a Ha. induction Hxs as [|x xs Hx _ IH]; intros a Ha B; simpl in *.
  - repeat split; [ring | exact Ha | lra].
  - pose proof (Qsum_abs_nonneg f xs) as N.
    assert (E : F64.add a (f x) == a + f x) by (apply add_exact; [assumption..|lra]).
    assert (T : Qabs (F64.add a (f x)) <= Qabs a + Qabs (f x)).
    { rewrite E. apply Qabs_triangle. }
    destruct (IH (F64.add a (f x))) as [I1 [I2 I3]].
    + apply (whole_eq (a + f x)); [symmetry; exact E | apply whole_plus; assumption].
    + lra.
    + repeat split; [rewrite I1, E; ring | exact I2 | lra].
Qed.

Lemma sumOf_exact {A : Type} (f : A -> Q) (xs : list A) :
  Forall (fun x => whole (f x)) xs ->
  Qsum (map (fun x => Qabs (f x)) xs) < exactBound ->
  F64.sumOf f xs == Qsum (map f xs)
  /\ whole (F64.sumOf f xs)
  /\ Qabs (F64.sumOf f xs) <= Qsum (map (fun x => Qabs (f x)) xs).
Proof.
  intros H B. unfold F64.sumOf.
  destruct (fold_add_exact f xs 0 (whole_inject 0) H) as [E [W L]].
  - change (Qabs 0) with 0. lra.
  - change (Qabs 0) with 0 in L. repeat split; [rewrite E; ring | exact W | lra].
Qed.

Lemma Forall_perm {A : Type} (P : A -> Prop) (l l' : list A) :
  Permutation l l' -> Forall P l -> Forall P l'.
Proof.
  intros Hp H. apply Forall_forall. intros x Hx. rewrite Forall_forall in H.
  apply H. eapply Permutation_in; [apply Permutation_sym, Hp | exact Hx].
Qed.

(** ** Groups of rounded sums *)

Lemma total_member {V : Type} (g : V -> Q) (m : Map string V) (k : string) (v : V) :
  (forall v, 0 <= g v) -> In (k, v) m -> g v <= total g m.
Proof.
  intros Hg. unfold total. induction m as [|[k' v'] m IH]; intros Hin; [destruct Hin|].
  simpl. destruct Hin as [E|Hin].
  - inversion E; subst.
    assert (0 <= Qsum (map (fun kv => g (snd kv)) m)).
    { clear - Hg. induction m as [|kv m IH]; simpl; [lra|]. pose proof (Hg (snd kv)). lra. }
    lra.
  - pose proof (Hg v'). pose proof (IH Hin). lra.
Qed.

Lemma set_Forall {V : Type} (P : V -> Prop) (m : Map string V) (k : string) (v : V) :
  Forall (fun kv => P (snd kv)) m -> P v ->
  Forall (fun kv => P (snd kv)) (set string_dec m k v).
Proof.
  intros H Hv. induction H as [|[k' v'] m Hkv Hm IH]; simpl.
  - constructor; [exact Hv | constructor].
  - destruct (string_dec k k'); constructor; assumption.
Qed.

Section RoundedGroups.
Context {R V : Type} (key : R -> string) (init : R -> V) (upd : V -> R -> V).
Context (g : V -> Q) (x : R -> Q).
Hypothesis g_init : forall r, g (init r) = 0.
Hypothesis g_upd : forall v r, g (upd v r) = F64.add (g v) (x r).

Lemma groups_exact (rs : list R) (m : Map string V) :
  Forall (fun kv => whole (g (snd kv))) m ->
  Forall (fun r => whole (x r)) rs ->
  total (fun v => Qabs (g v)) m + Qsum (map (fun r => Qabs (x r)) rs) < exactBound ->
  let m' := fold_left (accStep key init upd) rs m in
  Forall (fun kv => whole (g (snd kv))) m'
  /\ total g m' == total g m + Qsum (map x rs)
  /\ total (fun v => Qabs (g v)) m'
     <= total (fun v => Qabs (g v)) m + Qsum (map (fun r => Qabs (x r)) rs).
Proof.
  intros Hm Hrs. revert m Hm.
  induction Hrs as [|r rs Hr _ IH]; intros m Hm B; cbn [fold_left map Qsum fold_right] in *.
  - repeat split; [exact Hm | ring | lra].
  - fold (Qsum (map x rs)) in *. fold (Qsum (map (fun r => Qabs (x r)) rs)) in *.
    pose proof (Qsum_abs_nonneg x rs) as N.
    set (v := orElse (get string_dec m (key r)) (init r)).
    set (old := match get string_dec m (key r) with Some v0 => g v0 | None => 0 end).
    assert (Ev : g v = old).
    { unfold v, old. destruct (get string_dec m (key r)); [reflexivity | apply g_init]. }
    assert (Wv : whole (g v)).
    { unfold v. destruct (get string_dec m (key r)) as [v0|] eqn:E; simpl.
      - apply get_in_map in E. rewrite Forall_forall in Hm. apply (Hm _ E).
      - rewrite g_init. apply (whole_inject 0). }
    assert (Bv : Qabs (g v) <= total (fun v => Qabs (g v)) m).
    { unfold v. destruct (get string_dec m (key r)) as [v0|] eqn:E; simpl.
      - apply get_in_map in E.
        apply (total_member (fun v => Qabs (g v)) m (key r) v0);
          [intros; apply Qabs_nonneg | exact E].
      - rewrite g_init. change (Qabs 0) with 0.
        clear. unfold total. induction m as [|kv m IH]; simpl; [lra|].
        pose proof (Qabs_nonneg (g (snd kv))). lra. }
    assert (E : F64.add (g v) (x r) == g v + x r)
      by (apply add_exact; [assumption..|lra]).
    assert (S1 : total g (accStep key init upd m r) == total g m + x r).
    { unfold accStep. fold v. rewrite total_set. fold old. rewrite g_upd, E, Ev. ring. }
    assert (S2 : total (fun v => Qabs (g v)) (accStep key init upd m r)
                 <= total (fun v => Qabs (g v)) m + Qabs (x r)).
    { unfold accStep. fold v. rewrite total_set.
      assert (O : match get string_dec m (key r) with
                  | Some v0 => Qabs (g v0)
                  | None => 0
                  end == Qabs (g v)).
      { unfold v. destruct (get string_dec m (key r)); simpl; [reflexivity|].
        rewrite g_init. reflexivity. }
      rewrite O, g_upd, E. pose proof (Qabs_triangle (g v) (x r)). lra. }
    destruct (IH (accStep key init upd m r)) as [I1 [I2 I3]].
    + unfold accStep. fold v. apply (set_Forall (fun v => whole (g v))); [exact Hm|].
      rewrite g_upd. apply (whole_eq (g v + x r)); [symmetry; exact E|].
      apply whole_plus; assumption.
    + lra.
    + repeat split; [exact I1 | rewrite I2, S1; ring | lra].
Qed.
End RoundedGroups.

(** ** The rounded aggregates *)

Lemma rounded_productMapOf_fold (salesData : list DailySales) :
  F64.productMapOf salesData
  = fold_left (accStep ITNAME (fun _ => {| qty := 0; amount := 0 |})
                       roundedAddQtyAmount)
              (recordsOf salesData) [].
Proof.
  unfold F64.productMapOf, recordsOf. rewrite forEachRecord_allRecords, fold_left_map.
  reflexivity.
Qed.

Lemma rounded_companyMapOf_fold (salesData : list DailySales) :
  F64.companyMapOf salesData
  = fold_left (accStep companyKey (fun _ => emptyCompany) roundedAddCompanyData)
              (recordsOf salesData) [].
Proof.
  unfold F64.companyMapOf, recordsOf. rewrite forEachRecord_allRecords, fold_left_map.
  apply fold_left_ext. intros m [d r]. cbv beta. simpl fst. simpl snd.
  unfold accStep at 1. fold (companyKey r). unfold has.
  destruct (get string_dec m (companyKey r)) as [cd|] eqn:E.
  - rewrite E. reflexivity.
  - rewrite get_set_same, set_set. reflexivity.
Qed.

Lemma Forall_whole_records (salesData : list DailySales) :
  wholeRecords salesData ->
  Forall (fun r => whole (TAXBLEAMT r)) (recordsOf salesData)
  /\ Forall (fun r => whole (QTY r)) (recordsOf salesData).
Proof.
  intros [H _]. split; eapply Forall_impl; try exact H; intros r [Ha Hq]; assumption.
Qed.

(** The rounded sum of a list of whole numbers of small magnitude, taken
    in any order, is the exact sum. *)
Lemma sumOf_perm_exact {A B : Type} (f : A -> Q) (g : B -> Q)
    (xs : list A) (ys : list B) (bound : Q) :
  Permutation (map f xs) (map g ys) ->
  Forall (fun y => whole (g y)) ys ->
  Qsum (map (fun y => Qabs (g y)) ys) <= bound -> bound < exactBound ->
  F64.sumOf f xs == Qsum (map g ys).
Proof.
  intros Hp Hw Hb Hlt.
  assert (W : Forall (fun x => whole (f x)) xs).
  { apply Forall_map. apply (Forall_perm whole (map g ys)); [apply Permutation_sym, Hp|].
    apply Forall_map in Hw. exact Hw. }
  assert (M : Qsum (map (fun x => Qabs (f x)) xs) == Qsum (map (fun y => Qabs (g y)) ys)).
  { rewrite <- (map_map f Qabs), <- (map_map g Qabs).
    apply Qsum_perm, Permutation_map, Hp. }
  destruct (sumOf_exact f xs W) as [E _]; [rewrite M; lra|].
  rewrite E. apply Qsum_perm, Hp.
Qed.

Lemma magnitude_cons (f : SalesRecord -> Q) (daily : DailySales)
    (salesData : list DailySales) :
  magnitude f (daily :: salesData)
  == Qsum (map (fun r => Qabs (f r)) (records daily)) + magnitude f salesData.
Proof. unfold magnitude. rewrite recordsOf_cons, map_app, Qsum_app. reflexivity. Qed.

Lemma magnitude_nonneg (f : SalesRecord -> Q) (salesData : list DailySales) :
  0 <= magnitude f salesData.
Proof. apply Qsum_abs_nonneg. Qed.

Lemma loaded_totals_exact (f : SalesRecord -> Q) (t : DailySales -> Q)
    (salesData : list DailySales) :
  Forall (fun r => whole (f r)) (recordsOf salesData) ->
  magnitude f salesData < exactBound ->
  Forall (fun daily => t daily == F64.sumOf f (records daily)) salesData ->
  Forall (fun daily => whole (t daily)) salesData
  /\ Qsum (map t salesData) == Qsum (map f (recordsOf salesData))
  /\ Qsum (map (fun daily => Qabs (t daily)) salesData) <= magnitude f salesData.
Proof.
  intros Hw Hb Ht. induction Ht as [|d ds Hd _ IH].
  - split; [constructor | split; [reflexivity | unfold magnitude; simpl; lra]].
  - rewrite recordsOf_cons in Hw. apply Forall_app in Hw. destruct Hw as [Hw1 Hw2].
    rewrite magnitude_cons in Hb.
    pose proof (magnitude_nonneg f ds) as N1.
    pose proof (Qsum_abs_nonneg f (records d)) as N2.
    destruct (sumOf_exact f (records d) Hw1) as [E [W L]]; [lra|].
    destruct (IH Hw2) as [I1 [I2 I3]]; [lra|].
    split; [|split].
    + constructor; [apply (whole_eq (F64.sumOf f (records d))); [symmetry; exact Hd | exact W]
                   | exact I1].
    + rewrite recordsOf_cons, map_app, Qsum_app. simpl. rewrite I2, Hd, E. reflexivity.
    + rewrite magnitude_cons. simpl. rewrite Hd. lra.
Qed.

Lemma rounded_getTotal (f : SalesRecord -> Q) (t : DailySales -> Q)
    (salesData : list DailySales) :
  Forall (fun r => whole (f r)) (recordsOf salesData) ->
  magnitude f salesData < exactBound ->
  Forall (fun daily => t daily == F64.sumOf f (records daily)) salesData ->
  fold_left (fun sum daily => F64.add sum (t daily)) salesData 0
  == Qsum (map f (recordsOf salesData)).
Proof.
  intros Hw Hb Ht. destruct (loaded_totals_exact f t salesData Hw Hb Ht) as [W [E L]].
  destruct (fold_add_exact t salesData 0 (whole_inject 0) W) as [S _].
  - change (Qabs 0) with 0. lra.
  - rewrite S, E. ring.
Qed.

Lemma rounded_groups_sum {R V P : Type} (key : R -> string) (init : R -> V)
    (upd : V -> R -> V) (g : V -> Q) (x : R -> Q) (h : P -> Q)
    (rs : list R) (out : list P) :
  (forall r, g (init r) = 0) ->
  (forall v r, g (upd v r) = F64.add (g v) (x r)) ->
  Forall (fun r => whole (x r)) rs ->
  Qsum (map (fun r => Qabs (x r)) rs) < exactBound ->
  Permutation (map h out)
              (map (fun kv => g (snd kv)) (fold_left (accStep key init upd) rs [])) ->
  F64.sumOf h out == Qsum (map x rs).
Proof.
  intros Hi Hu Hw Hb Hp.
  destruct (groups_exact key init upd g x Hi Hu rs [] (Forall_nil _) Hw) as [W [E L]].
  - unfold total. simpl. lra.
  - cbv zeta in W, E, L. unfold total in E, L. simpl in E, L.
    rewrite (sumOf_perm_exact h (fun kv => g (snd kv)) out
               (fold_left (accStep key init upd) rs [])
               (Qsum (map (fun r => Qabs (x r)) rs))); [rewrite E; ring | exact Hp | exact W | lra | exact Hb].
Qed.

(** C5. When the amounts and quantities of all records are whole numbers
    whose absolute values add up to less than [2^53], and every batch
    carries the totals the loader computes from its own records, then in
    the arithmetic of the host the product aggregates add up to
    [getTotalSales] (amounts) and to [getTotalQuantity] (quantities), and
    the company aggregates add up to the same grand total of amounts,
    whatever company tags the records have. *)
Theorem aggregate_totals_agree (salesData : list DailySales) :
  wholeRecords salesData ->
  Forall loadedTotals salesData ->
  F64.sumOf ProductSales.totalAmount (F64.aggregateByProduct salesData)
  == F64.getTotalSales salesData
  /\ F64.sumOf ProductSales.totalQty (F64.aggregateByProduct salesData)
     == F64.getTotalQuantity salesData
  /\ F64.sumOf CompanySales.totalAmount (F64.aggregateByCompany salesData)
     == F64.getTotalSales salesData.
Proof.
  intros Hw Ht. destruct (Forall_whole_records salesData Hw) as [Wa Wq].
  destruct Hw as [_ [Ba Bq]].
  assert (Sa : F64.getTotalSales salesData == Qsum (map TAXBLEAMT (recordsOf salesData))).
  { apply (rounded_getTotal TAXBLEAMT totalAmount); [exact Wa | exact Ba |].
    eapply Forall_impl; [|exact Ht]. intros d [H _]. exact H. }
  assert (Sq : F64.getTotalQuantity salesData == Qsum (map QTY (recordsOf salesData))).
  { apply (rounded_getTotal QTY totalQuantity); [exact Wq | exact Bq |].
    eapply Forall_impl; [|exact Ht]. intros d [_ H]. exact H. }
  rewrite Sa, Sq. unfold F64.aggregateByProduct, F64.aggregateByCompany.
  rewrite rounded_productMapOf_fold, rounded_companyMapOf_fold.
  split; [|split].
  - apply (rounded_groups_sum ITNAME (fun _ => {| qty := 0; amount := 0 |})
             roundedAddQtyAmount amount TAXBLEAMT); try reflexivity; try assumption.
    eapply Permutation_trans; [apply Permutation_map, sort_perm|].
    rewrite map_map. apply Permutation_refl'. apply map_ext. intros [k v]. reflexivity.
  - apply (rounded_groups_sum ITNAME (fun _ => {| qty := 0; amount := 0 |})
             roundedAddQtyAmount qty QTY); try reflexivity; try assumption.
    eapply Permutation_trans; [apply Permutation_map, sort_perm|].
    rewrite map_map. apply Permutation_refl'. apply map_ext. intros [k v]. reflexivity.
  - apply (rounded_groups_sum companyKey (fun _ => emptyCompany)
             roundedAddCompanyData CompanyData.amount TAXBLEAMT);
      try reflexivity; try assumption.
    eapply Permutation_trans; [apply Permutation_map, sort_perm|].
    rewrite map_map. apply Permutation_refl'. apply map_ext. intros [k v]. reflexivity.
Qed.

Lemma aggregate_totals_agree_witness :
  wholeRecords twoProductsTwoDays
  /\ Forall loadedTotals twoProductsTwoDays
  /\ F64.sumOf ProductSales.totalAmount (F64.aggregateByProduct twoProductsTwoDays)
     == F64.getTotalSales twoProductsTwoDays
  /\ F64.sumOf ProductSales.totalQty (F64.aggregateByProduct twoProductsTwoDays)
     == F64.getTotalQuantity twoProductsTwoDays
  /\ F64.sumOf CompanySales.totalAmount (F64.aggregateByCompany twoProductsTwoDays)
     == F64.getTotalSales twoProductsTwoDays.
Proof.
  assert (Hw : wholeRecords twoProductsTwoDays).
  { split; [|split; vm_compute; reflexivity].
    repeat constructor; vm_compute; reflexivity. }
  assert (Ht : Forall loadedTotals twoProductsTwoDays).
  { repeat constructor; vm_compute; reflexivity. }
  split; [exact Hw | split; [exact Ht | exact (aggregate_totals_agree twoProductsTwoDays Hw Ht)]].
Defined.

(** C5, as stated, fails on one batch with the amounts 0.1, 0.2 and 0.3 of
    three products, its totals being the sums the loader computes: the
    total of the batch, and with it [getTotalSales], is
    (0.1 + 0.2) + 0.3 = 0.6000000000000001, while the products, sorted by
    descending amount, add up to (0.3 + 0.2) + 0.1 = 0.6. *)
Lemma aggregate_totals_differ_by_rounding :
  Forall loadedTotals threeTenths
  /\ map ProductSales.productName (F64.aggregateByProduct threeTenths)
     = ["C"; "B"; "A"]%string
  /\ F64.getTotalSales threeTenths == 1351079888211149 # 2251799813685248
  /\ F64.sumOf ProductSales.totalAmount (F64.aggregateByProduct threeTenths)
     == 5404319552844595 # 9007199254740992
  /\ ~ (F64.sumOf ProductSales.totalAmount (F64.aggregateByProduct threeTenths)
        == F64.getTotalSales threeTenths).
Proof.
  split; [repeat constructor; vm_compute; reflexivity|].
  split; [vm_compute; reflexivity|]. split; [vm_compute; reflexivity|].
  split; [vm_compute; reflexivity|]. vm_compute. discriminate.
Qed.

(** ** The rounded moving average of a constant series *)

(** A result that is a whole number of small magnitude is not rounded. *)
Lemma binary64_of_eq (q r : Q) :
  q == r -> whole r -> Qabs r < exactBound -> binary64 q == r.
Proof.
  intros E W B. rewrite <- E in B. rewrite <- E.
  apply binary64_exact; [apply (whole_eq r); [symmetry; exact E | exact W] | exact B].
Qed.

Lemma Qsum_map_zero {A : Type} (f : A -> Q) (l : list A) :
  Forall (fun x => f x == 0) l -> Qsum (map f l) == 0.
Proof.
  induction 1 as [|x l Hx _ IH]; simpl; [reflexivity|]. rewrite Hx, IH. reflexivity.
Qed.

Lemma Qsum_nonneg (l : list Q) : Forall (fun x => 0 <= x) l -> 0 <= Qsum l.
Proof. induction 1 as [|x l Hx _ IH]; simpl; lra. Qed.

Lemma weights_whole {A : Type} (window : list A) :
  Forall whole (mapi (fun _ i => ofNat (i + 1)) window).
Proof.
  unfold mapi. rewrite (mapiFrom_seq (fun i => ofNat (i + 1))).
  apply Forall_map, Forall_forall. intros i _. apply whole_ofNat.
Qed.

Lemma weights_sum {A : Type} (window : list A) :
  Qsum (mapi (fun _ i => ofNat (i + 1)) window) = weightSum (List.length window).
Proof.
  unfold mapi, weightSum. rewrite (mapiFrom_seq (fun i => ofNat (i + 1))). reflexivity.
Qed.

Lemma ofNat_succ (n : nat) : ofNat (n + 1) == ofNat n + 1.
Proof.
  unfold ofNat. rewrite Nat2Z.inj_add, inject_Z_plus. reflexivity.
Qed.

Lemma weightSum_from (n k : nat) :
  ofNat n <= Qsum (map (fun i => ofNat (i + 1)) (seq k n)).
Proof.
  revert k. induction n as [|n IH]; intros k.
  - simpl. change (ofNat 0) with 0. lra.
  - cbn [seq map Qsum fold_right].
    fold (Qsum (map (fun i => ofNat (i + 1)) (seq (S k) n))).
    specialize (IH (S k)). pose proof (ofNat_nonneg k) as N.
    set (s := Qsum (map (fun i => ofNat (i + 1)) (seq (S k) n))) in *. clearbody s.
    pose proof (ofNat_succ n) as En. pose proof (ofNat_succ k) as Ek.
    replace (n + 1)%nat with (S n) in En by lia.
    rewrite En, Ek. lra.
Qed.

Lemma weightSum_ge (n : nat) : ofNat n <= weightSum n.
Proof. apply weightSum_from. Qed.

Section RoundedConstantSeries.
Variable v : Q.
Hypothesis v_whole : whole v.
Hypothesis v_pos : 0 < v.

(** The rounded sum of the window. *)
Lemma rounded_window_sum (window : list Q) :
  Forall (fun x => x == v) window ->
  ofNat (List.length window) * v < exactBound ->
  fold_left (fun sum val => F64.add sum val) window 0
  == ofNat (List.length window) * v.
Proof.
  intros Hwin B.
  assert (W : Forall (fun x => whole ((fun y : Q => y) x)) window).
  { eapply Forall_impl; [|exact Hwin]. intros x Hx. apply (whole_eq v); [symmetry; exact Hx|].
    exact v_whole. }
  assert (M : Qsum (map (fun x => Qabs x) window) == ofNat (List.length window) * v).
  { rewrite <- (Qsum_const v window Hwin). rewrite <- (map_id window) at 2.
    apply Qsum_ext. eapply Forall_impl; [|exact Hwin]. intros x Hx. cbv beta.
    rewrite Hx. apply Qabs_pos. lra. }
  destruct (fold_add_exact (fun y : Q => y) window 0 (whole_inject 0) W) as [E _].
  - change (Qabs 0) with 0. rewrite M. lra.
  - rewrite E, map_id, (Qsum_const v window Hwin). ring.
Qed.

(** The rounded weighted sum of the window. *)
Lemma rounded_weighted_sum (window ws : list Q) (a : Q) :
  Forall (fun x => x == v) window ->
  Forall whole ws -> Forall (fun w => 0 < w) ws ->
  List.length ws = List.length window ->
  whole a -> 0 <= a ->
  a + v * Qsum ws < exactBound ->
  fold_left (fun sum vw => F64.add sum (F64.mul (fst vw) (snd vw))) (combine window ws) a
  == a + v * Qsum ws.
Proof.
  intros Hwin. revert ws a. induction Hwin as [|x l Hx _ IH]; intros [|w ws] a Hw Hp E Wa Pa B;
    simpl in E; try discriminate; simpl.
  - ring.
  - inversion Hw as [|? ? Ww Hws]; subst. inversion Hp as [|? ? Pw Hps]; subst.
    simpl in B. fold (Qsum ws) in *.
    assert (N : 0 <= Qsum ws).
    { apply Qsum_nonneg. eapply Forall_impl; [|exact Hps]. intros y Hy. cbv beta in *. lra. }
    assert (Pvw : 0 < v * w) by (apply Qmult_lt_0_compat; assumption).
    assert (Pvs : 0 <= v * Qsum ws) by (apply Qmult_le_0_compat; lra).
    assert (Wvw : whole (v * w)) by (apply whole_mult; assumption).
    assert (Em : F64.mul x w == v * w).
    { apply binary64_of_eq; [rewrite Hx; reflexivity | exact Wvw |].
      rewrite Qabs_pos; lra. }
    assert (Ea : F64.add a (F64.mul x w) == a + v * w).
    { apply binary64_of_eq; [rewrite Em; reflexivity | apply whole_plus; assumption |].
      rewrite Qabs_pos; lra. }
    rewrite IH; try assumption; try congruence.
    + rewrite Ea. ring.
    + apply (whole_eq (a + v * w)); [symmetry; exact Ea | apply whole_plus; assumption].
    + rewrite Ea. lra.
    + rewrite Ea. lra.
Qed.

(** The rounded sum of the squared deviations from the mean. *)
Lemma rounded_squares (mean : Q) (window : list Q) :
  Forall (fun x => x == v) window -> mean == v ->
  fold_left (fun sum val => F64.add sum (F64.mul (F64.sub val mean) (F64.sub val mean)))
            window 0 == 0.
Proof.
  intros Hwin Hm.
  assert (Z0 : Qabs 0 < exactBound) by reflexivity.
  assert (F : Forall (fun val => F64.mul (F64.sub val mean) (F64.sub val mean) == 0) window).
  { eapply Forall_impl; [|exact Hwin]. intros x Hx. cbv beta.
    assert (S : F64.sub x mean == 0).
    { apply binary64_of_eq; [rewrite Hx, Hm; ring | apply (whole_inject 0) | exact Z0]. }
    apply binary64_of_eq; [rewrite S; ring | apply (whole_inject 0) | exact Z0]. }
  destruct (fold_add_exact
              (fun val => F64.mul (F64.sub val mean) (F64.sub val mean)) window 0
              (whole_inject 0)) as [E _].
  - eapply Forall_impl; [|exact F]. intros x Hx. cbv beta in *.
    apply (whole_eq 0); [symmetry; exact Hx | apply (whole_inject 0)].
  - rewrite (Qsum_map_zero (fun x => Qabs (F64.mul (F64.sub x mean) (F64.sub x mean))) window).
    + reflexivity.
    + eapply Forall_impl; [|exact F]. intros x Hx. cbv beta in *. rewrite Hx. reflexivity.
  - rewrite E, (Qsum_map_zero _ window F). ring.
Qed.

Variable sqrt : Q -> Q.
Hypothesis sqrt_zero : forall q, q == 0 -> sqrt q == 0.

Lemma rounded_average_constant (values : list Q) (i windowSize : nat) :
  v * weightSum windowSize < exactBound ->
  Forall (fun x => x == v) values ->
  (0 < windowSize <= List.length values)%nat ->
  value (F64.calculateMovingAverage sqrt values i windowSize) == v
  /\ confidence (F64.calculateMovingAverage sqrt values i windowSize) == 100.
Proof.
  intros B Hall Hw. unfold F64.calculateMovingAverage.
  destruct values as [|x0 xs] eqn:Ev; [simpl in Hw; lia|]. rewrite <- Ev in *.
  assert (Hmin : Nat.min windowSize (List.length values) = windowSize) by lia.
  rewrite Hmin. destruct windowSize as [|k] eqn:Ek; [lia|]. rewrite <- Ek in *.
  set (window := sliceLast windowSize values).
  assert (Hwin : Forall (fun x => x == v) window)
    by (apply sliceLast_Forall; exact Hall).
  assert (Hlen : List.length window = windowSize)
    by (apply sliceLast_length; lia).
  set (weights := mapi (fun (_ : Q) i => ofNat (i + 1)) window).
  assert (Hwl : List.length weights = List.length window)
    by (unfold weights, mapi; apply mapiFrom_length).
  assert (Hne : weights <> []).
  { intros E. rewrite E in Hwl. simpl in Hwl. lia. }
  assert (Hpos : Forall (fun w => 0 < w) weights) by apply weights_pos.
  assert (Hwh : Forall whole weights) by apply weights_whole.
  assert (HT : 0 < Qsum weights) by (apply Qsum_pos; [exact Hne | exact Hpos]).
  assert (HS : Qsum weights = weightSum windowSize).
  { unfold weights. rewrite weights_sum, Hlen. reflexivity. }
  assert (Hn : 0 < ofNat windowSize) by (apply ofNat_pos; lia).
  assert (Hge : ofNat windowSize <= Qsum weights) by (rewrite HS; apply weightSum_ge).
  rewrite <- HS in B.
  assert (V1 : 1 <= v).
  { pose proof v_whole as W. apply whole_iff in W. destruct W as [z W].
    rewrite W in *. change 1 with (inject_Z 1). rewrite <- Zle_Qle.
    change 0 with (inject_Z 0) in v_pos. rewrite <- Zlt_Qlt in v_pos. lia. }
  assert (Bv : v < exactBound).
  { assert (v * ofNat windowSize <= v * Qsum weights) by (apply Qmult_le_l; lra).
    assert (1 <= ofNat windowSize).
    { unfold ofNat. change 1 with (inject_Z 1). rewrite <- Zle_Qle. lia. }
    assert (v * 1 <= v * ofNat windowSize) by (apply Qmult_le_l; lra). lra. }
  assert (Bn : ofNat windowSize * v < exactBound).
  { assert (v * ofNat windowSize <= v * Qsum weights) by (apply Qmult_le_l; lra). lra. }
  assert (Bw : Qsum weights < exactBound).
  { assert (1 * Qsum weights <= v * Qsum weights) by (apply Qmult_le_compat_r; lra). lra. }
  cbv zeta. cbn [value confidence].
  (* the total weight *)
  assert (ET : fold_left (fun sum w => F64.add sum w) weights 0 == Qsum weights).
  { destruct (fold_add_exact (fun y : Q => y) weights 0 (whole_inject 0)) as [E _].
    - eapply Forall_impl; [|exact Hwh]. intros; assumption.
    - change (Qabs 0) with 0.
      assert (M : Qsum (map (fun x => Qabs x) weights) == Qsum weights).
      { rewrite <- (map_id weights) at 2. apply Qsum_ext.
        eapply Forall_impl; [|exact Hpos]. intros x Hx. cbv beta in *. apply Qabs_pos. lra. }
      rewrite M. lra.
    - rewrite E, map_id. ring. }
  (* the weighted sum *)
  assert (EW : fold_left (fun sum vw => F64.add sum (F64.mul (fst vw) (snd vw)))
                         (combine window weights) 0 == v * Qsum weights).
  { rewrite (rounded_weighted_sum window weights 0); try assumption.
    - ring.
    - apply (whole_inject 0).
    - lra.
    - lra. }
  (* the mean *)
  assert (EM : F64.div (fold_left (fun sum val => F64.add sum val) window 0)
                       (ofNat (List.length window)) == v).
  { apply binary64_of_eq; [|exact v_whole | rewrite Qabs_pos; lra].
    rewrite (rounded_window_sum window Hwin); [|rewrite Hlen; exact Bn].
    rewrite Hlen. field. lra. }
  split.
  - apply binary64_of_eq; [|exact v_whole | rewrite Qabs_pos; lra].
    rewrite EW, ET. field. lra.
  - set (mean := F64.div (fold_left (fun sum val => F64.add sum val) window 0)
                         (ofNat (List.length window))) in *.
    assert (EV : F64.div
                   (fold_left
                      (fun sum val =>
                         F64.add sum (F64.mul (F64.sub val mean) (F64.sub val mean)))
                      window 0)
                   (ofNat (List.length window)) == 0).
    { apply binary64_of_eq; [|apply (whole_inject 0) | reflexivity].
      rewrite (rounded_squares mean window Hwin EM). rewrite Hlen. field. lra. }
    pose proof (sqrt_zero _ EV) as Hsd.
    set (stdDev := sqrt _) in *. clearbody stdDev. clearbody mean.
    destruct (Qlt_le_dec 0 mean) as [Hmp|Hneg];
      [|exfalso; clear - v_pos EM Hneg; lra].
    assert (Hcv : F64.div stdDev mean == 0).
    { apply binary64_of_eq; [|apply (whole_inject 0) | reflexivity].
      rewrite Hsd. field. lra. }
    assert (H1 : F64.sub 1 (F64.div stdDev mean) == 1).
    { apply binary64_of_eq; [rewrite Hcv; ring | apply (whole_inject 1) | reflexivity]. }
    assert (Hvs : Qmax 0 (F64.mul (F64.sub 1 (F64.div stdDev mean)) 100) == 100).
    { assert (E : F64.mul (F64.sub 1 (F64.div stdDev mean)) 100 == 100).
      { apply binary64_of_eq; [rewrite H1; ring | apply (whole_inject 100) | reflexivity]. }
      rewrite E. rewrite Q.max_r; lra. }
    assert (Hd : F64.div (ofNat windowSize) (ofNat windowSize) == 1).
    { apply binary64_of_eq; [field; lra | apply (whole_inject 1) | reflexivity]. }
    assert (Hdq : F64.mul (Qmin (F64.div (ofNat windowSize) (ofNat windowSize)) 1) 100
                  == 100).
    { apply binary64_of_eq; [|apply (whole_inject 100) | reflexivity].
      rewrite Hd. rewrite Q.min_l; lra. }
    assert (Hc : Qmin (F64.div
                         (F64.add
                            (F64.mul (Qmin (F64.div (ofNat windowSize) (ofNat windowSize)) 1)
                                     100)
                            (Qmax 0 (F64.mul (F64.sub 1 (F64.div stdDev mean)) 100)))
                         2) 100 == 100).
    { assert (Ea : F64.add
                     (F64.mul (Qmin (F64.div (ofNat windowSize) (ofNat windowSize)) 1) 100)
                     (Qmax 0 (F64.mul (F64.sub 1 (F64.div stdDev mean)) 100)) == 200).
      { apply binary64_of_eq; [rewrite Hdq, Hvs; reflexivity | apply (whole_inject 200)
                              | reflexivity]. }
      assert (Eh : F64.div
                     (F64.add
                        (F64.mul (Qmin (F64.div (ofNat windowSize) (ofNat windowSize)) 1)
                                 100)
                        (Qmax 0 (F64.mul (F64.sub 1 (F64.div stdDev mean)) 100)))
                     2 == 100).
      { apply binary64_of_eq; [rewrite Ea; reflexivity | apply (whole_inject 100)
                              | reflexivity]. }
      rewrite Eh. reflexivity. }
    unfold round. rewrite Hc. reflexivity.
Qed.
End RoundedConstantSeries.

(** C7. For every series of at least 30 entries all equal to a positive
    whole number [v], and every window size [w] from 1 to the length of the
    series (7, 14 and 30 among them) with [v * (1 + 2 + ... + w)] below
    [2^53], [calculateMovingAverage] returns in the arithmetic of the host
    value [v] and confidence 100, given that the square root of 0 is 0. *)
Theorem constant_series_forecast (sqrt : Q -> Q) (v : Q) (values : list Q)
    (i windowSize : nat) :
  (forall q, q == 0 -> sqrt q == 0) ->
  whole v -> 0 < v -> v * weightSum windowSize < exactBound ->
  Forall (fun x => x == v) values ->
  (30 <= List.length values)%nat ->
  (0 < windowSize <= List.length values)%nat ->
  value (F64.calculateMovingAverage sqrt values i windowSize) == v
  /\ confidence (F64.calculateMovingAverage sqrt values i windowSize) == 100.
Proof.
  intros Hs Wv Hv B Hall _ Hw. apply rounded_average_constant; assumption.
Qed.

Lemma constant_series_forecast_witness :
  (forall q, q == 0 -> sqrtMicro q == 0)
  /\ whole 5 /\ 0 < 5 /\ 5 * weightSum 14 < exactBound
  /\ Forall (fun x => x == 5) (repeat 5 30)
  /\ (30 <= List.length (repeat 5 30))%nat
  /\ (0 < 14 <= List.length (repeat 5 30))%nat
  /\ value (F64.calculateMovingAverage sqrtMicro (repeat 5 30) 30 14) == 5
  /\ confidence (F64.calculateMovingAverage sqrtMicro (repeat 5 30) 30 14) == 100.
Proof.
  assert (H3 : Forall (fun x => x == 5) (repeat 5 30)).
  { apply Forall_forall. intros x Hx. apply repeat_spec in Hx. subst. reflexivity. }
  assert (H1 : whole 5) by reflexivity.
  assert (H2 : 0 < 5) by reflexivity.
  assert (Hb : 5 * weightSum 14 < exactBound) by reflexivity.
  assert (H4 : (30 <= List.length (repeat 5 30))%nat) by (simpl; lia).
  assert (H5 : (0 < 14 <= List.length (repeat 5 30))%nat) by (simpl; lia).
  split; [exact sqrtMicro_zero|]. split; [exact H1|]. split; [exact H2|].
  split; [exact Hb|]. split; [exact H3|]. split; [exact H4|]. split; [exact H5|].
  exact (constant_series_forecast sqrtMicro 5 (repeat 5 30) 30 14
           sqrtMicro_zero H1 H2 Hb H3 H4 H5).
Defined.

(** ** The totals by batch type, rounded *)

Lemma Qsum_by_type (g : DailySales -> Q) (salesData : list DailySales) :
  Qsum (map g (filter (fun d => sameType (type d) PS) salesData))
  + Qsum (map g (filter (fun d => sameType (type d) FS) salesData))
  == Qsum (map g salesData)
  /\ Qsum (map (fun d => Qabs (g d)) (filter (fun d => sameType (type d) PS) salesData))
     + Qsum (map (fun d => Qabs (g d)) (filter (fun d => sameType (type d) FS) salesData))
     == Qsum (map (fun d => Qabs (g d)) salesData).
Proof.
  induction salesData as [|d ds [IH1 IH2]]; simpl; [split; ring|].
  destruct (type d); simpl; rewrite <- IH1, <- IH2; split; ring.
Qed.

Lemma rounded_totals_by_type (g : DailySales -> Q) (salesData : list DailySales) :
  Forall (fun d => whole (g d)) salesData ->
  Qsum (map (fun d => Qabs (g d)) salesData) < exactBound ->
  F64.add (fold_left (fun sum daily => F64.add sum (g daily))
                     (filter (fun d => sameType (type d) PS) salesData) 0)
          (fold_left (fun sum daily => F64.add sum (g daily))
                     (filter (fun d => sameType (type d) FS) salesData) 0)
  == fold_left (fun sum daily => F64.add sum (g daily)) salesData 0.
Proof.
  intros W B. destruct (Qsum_by_type g salesData) as [S1 S2].
  pose proof (Qsum_abs_nonneg g (filter (fun d => sameType (type d) PS) salesData)) as N1.
  pose proof (Qsum_abs_nonneg g (filter (fun d => sameType (type d) FS) salesData)) as N2.
  assert (Z0 : Qabs 0 == 0) by reflexivity.
  destruct (fold_add_exact g salesData 0 (whole_inject 0) W) as [E _]; [rewrite Z0; lra|].
  destruct (fold_add_exact g (filter (fun d => sameType (type d) PS) salesData) 0
              (whole_inject 0)) as [E1 [W1 L1]];
    [apply incl_Forall with (l1 := salesData); [apply incl_filter | exact W]
    | rewrite Z0; lra |].
  destruct (fold_add_exact g (filter (fun d => sameType (type d) FS) salesData) 0
              (whole_inject 0)) as [E2 [W2 L2]];
    [apply incl_Forall with (l1 := salesData); [apply incl_filter | exact W]
    | rewrite Z0; lra |].
  rewrite Z0 in L1, L2.
  rewrite add_exact; [rewrite E, E1, E2, <- S1; ring | exact W1 | exact W2 | lra].
Qed.

(** X12. When the totals of the batches are whole numbers whose absolute
    values add up to less than [2^53], the comparison of the two batch
    types splits the totals in the arithmetic of the host: the PS amount
    and the FS amount add up to [getTotalSales], and the two quantities to
    [getTotalQuantity]. *)
Theorem type_comparison_splits_totals (filteredData : list DailySales) :
  wholeTotals filteredData ->
  F64.add (psAmount (F64.typeComparison filteredData))
          (fsAmount (F64.typeComparison filteredData))
  == F64.getTotalSales filteredData
  /\ F64.add (psQuantity (F64.typeComparison filteredData))
             (fsQuantity (F64.typeComparison filteredData))
     == F64.getTotalQuantity filteredData.
Proof.
  intros [W [Ba Bq]].
  unfold F64.typeComparison, F64.getTotalSales, F64.getTotalQuantity. simpl.
  split.
  - apply rounded_totals_by_type; [|exact Ba].
    eapply Forall_impl; [|exact W]. intros d [H _]. exact H.
  - apply rounded_totals_by_type; [|exact Bq].
    eapply Forall_impl; [|exact W]. intros d [_ H]. exact H.
Qed.

Lemma type_comparison_splits_totals_witness :
  wholeTotals twoProductsTwoDays
  /\ F64.add (psAmount (F64.typeComparison twoProductsTwoDays))
             (fsAmount (F64.typeComparison twoProductsTwoDays))
     == F64.getTotalSales twoProductsTwoDays
  /\ F64.add (psQuantity (F64.typeComparison twoProductsTwoDays))
             (fsQuantity (F64.typeComparison twoProductsTwoDays))
     == F64.getTotalQuantity twoProductsTwoDays.
Proof.
  assert (H : wholeTotals twoProductsTwoDays).
  { split; [|split; vm_compute; reflexivity].
    repeat constructor; vm_compute; reflexivity. }
  split; [exact H | exact (type_comparison_splits_totals twoProductsTwoDays H)].
Defined.

(** ** The rounded moving average, any series of whole numbers *)

Lemma exactBound_power : 2 ^ 53 == exactBound.
Proof. reflexivity. Qed.

(** The exponent found for a positive number below [2^53] is at most 52. *)
Lemma ilog2_small (q : Q) : 0 < q -> q < exactBound -> (ilog2 q <= 52)%Z.
Proof.
  intros H0 H1. unfold ilog2.
  set (e0 := (Z.log2 (Qnum q) - Z.log2 (Zpos (Qden q)))%Z).
  destruct (Z_le_gt_dec e0 52) as [L|G].
  - destruct (Qle_bool (2 ^ e0) q); lia.
  - assert (Hn : (0 < Qnum q)%Z) by (unfold Qlt in H0; simpl in H0; lia).
    assert (Hlt : (Qnum q < 2 ^ 53 * Zpos (Qden q))%Z).
    { unfold Qlt, exactBound in H1. simpl in H1. lia. }
    destruct (Z.log2_spec (Qnum q) Hn) as [N1 _].
    destruct (Z.log2_spec (Zpos (Qden q))) as [_ D2]; [lia|].
    assert (E53 : e0 = 53%Z).
    { assert (Hp : (2 ^ Z.log2 (Qnum q) < 2 ^ (53 + Z.succ (Z.log2 (Zpos (Qden q)))))%Z).
      { rewrite Z.pow_add_r by (pose proof (Z.log2_nonneg (Zpos (Qden q))); lia).
        eapply Z.le_lt_trans; [exact N1|].
        eapply Z.lt_trans; [exact Hlt|].
        apply Z.mul_lt_mono_pos_l; lia. }
      apply Z.pow_lt_mono_r_iff in Hp;
        [|lia | pose proof (Z.log2_nonneg (Zpos (Qden q))); lia].
      unfold e0 in *. lia. }
    replace (Qle_bool (2 ^ e0) q) with false; [lia|].
    symmetry. apply not_true_is_false. intros B. apply Qle_bool_iff in B.
    rewrite E53, exactBound_power in B. lra.
Qed.

Lemma roundHalfEven_floor (y : Q) :
  roundHalfEven y = Qfloor y \/ roundHalfEven y = (Qfloor y + 1)%Z.
Proof.
  unfold roundHalfEven. destruct (y - inject_Z (Qfloor y) ?= 1 # 2); auto.
  destruct (Z.even (Qfloor y)); auto.
Qed.

Lemma roundHalfEven_ge (y : Q) (m : Z) : inject_Z m <= y -> (m <= roundHalfEven y)%Z.
Proof.
  intros H. apply Qfloor_resp_le in H. rewrite Qfloor_Z in H.
  destruct (roundHalfEven_floor y) as [E|E]; rewrite E; lia.
Qed.

Lemma roundHalfEven_le (y : Q) (m : Z) : y <= inject_Z m -> (roundHalfEven y <= m)%Z.
Proof.
  intros H. pose proof (Qfloor_resp_le _ _ H) as F. rewrite Qfloor_Z in F.
  destruct (Z.eq_dec (Qfloor y) m) as [E|N].
  - assert (Y : y == inject_Z m).
    { apply Qle_antisym; [exact H|]. rewrite <- E. apply Qfloor_le. }
    rewrite (roundHalfEven_whole y m Y). lia.
  - destruct (roundHalfEven_floor y) as [E|E]; rewrite E; lia.
Qed.

(** Rounding does not cross a whole number below [2^53]. *)
Lemma binary64_between (x lo hi : Q) :
  whole lo -> whole hi -> 0 <= lo -> lo <= x -> x <= hi -> hi < exactBound ->
  lo <= binary64 x /\ binary64 x <= hi.
Proof.
  intros Wl Wh L0 Hl Hh B. unfold binary64.
  destruct (Qnum x) as [|p|p] eqn:En.
  - assert (X : x == 0) by (unfold Qeq; simpl; rewrite En; reflexivity).
    rewrite X in Hl, Hh. split; assumption.
  - cbv zeta. rewrite Qred_correct.
    assert (Xp : 0 < x) by (unfold Qlt; simpl; rewrite En; lia).
    assert (He : (ilog2 x <= 52)%Z) by (apply ilog2_small; lra).
    replace (ilog2 x - 52)%Z with (- (52 - ilog2 x))%Z by lia.
    set (k := (52 - ilog2 x)%Z). assert (Hk : (0 <= k)%Z) by (unfold k; lia).
    pose proof (pow2_neg k Hk) as P.
    assert (Pp : 0 < inject_Z (2 ^ k)).
    { change 0 with (inject_Z 0). rewrite <- Zlt_Qlt. apply Z.pow_pos_nonneg; lia. }
    set (u := 2 ^ (- k)) in *. set (s := inject_Z (2 ^ k)) in *.
    assert (Up : 0 < u).
    { destruct (Qlt_le_dec 0 u) as [U|U]; [exact U|].
      exfalso. assert (u * s <= 0 * s) by (apply Qmult_le_compat_r; lra). lra. }
    assert (U0 : ~ u == 0) by lra.
    assert (Y : x / u == x * s).
    { setoid_replace (x * s) with (x * (u * s) / u) by (field; exact U0).
      rewrite P. field. exact U0. }
    apply whole_iff in Wl, Wh. destruct Wl as [zl Wl], Wh as [zh Wh].
    assert (Yl : inject_Z (zl * 2 ^ k) <= x / u).
    { rewrite Y, inject_Z_mult, <- Wl. fold s. apply Qmult_le_compat_r; lra. }
    assert (Yh : x / u <= inject_Z (zh * 2 ^ k)).
    { rewrite Y, inject_Z_mult, <- Wh. fold s. apply Qmult_le_compat_r; lra. }
    apply roundHalfEven_ge in Yl. apply roundHalfEven_le in Yh.
    rewrite Zle_Qle, inject_Z_mult in Yl, Yh. fold s in Yl, Yh.
    rewrite <- Wl in Yl. rewrite <- Wh in Yh.
    set (r := inject_Z (roundHalfEven (x / u))) in *. clearbody r.
    assert (Ll : lo * s * u <= r * u) by (apply Qmult_le_compat_r; lra).
    assert (Lh : r * u <= hi * s * u) by (apply Qmult_le_compat_r; lra).
    assert (El : lo * s * u == lo) by (rewrite <- Qmult_assoc, (Qmult_comm s u), P; ring).
    assert (Eh : hi * s * u == hi) by (rewrite <- Qmult_assoc, (Qmult_comm s u), P; ring).
    rewrite El in Ll. rewrite Eh in Lh. split; assumption.
  - exfalso. assert (Xn : x < 0) by (unfold Qlt; simpl; rewrite En; lia). lra.
Qed.

Lemma rounded_weights_sum (ws : list Q) :
  Forall whole ws -> Forall (fun w => 0 < w) ws -> Qsum ws < exactBound ->
  fold_left (fun sum w => F64.add sum w) ws 0 == Qsum ws.
Proof.
  intros W P B.
  destruct (fold_add_exact (fun y : Q => y) ws 0 (whole_inject 0)) as [E _].
  - eapply Forall_impl; [|exact W]. intros; assumption.
  - change (Qabs 0) with 0.
    assert (M : Qsum (map (fun x => Qabs x) ws) == Qsum ws).
    { rewrite <- (map_id ws) at 2. apply Qsum_ext.
      eapply Forall_impl; [|exact P]. intros x Hx. cbv beta in *. apply Qabs_pos. lra. }
    rewrite M. lra.
  - rewrite E, map_id. ring.
Qed.

Lemma rounded_products_sum (hi : Q) (window ws : list Q) (a : Q) :
  Forall (fun x => whole x /\ 0 <= x /\ x <= hi) window ->
  Forall whole ws -> Forall (fun w => 0 < w) ws ->
  List.length ws = List.length window ->
  whole a -> 0 <= a ->
  a + hi * Qsum ws < exactBound ->
  fold_left (fun sum vw => F64.add sum (F64.mul (fst vw) (snd vw))) (combine window ws) a
  == a + Qsum (map (fun vw => fst vw * snd vw) (combine window ws)).
Proof.
  intros Hwin. revert ws a.
  induction Hwin as [|x l [Wx [Px Hx]] _ IH]; intros [|w ws] a Hw Hp E Wa Pa B;
    simpl in E; try discriminate; simpl.
  - ring.
  - inversion Hw as [|? ? Ww Hws]; subst. inversion Hp as [|? ? Pw Hps]; subst.
    simpl in B. fold (Qsum ws) in *.
    fold (Qsum (map (fun vw => fst vw * snd vw) (combine l ws))).
    assert (N : 0 <= Qsum ws).
    { apply Qsum_nonneg. eapply Forall_impl; [|exact Hps]. intros y Hy. cbv beta in *. lra. }
    assert (H0 : 0 <= hi) by lra.
    assert (Pxw : 0 <= x * w) by (apply Qmult_le_0_compat; lra).
    assert (Lxw : x * w <= hi * w) by (apply Qmult_le_compat_r; lra).
    assert (Phs : 0 <= hi * Qsum ws) by (apply Qmult_le_0_compat; lra).
    assert (Wxw : whole (x * w)) by (apply whole_mult; assumption).
    assert (Em : F64.mul x w == x * w).
    { apply binary64_of_eq; [reflexivity | exact Wxw |]. rewrite Qabs_pos; lra. }
    assert (Ea : F64.add a (F64.mul x w) == a + x * w).
    { apply binary64_of_eq; [rewrite Em; reflexivity | apply whole_plus; assumption |].
      rewrite Qabs_pos; lra. }
    rewrite IH; try assumption; try congruence.
    + rewrite Ea. ring.
    + apply (whole_eq (a + x * w)); [symmetry; exact Ea | apply whole_plus; assumption].
    + rewrite Ea. lra.
    + rewrite Ea. lra.
Qed.

Lemma weighted_bounds (lo hi : Q) (window ws : list Q) :
  Forall (fun x => lo <= x /\ x <= hi) window ->
  Forall (fun w => 0 < w) ws ->
  List.length ws = List.length window ->
  lo * Qsum ws <= Qsum (map (fun vw => fst vw * snd vw) (combine window ws))
  /\ Qsum (map (fun vw => fst vw * snd vw) (combine window ws)) <= hi * Qsum ws.
Proof.
  intros H. revert ws. induction H as [|x l [Hl Hh] _ IH]; intros [|w ws] Hw E;
    simpl in E; try discriminate; simpl.
  - split; lra.
  - inversion Hw as [|? ? Hw0 Hws]; subst.
    destruct (IH ws Hws) as [I1 I2]; [congruence|].
    assert (lo * w <= x * w) by (apply Qmult_le_compat_r; lra).
    assert (x * w <= hi * w) by (apply Qmult_le_compat_r; lra).
    split; lra.
Qed.

(** X21. In the arithmetic of the host the value of
    [calculateMovingAverage] lies between the smallest and the largest
    value of the series, when these are whole numbers that the weighted sum
    does not round: for a series, not empty, of whole numbers between the
    whole numbers [lo >= 0] and [hi], and a window [w] of at least one day
    with [(hi + 1) * (1 + 2 + ... + w')] below [2^53], [w'] being the smaller
    of [w] and the length of the series, the value is between [lo] and
    [hi]. *)
Theorem moving_average_within_values (sqrt : Q -> Q) (lo hi : Q) (values : list Q)
    (i windowSize : nat) :
  values <> [] ->
  (1 <= windowSize)%nat ->
  whole lo -> whole hi -> 0 <= lo ->
  Forall (fun x => whole x /\ lo <= x /\ x <= hi) values ->
  (hi + 1) * weightSum (Nat.min windowSize (List.length values)) < exactBound ->
  lo <= value (F64.calculateMovingAverage sqrt values i windowSize)
  /\ value (F64.calculateMovingAverage sqrt values i windowSize) <= hi.
Proof.
  intros Hne Hw Wl Wh L0 Hall B. unfold F64.calculateMovingAverage.
  destruct values as [|x0 xs] eqn:Ev; [congruence|]. rewrite <- Ev in *.
  assert (Hlen : (1 <= List.length values)%nat) by (rewrite Ev; simpl; lia).
  destruct (Nat.min windowSize (List.length values)) as [|k] eqn:Em; [lia|].
  rewrite <- Em in *. cbv zeta. cbn [value].
  set (window := sliceLast _ values).
  assert (Hwin : Forall (fun x => whole x /\ lo <= x /\ x <= hi) window)
    by (apply sliceLast_Forall; exact Hall).
  assert (Hwl : List.length window = Nat.min windowSize (List.length values))
    by (apply sliceLast_length; lia).
  set (weights := mapi (fun (_ : Q) i => ofNat (i + 1)) window).
  assert (Hl : List.length weights = List.length window)
    by (unfold weights, mapi; apply mapiFrom_length).
  assert (Hwne : weights <> []).
  { intros E. rewrite E in Hl. simpl in Hl. lia. }
  assert (Hpos : Forall (fun w => 0 < w) weights) by apply weights_pos.
  assert (Hwh : Forall whole weights) by apply weights_whole.
  assert (HT : 0 < Qsum weights) by (apply Qsum_pos; [exact Hwne | exact Hpos]).
  assert (HS : Qsum weights = weightSum (Nat.min windowSize (List.length values))).
  { unfold weights. rewrite weights_sum, Hwl. reflexivity. }
  rewrite <- HS in B.
  assert (Hh0 : 0 <= hi).
  { destruct window as [|x w']; [simpl in Hwl; lia|].
    inversion Hwin as [|? ? [_ [A1 A2]] _]; subst. lra. }
  assert (Bt : Qsum weights < exactBound).
  { assert (0 <= hi * Qsum weights) by (apply Qmult_le_0_compat; lra). lra. }
  assert (Bs : hi * Qsum weights < exactBound) by lra.
  assert (ET : fold_left (fun sum w => F64.add sum w) weights 0 == Qsum weights)
    by (apply rounded_weights_sum; assumption).
  assert (EW : fold_left (fun sum vw => F64.add sum (F64.mul (fst vw) (snd vw)))
                         (combine window weights) 0
               == Qsum (map (fun vw => fst vw * snd vw) (combine window weights))).
  { rewrite (rounded_products_sum hi window weights 0); try assumption.
    - ring.
    - eapply Forall_impl; [|exact Hwin]. intros x [A1 [A2 A3]]. repeat split; lra || assumption.
    - apply (whole_inject 0).
    - lra.
    - lra. }
  destruct (weighted_bounds lo hi window weights) as [B1 B2];
    [eapply Forall_impl; [|exact Hwin]; intros x [_ A]; exact A | exact Hpos | exact Hl |].
  unfold F64.div. apply binary64_between; try assumption.
  - rewrite EW, ET. apply Qle_shift_div_l; lra.
  - rewrite EW, ET. apply Qle_shift_div_r; lra.
  - assert (T1 : 1 <= Qsum weights).
    { rewrite HS. eapply Qle_trans; [|apply weightSum_ge].
      unfold ofNat. change 1 with (inject_Z 1). rewrite <- Zle_Qle. lia. }
    assert ((hi + 1) * 1 <= (hi + 1) * Qsum weights) by (apply Qmult_le_l; lra).
    lra.
Qed.

Lemma moving_average_within_values_witness :
  10 <= value (F64.calculateMovingAverage sqrtMicro [10; 40; 20; 30] 4 7)
  /\ value (F64.calculateMovingAverage sqrtMicro [10; 40; 20; 30] 4 7) <= 40.
Proof.
  apply (moving_average_within_values sqrtMicro 10 40 [10; 40; 20; 30] 4 7).
  - discriminate.
  - lia.
  - reflexivity.
  - reflexivity.
  - discriminate.
  - repeat constructor; try reflexivity; discriminate.
  - reflexivity.
Defined.
